(** * SecureOS sandbox construction and security monitor: a shallow embedding

    The C sources embedded here are
    - [capability_syscalls.c]   (capability controller),
    - [secure_sandbox_fixed.c]  (process sandbox, phase 4 build context),
    - [secure_sandbox.c]        (process sandbox, phase 3),
    - [app_sandbox.c]           (application sandbox, phase 5),
    - [security_monitor.c]      (event / rule monitor).

    Every system call the C code issues is an event appended to the trace of
    the running process; what the kernel answers is an arbitrary function of
    the history, so every theorem quantified over a [kernel] holds whatever
    the operating system does. *)

From Stdlib Require Import ZArith Lia Bool Ascii String List.
From stdpp Require Import base list strings.
Import ListNotations.
Local Open Scope Z_scope.

(** ** Constants of the C library and of the Linux headers *)

Definition EPERM : Z := 1.
Definition ESRCH : Z := 3.
Definition ENOMEM : Z := 12.
Definition EINVAL : Z := 22.
Definition EXIT_FAILURE : Z := 1.

Definition PR_SET_SECCOMP : Z := 22.
Definition PR_CAPBSET_DROP : Z := 24.
Definition PR_SET_NO_NEW_PRIVS : Z := 38.
Definition SECCOMP_MODE_STRICT : Z := 1.
Definition SECCOMP_MODE_FILTER : Z := 2.
Definition SECCOMP_RET_KILL : Z := 0x00000000.
Definition SECCOMP_RET_ALLOW : Z := 0x7fff0000.
Definition AUDIT_ARCH_X86_64 : Z := 0xC000003E.

Definition MS_RDONLY : Z := 1.
Definition MS_NOSUID : Z := 2.
Definition MS_NODEV : Z := 4.
Definition MS_NOEXEC : Z := 8.
Definition MS_BIND : Z := 4096.
Definition MS_REC : Z := 16384.
Definition MS_PRIVATE : Z := 262144.

Definition CLONE_NEWNS : Z := 0x00020000.
Definition CLONE_NEWUTS : Z := 0x04000000.
Definition CLONE_NEWIPC : Z := 0x08000000.
Definition CLONE_NEWUSER : Z := 0x10000000.
Definition CLONE_NEWPID : Z := 0x20000000.
Definition CLONE_NEWNET : Z := 0x40000000.

Definition SIGKILL : Z := 9.
Definition SIGTERM : Z := 15.
Definition WNOHANG : Z := 1.

(** [__NR_*] of x86_64, used by the phase 3 filter program. *)
Definition NR_read : Z := 0.
Definition NR_write : Z := 1.
Definition NR_mmap : Z := 9.
Definition NR_munmap : Z := 11.
Definition NR_brk : Z := 12.
Definition NR_exit : Z := 60.
Definition NR_exit_group : Z := 231.

Inductive rlimit_resource :=
| RLIMIT_CPU | RLIMIT_FSIZE | RLIMIT_NPROC | RLIMIT_NOFILE | RLIMIT_AS.

(** ** Data passed to the kernel *)

(** [struct __user_cap_data_struct]: three [__u32] words. *)
Record user_cap_data := mk_cap_data {
  effective : Z;
  permitted : Z;
  inheritable : Z
}.

(** [struct __user_cap_data_struct caps[_LINUX_CAPABILITY_U32S_3]], two
    elements: the low and the high 32 capability bits. *)
Record cap_array := mk_caps { caps0 : user_cap_data; caps1 : user_cap_data }.

(** [struct sock_filter] and the [BPF_STMT] / [BPF_JUMP] initialisers. *)
Record sock_filter := mk_insn { code : Z; jt : Z; jf : Z; k : Z }.

Definition BPF_LD : Z := 0x00.
Definition BPF_W : Z := 0x00.
Definition BPF_ABS : Z := 0x20.
Definition BPF_JMP : Z := 0x05.
Definition BPF_JEQ : Z := 0x10.
Definition BPF_K : Z := 0x00.
Definition BPF_RET : Z := 0x06.

Definition BPF_STMT (c kk : Z) : sock_filter := mk_insn c 0 0 kk.
Definition BPF_JUMP (c kk t f : Z) : sock_filter := mk_insn c t f kk.

(** ** System calls, kernel answers, traces *)

Inductive syscall :=
| SysGetuid
| SysGetpid
| SysFork
| SysUnshare (flags : Z)
| SysMount (source : option string) (target : string)
           (fstype : option string) (flags : Z) (data : option string)
| SysChroot (dir : string)
| SysChdir (dir : string)
| SysPrctl (option_ arg2 : Z) (prog : option (list sock_filter))
| SysCapget
| SysCapset (caps : cap_array)
| SysSetrlimit (resource : rlimit_resource) (rlim_cur rlim_max : Z)
| SysSetgid (gid : Z)
| SysSetuid (uid : Z)
| SysExecve (path : string) (argv : list string) (envp : option (list string))
| SysKill (pid sig : Z)
| SysWaitpid (pid options : Z)
| SysSleep (seconds : Z).

(** A call either succeeds with a non-negative value or fails with -1 and a
    positive [errno]. *)
Inductive sysret :=
| SysOk (v : N)
| SysErr (e : positive).

Definition rv (r : sysret) : Z :=
  match r with SysOk v => Z.of_N v | SysErr _ => -1 end.

Definition event : Type := syscall * sysret.

(** The operating system as seen by one process: the answer to a call is a
    function of the calls made so far. [capget_out] is what capget writes
    to the user buffer and [wait_status] what waitpid stores in [*status]. *)
Record kernel := mk_kernel {
  sys : list event -> syscall -> sysret;
  capget_out : list event -> cap_array;
  wait_status : list event -> Z
}.

(** Lines written by the audit / diagnostic printers. *)
Inductive audit_msg :=
| AuditSandboxFailure (operation : string) (error_code : Z)
| AuditSandboxSuccess (pid : Z)
| AuditCapability (operation : string) (result : Z)
| AuditApp (event_ app_name : string) (result : Z)
| Perror (what : string)
| Stderr (line : string).

Record pstate := mk_pstate {
  trace : list event;
  errno : Z;
  audit : list audit_msg
}.

Definition initial_pstate : pstate := mk_pstate [] 0 [].

(** ** The process monad

    A computation either returns to its caller, leaves through [_exit], or
    is replaced by another program image through a successful exec. *)
Inductive outcome (A : Type) :=
| Ret (a : A)
| Exited (status : Z)
| Execed (path : string) (argv : list string) (envp : option (list string)).
Arguments Ret {A} a.
Arguments Exited {A} status.
Arguments Execed {A} path argv envp.

Definition proc (A : Type) : Type := pstate -> outcome A * pstate.

Definition ret {A} (a : A) : proc A := fun s => (Ret a, s).

Definition bind {A B} (m : proc A) (f : A -> proc B) : proc B :=
  fun s =>
    match m s with
    | (Ret a, s') => f a s'
    | (Exited c, s') => (Exited c, s')
    | (Execed p a e, s') => (Execed p a e, s')
    end.

Notation "'let*' x ':=' m 'in' f" := (bind m (fun x => f))
  (at level 10, x name, m at level 100, f at level 200).
Notation "m ';;' f" := (bind m (fun _ => f))
  (at level 100, f at level 200, right associativity).

Definition _exit {A} (status : Z) : proc A := fun s => (Exited status, s).

Definition get_errno : proc Z := fun s => (Ret (errno s), s).

Definition add_audit (s : pstate) (m : audit_msg) : pstate :=
  mk_pstate (trace s) (errno s) (audit s ++ [m]).

Definition log (m : audit_msg) : proc unit :=
  fun s => (Ret tt, add_audit s m).

(** The state after system call [sc] was answered with [r]: the call is
    recorded and a failure sets [errno]. *)
Definition push (s : pstate) (sc : syscall) (r : sysret) : pstate :=
  mk_pstate (trace s ++ [(sc, r)])
            (match r with SysErr e => Z.pos e | SysOk _ => errno s end)
            (audit s).

Section WithKernel.

Variable K : kernel.

(** Issue one system call: record it with the kernel's answer, set [errno]
    on failure, hand back the C return value. *)
Definition syscall_ (sc : syscall) : proc Z :=
  fun s =>
    let r := sys K (trace s) sc in
    (Ret (rv r), push s sc r).

(** A successful exec does not return. [envp] is [None] for [execv], which
    hands the current environment on. *)
Definition exec_ (path : string) (argv : list string)
    (envp : option (list string)) : proc Z :=
  fun s =>
    let sc := SysExecve path argv envp in
    let r := sys K (trace s) sc in
    match r with
    | SysOk _ => (Execed path argv envp, push s sc r)
    | SysErr e => (Ret (-1), push s sc r)
    end.

Definition execve (path : string) (argv envp : list string) : proc Z :=
  exec_ path argv (Some envp).

Definition execv (path : string) (argv : list string) : proc Z :=
  exec_ path argv None.

(** [waitpid(pid, &status, options)]: the return value and [status]. *)
Definition waitpid (pid options : Z) : proc (Z * Z) :=
  fun s =>
    let st := wait_status K (trace s) in
    match syscall_ (SysWaitpid pid options) s with
    | (Ret r, s') => (Ret (r, st), s')
    | (Exited c, s') => (Exited c, s')
    | (Execed p a e, s') => (Execed p a e, s')
    end.

End WithKernel.

(** ** capability_syscalls.c *)

Module Capability.
Section WithKernel.
Variable K : kernel.

Definition zero_cap_data : user_cap_data := mk_cap_data 0 0 0.
(** [memset(caps, 0, sizeof(caps))] *)
Definition zero_caps : cap_array := mk_caps zero_cap_data zero_cap_data.

Definition secureos_cap_get_proc : proc (Z * cap_array) :=
  fun s =>
    let out := capget_out K (trace s) in
    match syscall_ K SysCapget s with
    | (Ret r, s') => (Ret (r, out), s')
    | (Exited c, s') => (Exited c, s')
    | (Execed p a e, s') => (Execed p a e, s')
    end.

Definition secureos_cap_set_proc (caps : cap_array) : proc Z :=
  syscall_ K (SysCapset caps).

Definition secureos_cap_clear_all : proc Z :=
  let caps := zero_caps in
  secureos_cap_set_proc caps.

Definition secureos_cap_drop_all_except (required_caps : Z) : proc Z :=
  let* got := secureos_cap_get_proc in
  let caps := snd got in
  if fst got <? 0 then
    let* e := get_errno in ret (- e)
  else
    let caps := zero_caps in
    let caps :=
      if negb (required_caps =? 0) then
        let caps :=
          mk_caps (mk_cap_data (Z.land required_caps 0xFFFFFFFF)
                               (Z.land required_caps 0xFFFFFFFF)
                               0)
                  (caps1 caps) in
        if required_caps >? 0xFFFFFFFF then
          mk_caps (caps0 caps)
                  (mk_cap_data (Z.land (Z.shiftr required_caps 32) 0xFFFFFFFF)
                               (Z.land (Z.shiftr required_caps 32) 0xFFFFFFFF)
                               0)
        else caps
      else caps in
    secureos_cap_set_proc caps.

(** [1U << cap] is a 32-bit value; [cap] is expected in 0..63. *)
Definition secureos_cap_has_capability (cap : Z) : proc Z :=
  let* got := secureos_cap_get_proc in
  let caps := snd got in
  if fst got <? 0 then
    let* e := get_errno in ret (- e)
  else if cap <? 32 then
    ret (if negb (Z.land (effective (caps0 caps))
                         (Z.shiftl 1 cap mod 2 ^ 32) =? 0)
         then 1 else 0)
  else if cap <? 64 then
    ret (if negb (Z.land (effective (caps1 caps))
                         (Z.shiftl 1 (cap - 32) mod 2 ^ 32) =? 0)
         then 1 else 0)
  else ret 0.

Definition audit_capability_operation (operation : string) (result : Z)
  : proc unit :=
  log (AuditCapability operation result).

End WithKernel.
End Capability.

(** ** secure_sandbox_fixed.c *)

Module SandboxFixed.

(** secure_sandbox.h *)
Definition MAX_SYSCALLS : Z := 512.
Definition MAX_MOUNTS : Z := 64.
Definition MAX_ENV_VARS : Z := 128.

Record sandbox_limits := mk_limits {
  max_memory : Z;      (* unsigned long *)
  max_cpu_time : Z;    (* unsigned long *)
  max_file_size : Z;   (* unsigned long *)
  max_processes : Z;   (* unsigned int *)
  max_open_files : Z   (* unsigned int *)
}.

Record sandbox_mount := mk_mount {
  source : string;
  target : string;
  fstype : string;
  flags : Z;
  readonly : Z
}.

Record sandbox_config := mk_config {
  program : string;
  argv : list string;
  envp : list string;
  uid : Z;
  gid : Z;
  allowed_syscalls : list Z;
  required_caps : Z;
  limits : sandbox_limits;
  mounts : list sandbox_mount;
  mount_count : Z;
  network_access : Z;
  x11_access : Z
}.

Section WithKernel.
Variable K : kernel.

Definition audit_log_sandbox_failure (operation : string) (error_code : Z)
  : proc unit :=
  log (AuditSandboxFailure operation error_code).

Definition audit_log_sandbox_success (pid : Z) : proc unit :=
  log (AuditSandboxSuccess pid).

(** [config] is a pointer and may be null. [getuid] is only reached when
    the requested uid is 0 (short-circuit [&&]). *)
Definition validate_sandbox_config (config : option sandbox_config) : proc Z :=
  match config with
  | None => ret (- EINVAL)
  | Some config =>
      if String.eqb (program config) EmptyString then ret (- EINVAL)
      else if uid config =? 0 then
        let* me := syscall_ K SysGetuid in
        if negb (me =? 0) then ret (- EPERM) else ret 0
      else ret 0
  end.

(** The [for] loop of [setup_sandbox_mounts] over [mounts[0 .. mount_count)]. *)
Fixpoint apply_custom_mounts (ms : list sandbox_mount) : proc Z :=
  match ms with
  | [] => ret 0
  | m :: rest =>
      let flags := flags m in
      let flags := if negb (readonly m =? 0) then Z.lor flags MS_RDONLY
                   else flags in
      let* r := syscall_ K (SysMount (Some (source m)) (target m)
                                     (Some (fstype m)) flags None) in
      if r <? 0 then let* e := get_errno in ret (- e)
      else apply_custom_mounts rest
  end.

(** The loop is handed the first [mount_count] entries of the table,
    which is what [for (i = 0; i < config->mount_count; i++)] visits as
    long as [mount_count] is within the table. Nothing checks that it
    is: beyond the table the C loop reads outside the array, where this
    definition stops at the last entry. The definition is meant within
    the bound [mount_count <= length mounts], under which the properties
    of the mount stage and of the child that runs it are stated. *)
Definition setup_sandbox_mounts (config : sandbox_config) : proc Z :=
  let* r := syscall_ K (SysMount None "/" None (Z.lor MS_REC MS_PRIVATE) None) in
  if r <? 0 then let* e := get_errno in ret (- e) else
  let* r := syscall_ K (SysMount (Some "tmpfs") "/tmp" (Some "tmpfs")
                          (Z.lor (Z.lor MS_NODEV MS_NOSUID) MS_NOEXEC)
                          (Some "size=100M,mode=1777")) in
  if r <? 0 then let* e := get_errno in ret (- e) else
  apply_custom_mounts (take (Z.to_nat (mount_count config)) (mounts config)).

Definition apply_seccomp_filter (allowed_syscalls : list Z) : proc Z :=
  let* r := syscall_ K (SysPrctl PR_SET_NO_NEW_PRIVS 1 None) in
  if r <? 0 then let* e := get_errno in ret (- e) else
  let* r := syscall_ K (SysPrctl PR_SET_SECCOMP SECCOMP_MODE_STRICT None) in
  if r <? 0 then let* e := get_errno in ret (- e) else
  ret 0.

Definition drop_all_capabilities_except (required_caps : Z) : proc Z :=
  let* r := Capability.secureos_cap_drop_all_except K required_caps in
  Capability.audit_capability_operation "drop_capabilities" r ;;
  ret r.

(** One block of [apply_resource_limits]:
    [if (field > 0) { rlim.rlim_cur = rlim.rlim_max = field;
                      if (setrlimit(res, &rlim) < 0) return -errno; }]
    followed by the rest of the function. *)
Definition limit_block (field : Z) (res : rlimit_resource) (rest : proc Z)
  : proc Z :=
  if field >? 0 then
    let* r := syscall_ K (SysSetrlimit res field field) in
    if r <? 0 then let* e := get_errno in ret (- e) else rest
  else rest.

Definition apply_resource_limits (limits : sandbox_limits) : proc Z :=
  limit_block (max_memory limits) RLIMIT_AS
    (limit_block (max_cpu_time limits) RLIMIT_CPU
      (limit_block (max_file_size limits) RLIMIT_FSIZE
        (limit_block (max_processes limits) RLIMIT_NPROC
          (limit_block (max_open_files limits) RLIMIT_NOFILE
            (ret 0))))).

Definition change_to_sandbox_user (uid gid : Z) : proc Z :=
  let* r := syscall_ K (SysSetgid gid) in
  if r <? 0 then let* e := get_errno in ret (- e) else
  let* r := syscall_ K (SysSetuid uid) in
  if r <? 0 then let* e := get_errno in ret (- e) else
  (* Verify we can't regain privileges *)
  let* r := syscall_ K (SysSetuid 0) in
  if r =? 0 then ret (- EPERM) else
  ret 0.

Definition unshare_flags : Z :=
  Z.lor (Z.lor (Z.lor (Z.lor (Z.lor 0x00020000 0x20000000) 0x40000000)
                      0x04000000) 0x08000000) 0x10000000.

(** The [if (pid == 0) { ... }] block of [create_secure_sandbox]: what the
    forked child runs. It never returns to the caller. *)
Definition sandbox_child (config : sandbox_config) : proc Z :=
  let* r := syscall_ K (SysUnshare unshare_flags) in
  if r <? 0 then
    let* e := get_errno in
    audit_log_sandbox_failure "namespace creation" e ;; _exit EXIT_FAILURE
  else
  let* r := setup_sandbox_mounts config in
  if r <? 0 then
    audit_log_sandbox_failure "mount setup" r ;; _exit EXIT_FAILURE
  else
  let* r := apply_seccomp_filter (allowed_syscalls config) in
  if r <? 0 then
    audit_log_sandbox_failure "seccomp setup" r ;; _exit EXIT_FAILURE
  else
  let* r := drop_all_capabilities_except (required_caps config) in
  if r <? 0 then
    audit_log_sandbox_failure "capability drop" r ;; _exit EXIT_FAILURE
  else
  let* r := apply_resource_limits (limits config) in
  if r <? 0 then
    audit_log_sandbox_failure "resource limits" r ;; _exit EXIT_FAILURE
  else
  let* r := change_to_sandbox_user (uid config) (gid config) in
  if r <? 0 then
    audit_log_sandbox_failure "user change" r ;; _exit EXIT_FAILURE
  else
  let* me := syscall_ K SysGetpid in
  audit_log_sandbox_success me ;;
  execve K (program config) (argv config) (envp config) ;;
  _exit EXIT_FAILURE.

(** [if (!config || !validate_sandbox_config(config)) return -EINVAL;]
    The C [!] of the validation result is true exactly when the result
    is 0. *)
Definition create_secure_sandbox (config : option sandbox_config) : proc Z :=
  match config with
  | None => ret (- EINVAL)
  | Some cfg =>
      let* v := validate_sandbox_config config in
      if v =? 0 then ret (- EINVAL) else
      let* pid := syscall_ K SysFork in
      if pid <? 0 then let* e := get_errno in ret (- e) else
      if pid =? 0 then sandbox_child cfg
      else ret pid
  end.

End WithKernel.
End SandboxFixed.

(** ** secure_sandbox.c (phase 3) *)

Module SandboxPhase3.

Record sandbox_config_t := mk_config {
  program : option string;       (* char *, may be NULL *)
  argv : list string;
  envp : list string;
  uid : Z;
  gid : Z;
  chroot_dir : option string;    (* char *, may be NULL *)
  allowed_syscalls : list Z;
  num_syscalls : Z
}.

(** [struct sock_filter filter[]] of [install_seccomp_filter];
    [offsetof(struct seccomp_data, arch)] is 4 and [offsetof(.., nr)] is 0. *)
Definition filter : list sock_filter :=
  [ BPF_STMT (Z.lor (Z.lor BPF_LD BPF_W) BPF_ABS) 4;
    BPF_JUMP (Z.lor (Z.lor BPF_JMP BPF_JEQ) BPF_K) AUDIT_ARCH_X86_64 1 0;
    BPF_STMT (Z.lor BPF_RET BPF_K) SECCOMP_RET_KILL;
    BPF_STMT (Z.lor (Z.lor BPF_LD BPF_W) BPF_ABS) 0;
    BPF_JUMP (Z.lor (Z.lor BPF_JMP BPF_JEQ) BPF_K) NR_read 0 1;
    BPF_STMT (Z.lor BPF_RET BPF_K) SECCOMP_RET_ALLOW;
    BPF_JUMP (Z.lor (Z.lor BPF_JMP BPF_JEQ) BPF_K) NR_write 0 1;
    BPF_STMT (Z.lor BPF_RET BPF_K) SECCOMP_RET_ALLOW;
    BPF_JUMP (Z.lor (Z.lor BPF_JMP BPF_JEQ) BPF_K) NR_exit 0 1;
    BPF_STMT (Z.lor BPF_RET BPF_K) SECCOMP_RET_ALLOW;
    BPF_JUMP (Z.lor (Z.lor BPF_JMP BPF_JEQ) BPF_K) NR_exit_group 0 1;
    BPF_STMT (Z.lor BPF_RET BPF_K) SECCOMP_RET_ALLOW;
    BPF_JUMP (Z.lor (Z.lor BPF_JMP BPF_JEQ) BPF_K) NR_brk 0 1;
    BPF_STMT (Z.lor BPF_RET BPF_K) SECCOMP_RET_ALLOW;
    BPF_JUMP (Z.lor (Z.lor BPF_JMP BPF_JEQ) BPF_K) NR_mmap 0 1;
    BPF_STMT (Z.lor BPF_RET BPF_K) SECCOMP_RET_ALLOW;
    BPF_JUMP (Z.lor (Z.lor BPF_JMP BPF_JEQ) BPF_K) NR_munmap 0 1;
    BPF_STMT (Z.lor BPF_RET BPF_K) SECCOMP_RET_ALLOW;
    BPF_STMT (Z.lor BPF_RET BPF_K) SECCOMP_RET_KILL ].

Section WithKernel.
Variable K : kernel.

Definition install_seccomp_filter (allowed_syscalls : list Z)
    (num_syscalls : Z) : proc Z :=
  let prog := filter in
  let* r := syscall_ K (SysPrctl PR_SET_NO_NEW_PRIVS 1 None) in
  if r <? 0 then log (Perror "prctl(PR_SET_NO_NEW_PRIVS)") ;; ret (-1) else
  let* r := syscall_ K (SysPrctl PR_SET_SECCOMP SECCOMP_MODE_FILTER (Some prog)) in
  if r <? 0 then log (Perror "prctl(PR_SET_SECCOMP)") ;; ret (-1) else
  ret 0.

Definition setup_namespaces : proc Z :=
  let* r := syscall_ K (SysUnshare
              (Z.lor (Z.lor (Z.lor (Z.lor (Z.lor CLONE_NEWNS CLONE_NEWPID)
                 CLONE_NEWNET) CLONE_NEWUTS) CLONE_NEWIPC) CLONE_NEWUSER)) in
  if r <? 0 then log (Perror "unshare") ;; ret (-1) else
  let* r := syscall_ K (SysMount (Some "proc") "/proc" (Some "proc")
                          (Z.lor (Z.lor MS_NOSUID MS_NOEXEC) MS_NODEV) None) in
  (if r <? 0 then log (Stderr "Warning: Could not remount /proc")
   else ret tt) ;;
  ret 0.

(** [for (int cap = 0; cap <= 37; cap++)]: a failing drop is skipped. *)
Fixpoint capbset_drop_loop (caps : list Z) : proc unit :=
  match caps with
  | [] => ret tt
  | cap :: rest =>
      let* r := syscall_ K (SysPrctl PR_CAPBSET_DROP cap None) in
      capbset_drop_loop rest
  end.

Definition drop_capabilities_manual : proc Z :=
  capbset_drop_loop (map Z.of_nat (seq 0 38)) ;;
  let* r := syscall_ K (SysPrctl PR_SET_NO_NEW_PRIVS 1 None) in
  if r <? 0 then log (Perror "prctl(PR_SET_NO_NEW_PRIVS)") ;; ret (-1) else
  ret 0.

Definition set_resource_limits : proc Z :=
  let limit := 512 * 1024 * 1024 in
  let* r := syscall_ K (SysSetrlimit RLIMIT_AS limit limit) in
  if r <? 0 then log (Perror "setrlimit(RLIMIT_AS)") ;; ret (-1) else
  let limit := 64 in
  let* r := syscall_ K (SysSetrlimit RLIMIT_NPROC limit limit) in
  if r <? 0 then log (Perror "setrlimit(RLIMIT_NPROC)") ;; ret (-1) else
  let limit := 256 in
  let* r := syscall_ K (SysSetrlimit RLIMIT_NOFILE limit limit) in
  if r <? 0 then log (Perror "setrlimit(RLIMIT_NOFILE)") ;; ret (-1) else
  ret 0.

(** The chroot block: [if (config->chroot_dir) { chroot; chdir }]. *)
Definition change_root (config : sandbox_config_t) : proc unit :=
  match chroot_dir config with
  | Some dir =>
      let* r := syscall_ K (SysChroot dir) in
      if r <? 0 then log (Perror "chroot") ;; _exit EXIT_FAILURE else
      let* r := syscall_ K (SysChdir "/") in
      if r <? 0 then log (Perror "chdir") ;; _exit EXIT_FAILURE else
      ret tt
  | None => ret tt
  end.

(** [if (config->gid > 0 && setgid(config->gid) < 0) ...] and the same for
    the uid: a zero id is left as it is. *)
Definition change_user_group (config : sandbox_config_t) : proc unit :=
  let* bad := (if gid config >? 0 then
                 let* r := syscall_ K (SysSetgid (gid config)) in ret (r <? 0)
               else ret false) in
  if bad then log (Perror "setgid") ;; _exit EXIT_FAILURE else
  let* bad := (if uid config >? 0 then
                 let* r := syscall_ K (SysSetuid (uid config)) in ret (r <? 0)
               else ret false) in
  if bad then log (Perror "setuid") ;; _exit EXIT_FAILURE else
  ret tt.

(** The child branch of [create_secure_sandbox]. *)
Definition sandbox_child (config : sandbox_config_t) (prog : string)
  : proc Z :=
  let* r := setup_namespaces in
  if r <? 0 then
    log (Stderr "Failed to setup namespaces") ;; _exit EXIT_FAILURE
  else
  change_root config ;;
  let* r := set_resource_limits in
  if r <? 0 then
    log (Stderr "Failed to set resource limits") ;; _exit EXIT_FAILURE
  else
  let* r := drop_capabilities_manual in
  if r <? 0 then
    log (Stderr "Failed to drop capabilities") ;; _exit EXIT_FAILURE
  else
  change_user_group config ;;
  let* r := install_seccomp_filter (allowed_syscalls config)
                                   (num_syscalls config) in
  if r <? 0 then
    log (Stderr "Failed to setup seccomp filter") ;; _exit EXIT_FAILURE
  else
  execve K prog (argv config) (envp config) ;;
  log (Perror "execve") ;;
  _exit EXIT_FAILURE.

(** [WEXITSTATUS(status)] *)
Definition WEXITSTATUS (status : Z) : Z := Z.land (Z.shiftr status 8) 0xff.

Definition create_secure_sandbox (config : option sandbox_config_t) : proc Z :=
  match config with
  | None => log (Stderr "Invalid sandbox configuration") ;; ret (-1)
  | Some cfg =>
      match program cfg with
      | None => log (Stderr "Invalid sandbox configuration") ;; ret (-1)
      | Some prog =>
          let* pid := syscall_ K SysFork in
          if pid <? 0 then log (Perror "fork") ;; ret (-1) else
          if pid =? 0 then sandbox_child cfg prog else
          let* w := waitpid K pid 0 in
          if fst w <? 0 then log (Perror "waitpid") ;; ret (-1) else
          ret (WEXITSTATUS (snd w))
      end
  end.

End WithKernel.
End SandboxPhase3.

(** ** app_sandbox.c *)

Module AppSandbox.

(** app_sandbox.h *)
Definition MAX_APP_NAME : Z := 64.
Definition MAX_POLICY_RULES : Z := 256.
Definition MAX_ALLOWED_FILES : Z := 128.
Definition MAX_ALLOWED_SYSCALLS : Z := 64.

Record app_sandbox_policy := mk_policy {
  app_name : string;
  sandbox_uid : Z;
  sandbox_gid : Z;
  allowed_capabilities : Z;
  allowed_files : list string;
  file_count : Z;
  allowed_syscalls : list Z;
  syscall_count : Z;
  memory_limit : Z;
  cpu_limit : Z;
  network_access : Z;
  filesystem_access : Z;
  x11_access : Z
}.

Record app_sandbox_context := mk_context {
  sandbox_pid : Z;
  policy : app_sandbox_policy;
  status : Z;
  start_time : Z
}.

Definition validate_app_policy (policy : option app_sandbox_policy) : Z :=
  match policy with
  | None => - EINVAL
  | Some policy =>
      if String.eqb (app_name policy) EmptyString then - EINVAL
      else if sandbox_uid policy =? 0 then - EPERM
      else if (memory_limit policy =? 0) || (cpu_limit policy =? 0) then - EINVAL
      else if file_count policy >? MAX_ALLOWED_FILES then - EINVAL
      else if syscall_count policy >? MAX_ALLOWED_SYSCALLS then - EINVAL
      else 0
  end.

Section WithKernel.
Variable K : kernel.

Definition audit_log_app_sandbox_event (event_ app_name : string) (result : Z)
  : proc unit :=
  log (AuditApp event_ app_name result).

(** The bind-mount loop of [setup_app_filesystem]: a failing mount is
    skipped. *)
Fixpoint mount_allowed_files (files : list string) : proc unit :=
  match files with
  | [] => ret tt
  | f :: rest =>
      let* r := syscall_ K (SysMount (Some f) f None
                                     (Z.lor MS_BIND MS_RDONLY) None) in
      mount_allowed_files rest
  end.

Definition setup_app_filesystem (policy : app_sandbox_policy) : proc Z :=
  let* r := syscall_ K (SysMount None "/" None (Z.lor MS_REC MS_PRIVATE) None) in
  if r <? 0 then let* e := get_errno in ret (- e) else
  let* r := syscall_ K (SysMount (Some "tmpfs") "/tmp" (Some "tmpfs")
                          (Z.lor (Z.lor MS_NODEV MS_NOSUID) MS_NOEXEC)
                          (Some "size=50M,mode=1777")) in
  if r <? 0 then let* e := get_errno in ret (- e) else
  mount_allowed_files
    (take (Z.to_nat (file_count policy)) (allowed_files policy)) ;;
  ret 0.

Definition apply_app_seccomp (policy : app_sandbox_policy) : proc Z :=
  let* r := syscall_ K (SysPrctl PR_SET_NO_NEW_PRIVS 1 None) in
  if r <? 0 then let* e := get_errno in ret (- e) else
  let* r := syscall_ K (SysPrctl PR_SET_SECCOMP SECCOMP_MODE_STRICT None) in
  if r <? 0 then let* e := get_errno in ret (- e) else
  ret 0.

Definition apply_app_resource_limits (policy : app_sandbox_policy) : proc Z :=
  let rlim := memory_limit policy in
  let* r := syscall_ K (SysSetrlimit RLIMIT_AS rlim rlim) in
  if r <? 0 then let* e := get_errno in ret (- e) else
  let rlim := cpu_limit policy in
  let* r := syscall_ K (SysSetrlimit RLIMIT_CPU rlim rlim) in
  if r <? 0 then let* e := get_errno in ret (- e) else
  let rlim := 64 in
  let* r := syscall_ K (SysSetrlimit RLIMIT_NOFILE rlim rlim) in
  if r <? 0 then let* e := get_errno in ret (- e) else
  let rlim := 1 in
  let* r := syscall_ K (SysSetrlimit RLIMIT_NPROC rlim rlim) in
  if r <? 0 then let* e := get_errno in ret (- e) else
  ret 0.

(** [setgid(gid) < 0 || setuid(uid) < 0], with the short circuit. *)
Definition change_user (policy : app_sandbox_policy) : proc bool :=
  let* r := syscall_ K (SysSetgid (sandbox_gid policy)) in
  if r <? 0 then ret true else
  let* r := syscall_ K (SysSetuid (sandbox_uid policy)) in
  ret (r <? 0).

(** The child branch of [create_app_sandbox]. *)
Definition sandbox_child (policy : app_sandbox_policy) (app_path : string)
    (argv : list string) : proc Z :=
  let ns_flags := Z.lor (Z.lor (Z.lor CLONE_NEWNS CLONE_NEWPID) CLONE_NEWUTS)
                        CLONE_NEWIPC in
  let ns_flags := if network_access policy =? 0
                  then Z.lor ns_flags CLONE_NEWNET else ns_flags in
  let* r := syscall_ K (SysUnshare ns_flags) in
  if r <? 0 then
    let* e := get_errno in
    audit_log_app_sandbox_event "namespace creation" (app_name policy) (- e) ;;
    _exit EXIT_FAILURE
  else
  let* r := setup_app_filesystem policy in
  if r <? 0 then
    audit_log_app_sandbox_event "filesystem setup" (app_name policy) r ;;
    _exit EXIT_FAILURE
  else
  let* r := apply_app_seccomp policy in
  if r <? 0 then
    audit_log_app_sandbox_event "seccomp setup" (app_name policy) r ;;
    _exit EXIT_FAILURE
  else
  let* r := Capability.secureos_cap_drop_all_except K
              (allowed_capabilities policy) in
  if r <? 0 then
    audit_log_app_sandbox_event "capability drop" (app_name policy) r ;;
    _exit EXIT_FAILURE
  else
  let* r := apply_app_resource_limits policy in
  if r <? 0 then
    audit_log_app_sandbox_event "resource limits" (app_name policy) r ;;
    _exit EXIT_FAILURE
  else
  let* bad := change_user policy in
  if bad then
    let* e := get_errno in
    audit_log_app_sandbox_event "user change" (app_name policy) (- e) ;;
    _exit EXIT_FAILURE
  else
  (* Verify we can't regain privileges *)
  let* r := syscall_ K (SysSetuid 0) in
  if r =? 0 then
    audit_log_app_sandbox_event "privilege check" (app_name policy) (- EPERM) ;;
    _exit EXIT_FAILURE
  else
  audit_log_app_sandbox_event "creation" (app_name policy) 0 ;;
  execv K app_path argv ;;
  _exit EXIT_FAILURE.

Definition create_app_sandbox (policy : app_sandbox_policy)
    (app_path : string) (argv : list string) : proc Z :=
  let r := validate_app_policy (Some policy) in
  if r <? 0 then
    audit_log_app_sandbox_event "validation" (app_name policy) r ;;
    ret r
  else
  let* pid := syscall_ K SysFork in
  if pid <? 0 then let* e := get_errno in ret (- e) else
  if pid =? 0 then sandbox_child policy app_path argv
  else ret pid.

(** [terminate_app_sandbox]: the result and the context as the call leaves
    it ([ctx->status = 0] on the successful path). *)
Definition terminate_app_sandbox (ctx : option app_sandbox_context)
  : proc (Z * option app_sandbox_context) :=
  match ctx with
  | None => ret (- EINVAL, ctx)
  | Some c =>
      let* r := syscall_ K (SysKill (sandbox_pid c) SIGTERM) in
      if r <? 0 then let* e := get_errno in ret (- e, ctx) else
      syscall_ K (SysSleep 5) ;;
      let* w := waitpid K (sandbox_pid c) WNOHANG in
      (if fst w =? 0 then
         syscall_ K (SysKill (sandbox_pid c) SIGKILL) ;;
         waitpid K (sandbox_pid c) 0 ;;
         ret tt
       else ret tt) ;;
      audit_log_app_sandbox_event "termination" (app_name (policy c)) 0 ;;
      ret (0, Some (mk_context (sandbox_pid c) (policy c) 0 (start_time c)))
  end.

(** One line of /proc/<pid>/status as the loop of [monitor_app_sandbox]
    sees it: whether [strncmp(line, "VmRSS:", 6) == 0], and the number
    [sscanf(line, "VmRSS: %lu kB", &memory_usage)] converted, if it
    returned 1. *)
Record status_line := mk_status_line {
  is_vmrss : bool;
  scanned_kb : option Z
}.

(** The [while (fgets(...))] loop: [true] when a line made the function
    leave with -ENOMEM. [memory_usage * 1024] is an [unsigned long]
    product. *)
Fixpoint over_limit (lines : list status_line) (memory_limit : Z) : bool :=
  match lines with
  | [] => false
  | l :: rest =>
      if is_vmrss l then
        match scanned_kb l with
        | Some memory_usage =>
            if (memory_usage * 1024) mod 2 ^ 64 >? memory_limit then true
            else over_limit rest memory_limit
        | None => over_limit rest memory_limit
        end
      else over_limit rest memory_limit
  end.

(** [fopen] failed and left [e] in [errno]. *)
Definition fopen_failed (e : positive) : proc unit :=
  fun s => (Ret tt, mk_pstate (trace s) (Z.pos e) (audit s)).

(** [monitor_app_sandbox]: [status_file] is the [errno] of a failed
    [fopen] of /proc/<pid>/status, or its lines. The result comes with
    the context as the call leaves it. *)
Definition monitor_app_sandbox (status_file : positive + list status_line)
    (ctx : option app_sandbox_context)
  : proc (Z * option app_sandbox_context) :=
  match ctx with
  | None => ret (- EINVAL, ctx)
  | Some c =>
      let* r := syscall_ K (SysKill (sandbox_pid c) 0) in
      if r <? 0 then
        let* e := get_errno in
        if e =? ESRCH then
          ret (0, Some (mk_context (sandbox_pid c) (policy c) 0 (start_time c)))
        else ret (- e, ctx)
      else
        match status_file with
        | inl e =>
            fopen_failed e ;;
            let* e := get_errno in ret (- e, ctx)
        | inr lines =>
            if over_limit lines (memory_limit (policy c)) then
              audit_log_app_sandbox_event "memory limit exceeded"
                (app_name (policy c)) (- ENOMEM) ;;
              ret (- ENOMEM, ctx)
            else ret (1, ctx)
        end
  end.

End WithKernel.
End AppSandbox.

(** ** security_monitor.c *)

Module Monitor.

(** security_monitor.h *)
Definition MAX_EVENTS : Z := 10000.
Definition MAX_RULES : Z := 1000.

(** [enum security_event_type]; a rule's type is cast from a parsed [int],
    so the type is kept as the underlying integer. *)
Definition EVENT_PROCESS_START : Z := 1.
Definition EVENT_PROCESS_EXIT : Z := 2.
Definition EVENT_FILE_ACCESS : Z := 3.
Definition EVENT_NETWORK_CONNECTION : Z := 4.
Definition EVENT_PRIVILEGE_ESCALATION : Z := 5.
Definition EVENT_POLICY_VIOLATION : Z := 6.
Definition EVENT_ANOMALY_DETECTED : Z := 7.

Record security_event := mk_event {
  type : Z;
  timestamp : Z;
  pid : Z;
  uid : Z;
  gid : Z;
  process_name : string;
  details : string;
  severity : Z
}.

Record security_rule := mk_rule {
  rule_id : Z;
  event_type : Z;
  pattern : string;
  action : Z;   (* 0=log, 1=alert, 2=block *)
  enabled : Z
}.

(** syslog priorities and the lines the monitor writes. *)
Definition LOG_ALERT : Z := 1.
Definition LOG_CRIT : Z := 2.
Definition LOG_WARNING : Z := 4.
Definition LOG_NOTICE : Z := 5.
Definition LOG_INFO : Z := 6.

Inductive syslog_line :=
| LogInitialized
| LogRulesLoaded (count : Z)
| LogHighSeverity (details : string) (pid uid : Z)
| LogRuleTriggered (rule_id : Z) (details : string)
| LogSecurityAlert (rule_id : Z) (details : string)
| LogSecurityBlock (rule_id : Z) (details : string)
| LogPrivilegeEscalation (pid uid : Z)
| LogPolicyViolation (details : string)
| LogAnomaly (details : string).

(** The file-scope variables of security_monitor.c. [events] and [rules]
    are the two static arrays, of [MAX_EVENTS] and [MAX_RULES] elements. *)
Record monitor_state := mk_monitor {
  events : list security_event;
  rules : list security_rule;
  event_count : Z;
  rule_count : Z;
  monitor_initialized : Z;
  syslog : list (Z * syslog_line)
}.

Definition zero_event : security_event :=
  mk_event 0 0 0 0 0 EmptyString EmptyString 0.
Definition zero_rule : security_rule := mk_rule 0 0 EmptyString 0 0.

(** The state at program start: static storage is zeroed. *)
Definition initial_monitor : monitor_state :=
  mk_monitor (replicate (Z.to_nat MAX_EVENTS) zero_event)
             (replicate (Z.to_nat MAX_RULES) zero_rule)
             0 0 0 [].

Definition write_syslog (prio : Z) (l : syslog_line) (s : monitor_state)
  : monitor_state :=
  mk_monitor (events s) (rules s) (event_count s) (rule_count s)
             (monitor_initialized s) (syslog s ++ [(prio, l)]).

Definition init_security_monitor (s : monitor_state) : Z * monitor_state :=
  if negb (monitor_initialized s =? 0) then (0, s)
  else
    let s := mk_monitor (replicate (Z.to_nat MAX_EVENTS) zero_event)
                        (replicate (Z.to_nat MAX_RULES) zero_rule)
                        0 0 1 (syslog s) in
    (0, write_syslog LOG_INFO LogInitialized s).

(** [event->timestamp = time(NULL)] when the caller left it 0. *)
Definition stamp (now : Z) (e : security_event) : security_event :=
  if timestamp e =? 0 then
    mk_event (type e) now (pid e) (uid e) (gid e) (process_name e)
             (details e) (severity e)
  else e.

(** [add_security_event]: [event] is a pointer and may be null; [now] is
    what [time(NULL)] returns. The third component is the caller's event
    after the call (its timestamp may have been filled in). *)
Definition add_security_event (now : Z) (event : option security_event)
    (s : monitor_state) : Z * monitor_state * option security_event :=
  if monitor_initialized s =? 0 then (- EINVAL, s, event)
  else
    match event with
    | None => (- EINVAL, s, event)
    | Some ev =>
        if event_count s >=? MAX_EVENTS then (- EINVAL, s, event)
        else
          let ev := stamp now ev in
          let s := mk_monitor (<[Z.to_nat (event_count s) := ev]> (events s))
                              (rules s) (event_count s + 1) (rule_count s)
                              (monitor_initialized s) (syslog s) in
          let s := if severity ev >=? 8
                   then write_syslog LOG_ALERT
                          (LogHighSeverity (details ev) (pid ev) (uid ev)) s
                   else s in
          (0, s, Some ev)
    end.

(** One line of the rules file as [sscanf(line, "%d %d %255s %d %d", ...)]
    sees it: how many of the five fields were converted, and their
    values. The fields converted are stored in [rules[rule_count]] even
    when the line is then not counted. *)
Record scanned_line := mk_scan {
  converted : Z;
  scan_rule_id : Z;
  scan_event_type : Z;
  scan_pattern : string;
  scan_action : Z;
  scan_enabled : Z
}.

Definition store_scan (old : security_rule) (l : scanned_line)
  : security_rule :=
  mk_rule (if 1 <=? converted l then scan_rule_id l else rule_id old)
          (if converted l =? 5 then scan_event_type l else event_type old)
          (if 3 <=? converted l then scan_pattern l else pattern old)
          (if 4 <=? converted l then scan_action l else action old)
          (if 5 <=? converted l then scan_enabled l else enabled old).

(** The [while (fgets(...) && rule_count < MAX_RULES)] loop. *)
Fixpoint load_loop (lines : list scanned_line) (rules : list security_rule)
    (rule_count : Z) : list security_rule * Z :=
  match lines with
  | [] => (rules, rule_count)
  | l :: rest =>
      if rule_count <? MAX_RULES then
        let slot := Z.to_nat rule_count in
        let rule := store_scan (default zero_rule (rules !! slot)) l in
        let rules := <[slot := rule]> rules in
        if converted l =? 5 then load_loop rest rules (rule_count + 1)
        else load_loop rest rules rule_count
      else (rules, rule_count)
  end.

(** [load_security_rules]: [file] is the [errno] of a failed [fopen], or
    the lines of the file. *)
Definition load_security_rules (file : positive + list scanned_line)
    (s : monitor_state) : Z * monitor_state :=
  if monitor_initialized s =? 0 then (- EINVAL, s)
  else
    match file with
    | inl e => (- Z.pos e, s)
    | inr lines =>
        let '(rules, rule_count) := load_loop lines (rules s) (rule_count s) in
        (rule_count,
         mk_monitor (events s) rules (event_count s) rule_count
                    (monitor_initialized s)
                    (syslog s ++ [(LOG_INFO, LogRulesLoaded rule_count)]))
    end.

(** [strstr(text, pattern)]: the offset of the first occurrence of
    [pattern] in [text], [None] for a null result. *)
Fixpoint strstr (text pattern : string) : option nat :=
  if String.prefix pattern text then Some 0%nat
  else match text with
       | EmptyString => None
       | String _ rest => option_map S (strstr rest pattern)
       end.

Definition match_rule_pattern (pattern text : string) : Z :=
  match strstr text pattern with
  | Some _ => 1
  | None => 0
  end.

(** [processed++] on a C [int]. *)
Definition int_incr (x : Z) : Z :=
  let y := x + 1 in
  if y <? 2 ^ 31 then y else y - 2 ^ 32.

(** The body of the inner loop for one rule and one event: the running
    count and the log. *)
Definition apply_rule (event : security_event)
    (acc : Z * list (Z * syslog_line)) (rule : security_rule)
  : Z * list (Z * syslog_line) :=
  let '(processed, out) := acc in
  if (enabled rule =? 0) || negb (event_type rule =? type event) then acc
  else if negb (match_rule_pattern (pattern rule) (details event) =? 0) then
    let out :=
      if action rule =? 0 then
        out ++ [(LOG_WARNING, LogRuleTriggered (rule_id rule) (details event))]
      else if action rule =? 1 then
        out ++ [(LOG_ALERT, LogSecurityAlert (rule_id rule) (details event))]
      else if action rule =? 2 then
        out ++ [(LOG_CRIT, LogSecurityBlock (rule_id rule) (details event))]
      else out in
    (int_incr processed, out)
  else acc.

(** The outer loop body: all rules against one event. *)
Definition apply_rules (rs : list security_rule)
    (acc : Z * list (Z * syslog_line)) (event : security_event)
  : Z * list (Z * syslog_line) :=
  fold_left (apply_rule event) rs acc.

Definition process_security_events (s : monitor_state) : Z * monitor_state :=
  if monitor_initialized s =? 0 then (- EINVAL, s)
  else
    let evs := take (Z.to_nat (event_count s)) (events s) in
    let rs := take (Z.to_nat (rule_count s)) (rules s) in
    let '(processed, out) := fold_left (apply_rules rs) evs (0, syslog s) in
    (processed,
     mk_monitor (events s) (rules s) (event_count s) (rule_count s)
                (monitor_initialized s) out).

(** The loop body of [check_security_violations] for one event. *)
Definition check_event (acc : Z * list (Z * syslog_line))
    (event : security_event) : Z * list (Z * syslog_line) :=
  let acc :=
    if type event =? EVENT_PRIVILEGE_ESCALATION then
      (int_incr (fst acc),
       snd acc ++ [(LOG_ALERT, LogPrivilegeEscalation (pid event) (uid event))])
    else acc in
  let acc :=
    if type event =? EVENT_POLICY_VIOLATION then
      (int_incr (fst acc),
       snd acc ++ [(LOG_WARNING, LogPolicyViolation (details event))])
    else acc in
  let acc :=
    if type event =? EVENT_ANOMALY_DETECTED then
      (int_incr (fst acc),
       snd acc ++ [(LOG_NOTICE, LogAnomaly (details event))])
    else acc in
  acc.

Definition check_security_violations (s : monitor_state) : Z * monitor_state :=
  if monitor_initialized s =? 0 then (- EINVAL, s)
  else
    let evs := take (Z.to_nat (event_count s)) (events s) in
    let '(violations, out) := fold_left check_event evs (0, syslog s) in
    (violations,
     mk_monitor (events s) (rules s) (event_count s) (rule_count s)
                (monitor_initialized s) out).

End Monitor.

(** * Specification vocabulary *)

(** ** Traces *)

Definition ok (ev : event) : Prop := exists v, snd ev = SysOk v.

Definition ends_with_error (tr : list event) : Prop :=
  exists pre sc e, tr = pre ++ [(sc, SysErr e)].

(** A fail-fast sequence of system calls: issue them in order, stop at the
    first one that fails and return [-errno]; return 0 when all went
    through. Several stages of the sandboxes have exactly this shape. *)
Fixpoint run_calls (K : kernel) (cs : list syscall) : proc Z :=
  match cs with
  | [] => ret 0
  | c :: rest =>
      let* r := syscall_ K c in
      if r <? 0 then let* e := get_errno in ret (- e)
      else run_calls K rest
  end.

(** ** Stages of the isolation builder *)

Inductive stage :=
| StNamespaces | StMounts | StSeccomp | StCapabilities | StLimits
| StPrivilege | StExec.

#[global] Instance stage_eq_dec : EqDecision stage.
Proof. solve_decision. Defined.

(** The stage a system call belongs to. Setting [PR_SET_NO_NEW_PRIVS] and
    the identity queries belong to no stage of their own. *)
Definition stage_of (sc : syscall) : option stage :=
  match sc with
  | SysUnshare _ => Some StNamespaces
  | SysMount _ _ _ _ _ | SysChroot _ | SysChdir _ => Some StMounts
  | SysPrctl o _ _ =>
      if o =? PR_SET_SECCOMP then Some StSeccomp
      else if o =? PR_CAPBSET_DROP then Some StCapabilities
      else None
  | SysCapget | SysCapset _ => Some StCapabilities
  | SysSetrlimit _ _ _ => Some StLimits
  | SysSetgid _ | SysSetuid _ => Some StPrivilege
  | SysExecve _ _ _ => Some StExec
  | SysGetuid | SysGetpid | SysFork | SysKill _ _ | SysWaitpid _ _
  | SysSleep _ => None
  end.

(** The order the specification gives: namespaces, mounts, seccomp,
    capabilities, resource limits, privilege drop, exec. *)
Definition rank_spec (st : stage) : nat :=
  match st with
  | StNamespaces => 0 | StMounts => 1 | StSeccomp => 2 | StCapabilities => 3
  | StLimits => 4 | StPrivilege => 5 | StExec => 6
  end.

(** The order of the phase 3 sandbox: namespaces, root change, resource
    limits, capabilities, uid/gid, seccomp, exec. *)
Definition rank_phase3 (st : stage) : nat :=
  match st with
  | StNamespaces => 0 | StMounts => 1 | StLimits => 2 | StCapabilities => 3
  | StPrivilege => 4 | StSeccomp => 5 | StExec => 6
  end.

Definition ranks (rank : stage -> nat) (tr : list event) : list nat :=
  map rank (omap (fun ev => stage_of (fst ev)) tr).

Fixpoint nondecreasing (l : list nat) : bool :=
  match l with
  | a :: rest =>
      match rest with
      | b :: _ => (a <=? b)%nat && nondecreasing rest
      | [] => true
      end
  | [] => true
  end.

(** The stages of a trace occur in the order [rank] gives. *)
Definition in_order (rank : stage -> nat) (tr : list event) : bool :=
  nondecreasing (ranks rank tr).

(** The builder as the specification words it: run the stages in order,
    move on only when the stage succeeded; a failing stage is reported and
    the process exits at once with a non-zero status; after the last stage
    the program is executed. *)
Fixpoint run_stages (act : stage -> proc Z) (order : list stage)
  : proc (option (stage * Z)) :=
  match order with
  | [] => ret None
  | st :: rest =>
      let* r := act st in
      if r <? 0 then ret (Some (st, r)) else run_stages act rest
  end.

Definition builder (act : stage -> proc Z) (order : list stage)
    (report : stage -> Z -> proc unit) (ready : proc Z) : proc Z :=
  let* res := run_stages act order in
  match res with
  | Some (st, r) => report st r ;; _exit EXIT_FAILURE
  | None => ready
  end.

Definition spec_order : list stage :=
  [StNamespaces; StMounts; StSeccomp; StCapabilities; StLimits; StPrivilege].

(** The stage actions, the failure report and the hand-over of
    secure_sandbox_fixed.c. *)
Definition fixed_action (K : kernel) (cfg : SandboxFixed.sandbox_config)
    (st : stage) : proc Z :=
  match st with
  | StNamespaces => syscall_ K (SysUnshare SandboxFixed.unshare_flags)
  | StMounts => SandboxFixed.setup_sandbox_mounts K cfg
  | StSeccomp =>
      SandboxFixed.apply_seccomp_filter K (SandboxFixed.allowed_syscalls cfg)
  | StCapabilities =>
      SandboxFixed.drop_all_capabilities_except K
        (SandboxFixed.required_caps cfg)
  | StLimits => SandboxFixed.apply_resource_limits K (SandboxFixed.limits cfg)
  | StPrivilege =>
      SandboxFixed.change_to_sandbox_user K (SandboxFixed.uid cfg)
        (SandboxFixed.gid cfg)
  | StExec => ret 0
  end.

Definition fixed_report (st : stage) (r : Z) : proc unit :=
  match st with
  | StNamespaces =>
      let* e := get_errno in
      SandboxFixed.audit_log_sandbox_failure "namespace creation" e
  | StMounts => SandboxFixed.audit_log_sandbox_failure "mount setup" r
  | StSeccomp => SandboxFixed.audit_log_sandbox_failure "seccomp setup" r
  | StCapabilities =>
      SandboxFixed.audit_log_sandbox_failure "capability drop" r
  | StLimits => SandboxFixed.audit_log_sandbox_failure "resource limits" r
  | StPrivilege => SandboxFixed.audit_log_sandbox_failure "user change" r
  | StExec => ret tt
  end.

Definition fixed_ready (K : kernel) (cfg : SandboxFixed.sandbox_config)
  : proc Z :=
  let* me := syscall_ K SysGetpid in
  SandboxFixed.audit_log_sandbox_success me ;;
  execve K (SandboxFixed.program cfg) (SandboxFixed.argv cfg)
         (SandboxFixed.envp cfg) ;;
  _exit EXIT_FAILURE.

(** ** Capability sets *)

(** The 64-bit capability set two [__u32] words stand for. *)
Definition cap_set64 (lo hi : Z) : Z := Z.lor lo (Z.shiftl hi 32).

Definition effective_set (c : cap_array) : Z :=
  cap_set64 (effective (caps0 c)) (effective (caps1 c)).
Definition permitted_set (c : cap_array) : Z :=
  cap_set64 (permitted (caps0 c)) (permitted (caps1 c)).
Definition inheritable_set (c : cap_array) : Z :=
  cap_set64 (inheritable (caps0 c)) (inheritable (caps1 c)).

(** ** Seccomp installation *)

Definition nnp_call : syscall := SysPrctl PR_SET_NO_NEW_PRIVS 1 None.

(** [f] sets no-new-privileges first and, only when that succeeded,
    installs seccomp in [mode] with [prog] as the very next call; it
    returns 0 exactly when both calls succeeded and a negative value
    otherwise. *)
Definition installs_after_nnp (f : proc Z) (mode : Z)
    (prog : option (list sock_filter)) : Prop :=
  forall s, exists r s',
    f s = (Ret r, s') /\
    ((exists e, trace s' = trace s ++ [(nnp_call, SysErr e)] /\ r < 0) \/
     (exists v r2,
         trace s' = trace s ++ [(nnp_call, SysOk v);
                                (SysPrctl PR_SET_SECCOMP mode prog, r2)] /\
         match r2 with SysOk _ => r = 0 | SysErr _ => r < 0 end)).

(** ** Resource limits *)

(** The calls the specification asks of the resource-limit stage: one
    [setrlimit] per non-zero field, soft and hard limit both the field. *)
Definition limit_call (res : rlimit_resource) (field : Z) : list syscall :=
  if field =? 0 then [] else [SysSetrlimit res field field].

Definition spec_limit_calls (l : SandboxFixed.sandbox_limits) : list syscall :=
  limit_call RLIMIT_AS (SandboxFixed.max_memory l) ++
  limit_call RLIMIT_CPU (SandboxFixed.max_cpu_time l) ++
  limit_call RLIMIT_FSIZE (SandboxFixed.max_file_size l) ++
  limit_call RLIMIT_NPROC (SandboxFixed.max_processes l) ++
  limit_call RLIMIT_NOFILE (SandboxFixed.max_open_files l).

(** The limit fields are unsigned. *)
Definition limits_wf (l : SandboxFixed.sandbox_limits) : Prop :=
  0 <= SandboxFixed.max_memory l /\ 0 <= SandboxFixed.max_cpu_time l /\
  0 <= SandboxFixed.max_file_size l /\ 0 <= SandboxFixed.max_processes l /\
  0 <= SandboxFixed.max_open_files l.

(** What app_sandbox.c asks for: two limits from the policy, two fixed. *)
Definition app_limit_calls (p : AppSandbox.app_sandbox_policy) : list syscall :=
  [ SysSetrlimit RLIMIT_AS (AppSandbox.memory_limit p) (AppSandbox.memory_limit p);
    SysSetrlimit RLIMIT_CPU (AppSandbox.cpu_limit p) (AppSandbox.cpu_limit p);
    SysSetrlimit RLIMIT_NOFILE 64 64;
    SysSetrlimit RLIMIT_NPROC 1 1 ].

(** ** Concrete kernels and inputs *)

Definition answers (f : list event -> syscall -> sysret) : kernel :=
  mk_kernel f (fun _ => Capability.zero_caps) (fun _ => 0).

(** The view of a freshly forked child ([fork] answers 0) for which every
    call succeeds, except that uid 0 cannot be taken back. *)
Definition child_answer (sc : syscall) : sysret :=
  match sc with
  | SysSetuid 0 => SysErr 1
  | _ => SysOk 0
  end.

Definition child_kernel : kernel := answers (fun _ => child_answer).

(** A kernel that grants everything, even taking uid 0 back. *)
Definition permissive_kernel : kernel := answers (fun _ _ => SysOk 0).

(** As [child_kernel], but the calls selected by [bad] fail with EPERM. *)
Definition failing_kernel (bad : syscall -> bool) : kernel :=
  answers (fun _ sc => if bad sc then SysErr 1 else child_answer sc).

Definition is_mount (sc : syscall) : bool :=
  match sc with SysMount _ _ _ _ _ => true | _ => false end.

(** A caller with uid 1000 whose [fork] gives child 4242. *)
Definition parent_kernel : kernel :=
  answers (fun _ sc =>
             match sc with
             | SysGetuid => SysOk 1000
             | SysFork => SysOk 4242
             | _ => SysOk 0
             end).

Definition no_limits : SandboxFixed.sandbox_limits :=
  SandboxFixed.mk_limits 0 0 0 0 0.

Definition demo_config : SandboxFixed.sandbox_config :=
  SandboxFixed.mk_config "/bin/true" ["/bin/true"] [] 1000 1000 [] 0
                         no_limits [] 0 0 0.

(** The same program, asked to run as uid 0. *)
Definition root_config : SandboxFixed.sandbox_config :=
  SandboxFixed.mk_config "/bin/true" ["/bin/true"] [] 0 0 [] 0
                         no_limits [] 0 0 0.

Definition demo_config3 : SandboxPhase3.sandbox_config_t :=
  SandboxPhase3.mk_config (Some "/bin/true") ["/bin/true"] [] 1000 1000
                          None [] 0.

Definition demo_policy : AppSandbox.app_sandbox_policy :=
  AppSandbox.mk_policy "demo" 1000 1000 0 [] 0 [] 0 67108864 10 0 0 0.

Definition demo_context : AppSandbox.app_sandbox_context :=
  AppSandbox.mk_context 4242 demo_policy 1 0.

(** A kernel for which process [pid] has already exited: it can still be
    signalled and waited for until a [waitpid] has reaped it; after that
    [kill] fails with ESRCH and [waitpid] with ECHILD. *)
Definition reaped (pid : Z) (hist : list event) : bool :=
  existsb (fun ev => match ev with
                     | (SysWaitpid q _, SysOk v) => (q =? pid) && (Z.of_N v =? pid)
                     | _ => false
                     end) hist.

Definition exited_kernel : kernel :=
  answers (fun hist sc =>
             match sc with
             | SysKill p _ => if reaped p hist then SysErr 3 else SysOk 0
             | SysWaitpid p _ =>
                 if reaped p hist then SysErr 10 else SysOk (Z.to_N p)
             | _ => SysOk 0
             end).

(** ** Contracts of stages and pipelines *)

(** [f] behaves as a fail-fast run of the calls [cs]: it returns 0 after
    issuing all of them successfully, or [-errno] of the first call that
    failed, after which nothing more is issued. *)
Definition runs_fail_fast (f : proc Z) (cs : list syscall) : Prop :=
  forall s, exists r s' tr,
    f s = (Ret r, s') /\ trace s' = trace s ++ tr /\
    ((r = 0 /\ map fst tr = cs /\ Forall ok tr) \/
     (exists pre sc e rest,
         tr = pre ++ [(sc, SysErr e)] /\ Forall ok pre /\
         cs = map fst pre ++ sc :: rest /\ r = - Z.pos e)).

(** The stages in [tr] are in order and at most [n]. *)
Definition upto (rank : stage -> nat) (n : nat) (tr : list event) : Prop :=
  nondecreasing (ranks rank tr) = true /\
  Forall (fun k => (k <= n)%nat) (ranks rank tr).

(** The stages in [tr] are in order and between [lo] and [hi]. *)
Definition block (rank : stage -> nat) (lo hi : nat) (tr : list event)
  : Prop :=
  nondecreasing (ranks rank tr) = true /\
  Forall (fun k => (lo <= k <= hi)%nat) (ranks rank tr).

(** A stage function: it always returns to the pipeline, its calls lie in
    stages [lo..hi], and a negative result means that its last call
    failed. *)
Definition stage_contract (rank : stage -> nat) (lo hi : nat) (f : proc Z)
  : Prop :=
  forall s, exists r s' tr,
    f s = (Ret r, s') /\ trace s' = trace s ++ tr /\
    block rank lo hi tr /\ (r < 0 -> ends_with_error tr).

(** A stage written inline: it either falls through or exits with
    [EXIT_FAILURE] right after a failed call. *)
Definition inline_contract (rank : stage -> nat) (lo hi : nat)
    (f : proc unit) : Prop :=
  forall s, exists o s' tr,
    f s = (o, s') /\ trace s' = trace s ++ tr /\ block rank lo hi tr /\
    (o = Ret tt \/ (o = Exited EXIT_FAILURE /\ ends_with_error tr)).

(** What a child pipeline started in [s0] has to establish: its calls
    extend the trace in stage order, and outcome, calls and final state
    are related by [C]. *)
Definition child_post (rank : stage -> nat)
    (C : outcome Z -> list event -> pstate -> Prop) (s0 : pstate)
    (res : outcome Z * pstate) : Prop :=
  exists tr, trace (snd res) = trace s0 ++ tr /\
             in_order rank tr = true /\ C (fst res) tr (snd res).

(** The three ways the child of secure_sandbox_fixed.c ends: a failed
    call, a successful attempt to take uid 0 back, or the exec. *)
Definition fixed_cases (cfg : SandboxFixed.sandbox_config)
    (o : outcome Z) (tr : list event) (st : pstate) : Prop :=
  (o = Exited EXIT_FAILURE /\ ends_with_error tr) \/
  (o = Exited EXIT_FAILURE /\
   (exists pre g u,
       tr = pre ++ [(SysSetgid (SandboxFixed.gid cfg), SysOk g);
                    (SysSetuid (SandboxFixed.uid cfg), SysOk u);
                    (SysSetuid 0, SysOk 0)]) /\
   exists a, audit st = a ++ [AuditSandboxFailure "user change" (- EPERM)]) \/
  (o = Execed (SandboxFixed.program cfg) (SandboxFixed.argv cfg)
              (Some (SandboxFixed.envp cfg)) /\
   exists pre g u z p x,
     tr = pre ++ [(SysSetgid (SandboxFixed.gid cfg), SysOk g);
                  (SysSetuid (SandboxFixed.uid cfg), SysOk u);
                  (SysSetuid 0, z);
                  (SysGetpid, p);
                  (SysExecve (SandboxFixed.program cfg) (SandboxFixed.argv cfg)
                             (Some (SandboxFixed.envp cfg)), SysOk x)] /\
     rv z <> 0).

(** The child of the phase 3 sandbox ends in a failure exit or the exec. *)
Definition phase3_cases (cfg : SandboxPhase3.sandbox_config_t) (prog : string)
    (o : outcome Z) (tr : list event) (st : pstate) : Prop :=
  (o = Exited EXIT_FAILURE /\ ends_with_error tr) \/
  o = Execed prog (SandboxPhase3.argv cfg) (Some (SandboxPhase3.envp cfg)).

(** The calls of [apply_resource_limits], as its [> 0] tests select them. *)
Definition limit_call_pos (res : rlimit_resource) (field : Z) : list syscall :=
  if field >? 0 then [SysSetrlimit res field field] else [].

Definition code_limit_calls (l : SandboxFixed.sandbox_limits) : list syscall :=
  limit_call_pos RLIMIT_AS (SandboxFixed.max_memory l) ++
  limit_call_pos RLIMIT_CPU (SandboxFixed.max_cpu_time l) ++
  limit_call_pos RLIMIT_FSIZE (SandboxFixed.max_file_size l) ++
  limit_call_pos RLIMIT_NPROC (SandboxFixed.max_processes l) ++
  limit_call_pos RLIMIT_NOFILE (SandboxFixed.max_open_files l).

(** The policy field behind each resource. *)
Definition limit_field (l : SandboxFixed.sandbox_limits)
    (res : rlimit_resource) : Z :=
  match res with
  | RLIMIT_AS => SandboxFixed.max_memory l
  | RLIMIT_CPU => SandboxFixed.max_cpu_time l
  | RLIMIT_FSIZE => SandboxFixed.max_file_size l
  | RLIMIT_NPROC => SandboxFixed.max_processes l
  | RLIMIT_NOFILE => SandboxFixed.max_open_files l
  end.

(** The five limits as an application policy declares them: it has a
    memory and a CPU field and no field for the other three. *)
Definition app_limits_view (p : AppSandbox.app_sandbox_policy)
  : SandboxFixed.sandbox_limits :=
  SandboxFixed.mk_limits (AppSandbox.memory_limit p) (AppSandbox.cpu_limit p)
                         0 0 0.

Definition zero_policy : AppSandbox.app_sandbox_policy :=
  AppSandbox.mk_policy "demo" 1000 1000 0 [] 0 [] 0 0 0 0 0 0.

(** The calls of the mount stage of secure_sandbox_fixed.c. *)
Definition custom_mount_call (m : SandboxFixed.sandbox_mount) : syscall :=
  SysMount (Some (SandboxFixed.source m)) (SandboxFixed.target m)
           (Some (SandboxFixed.fstype m))
           (if negb (SandboxFixed.readonly m =? 0)
            then Z.lor (SandboxFixed.flags m) MS_RDONLY
            else SandboxFixed.flags m)
           None.

Definition mount_calls (cfg : SandboxFixed.sandbox_config) : list syscall :=
  SysMount None "/" None (Z.lor MS_REC MS_PRIVATE) None ::
  SysMount (Some "tmpfs") "/tmp" (Some "tmpfs")
           (Z.lor (Z.lor MS_NODEV MS_NOSUID) MS_NOEXEC)
           (Some "size=100M,mode=1777") ::
  map custom_mount_call
      (take (Z.to_nat (SandboxFixed.mount_count cfg)) (SandboxFixed.mounts cfg)).

(** ** The security monitor *)

(** The events in the buffer, oldest first, and the rules in force. *)
Definition buffered_events (s : Monitor.monitor_state)
  : list Monitor.security_event :=
  take (Z.to_nat (Monitor.event_count s)) (Monitor.events s).

Definition loaded_rules (s : Monitor.monitor_state)
  : list Monitor.security_rule :=
  take (Z.to_nat (Monitor.rule_count s)) (Monitor.rules s).

(** [p] occurs in [t] as a substring. *)
Definition occurs_in (p t : string) : Prop :=
  exists a b, t = String.append a (String.append p b).

(** An enabled rule of the event's type whose pattern [strstr] finds in
    the event's detail text. *)
Definition triggers (e : Monitor.security_event) (r : Monitor.security_rule)
  : bool :=
  negb (Monitor.enabled r =? 0) &&
  (Monitor.event_type r =? Monitor.type e) &&
  negb (Monitor.match_rule_pattern (Monitor.pattern r) (Monitor.details e) =? 0).

(** All (event, rule) matches: events in arrival order, and for each
    event the rules in their order. *)
Definition matches_of (evs : list Monitor.security_event)
    (rs : list Monitor.security_rule)
  : list (Monitor.security_event * Monitor.security_rule) :=
  List.filter (fun m => triggers (fst m) (snd m)) (list_prod evs rs).

(** The line a match writes, by the rule's action; other actions write
    nothing. *)
Definition match_log (m : Monitor.security_event * Monitor.security_rule)
  : list (Z * Monitor.syslog_line) :=
  let '(e, r) := m in
  if Monitor.action r =? 0 then
    [(Monitor.LOG_WARNING,
      Monitor.LogRuleTriggered (Monitor.rule_id r) (Monitor.details e))]
  else if Monitor.action r =? 1 then
    [(Monitor.LOG_ALERT,
      Monitor.LogSecurityAlert (Monitor.rule_id r) (Monitor.details e))]
  else if Monitor.action r =? 2 then
    [(Monitor.LOG_CRIT,
      Monitor.LogSecurityBlock (Monitor.rule_id r) (Monitor.details e))]
  else [].

(** The operations of the monitor that touch its state. *)
Inductive monitor_op :=
| OpInit
| OpAdd (now : Z) (event : option Monitor.security_event)
| OpLoad (file : positive + list Monitor.scanned_line)
| OpProcess
| OpCheck.

Definition run_op (s : Monitor.monitor_state) (op : monitor_op)
  : Monitor.monitor_state :=
  match op with
  | OpInit => snd (Monitor.init_security_monitor s)
  | OpAdd now event => snd (fst (Monitor.add_security_event now event s))
  | OpLoad file => snd (Monitor.load_security_rules file s)
  | OpProcess => snd (Monitor.process_security_events s)
  | OpCheck => snd (Monitor.check_security_violations s)
  end.

(** The state after a sequence of operations from program start. *)
Definition run_ops (ops : list monitor_op) : Monitor.monitor_state :=
  fold_left run_op ops Monitor.initial_monitor.

(** What holds of every state the monitor can be in: the count is within
    the array, the array has its declared size, and nothing is stored
    before initialisation. *)
Definition monitor_inv (s : Monitor.monitor_state) : Prop :=
  0 <= Monitor.event_count s <= Monitor.MAX_EVENTS /\
  length (Monitor.events s) = Z.to_nat Monitor.MAX_EVENTS /\
  (Monitor.monitor_initialized s = 0 -> Monitor.event_count s = 0).

Definition demo_event : Monitor.security_event :=
  Monitor.mk_event Monitor.EVENT_FILE_ACCESS 0 4242 1000 1000 "cat"
                   "open /etc/shadow denied" 9.

Definition demo_rules : list Monitor.security_rule :=
  [Monitor.mk_rule 1 Monitor.EVENT_FILE_ACCESS "shadow" 1 1;
   Monitor.mk_rule 2 Monitor.EVENT_FILE_ACCESS "/etc" 0 1;
   Monitor.mk_rule 3 Monitor.EVENT_FILE_ACCESS "passwd" 2 1;
   Monitor.mk_rule 4 Monitor.EVENT_PROCESS_EXIT "shadow" 2 1;
   Monitor.mk_rule 5 Monitor.EVENT_FILE_ACCESS "denied" 2 0].

(** A small monitor state: two events in the buffer, five rules. *)
Definition demo_monitor : Monitor.monitor_state :=
  Monitor.mk_monitor
    [demo_event;
     Monitor.mk_event Monitor.EVENT_PROCESS_EXIT 7 4242 1000 1000 "cat"
                      "exit 1" 1;
     Monitor.zero_event]
    demo_rules 2 5 1 [].

(** * Vocabulary of the further properties *)

(** ** Calls on the way to the exec *)

(** The data [secureos_cap_drop_all_except] hands to capset. *)
Definition drop_caps_data (required : Z) : cap_array :=
  if required =? 0 then Capability.zero_caps
  else
    mk_caps
      (mk_cap_data (Z.land required 0xFFFFFFFF) (Z.land required 0xFFFFFFFF) 0)
      (if required >? 0xFFFFFFFF then
         mk_cap_data (Z.land (Z.shiftr required 32) 0xFFFFFFFF)
                     (Z.land (Z.shiftr required 32) 0xFFFFFFFF) 0
       else Capability.zero_cap_data).

Definition is_exec {A} (o : outcome A) : Prop :=
  exists p a e, o = Execed p a e.

(** Every call of [tr] succeeded, unless it is one whose failure the code
    tolerates. *)
Definition lenient (tolerated : syscall -> bool) (tr : list event) : Prop :=
  Forall (fun ev => tolerated (fst ev) = true \/ ok ev) tr.

Definition none_tolerated (sc : syscall) : bool := false.

(** A stage function that, unless it returns a negative value, has issued
    exactly the calls [cs]. *)
Definition stage_calls (tolerated : syscall -> bool) (f : proc Z)
    (cs : list syscall) : Prop :=
  forall s, exists r s' tr,
    f s = (Ret r, s') /\ trace s' = trace s ++ tr /\
    (r < 0 \/ (map fst tr = cs /\ lenient tolerated tr)).

(** The same for a stage written inline, which exits by itself. *)
Definition inline_calls (tolerated : syscall -> bool) (f : proc unit)
    (cs : list syscall) : Prop :=
  forall s, exists o s' tr,
    f s = (o, s') /\ trace s' = trace s ++ tr /\
    ((exists c, o = Exited c) \/
     (o = Ret tt /\ map fst tr = cs /\ lenient tolerated tr)).

Definition strict_seccomp_calls : list syscall :=
  [nnp_call; SysPrctl PR_SET_SECCOMP SECCOMP_MODE_STRICT None].

(** The calls of the child of secure_sandbox_fixed.c up to the uid drop. *)
Definition fixed_setup_calls (cfg : SandboxFixed.sandbox_config)
  : list syscall :=
  [SysUnshare SandboxFixed.unshare_flags] ++
  mount_calls cfg ++
  strict_seccomp_calls ++
  [SysCapget; SysCapset (drop_caps_data (SandboxFixed.required_caps cfg))] ++
  code_limit_calls (SandboxFixed.limits cfg) ++
  [SysSetgid (SandboxFixed.gid cfg); SysSetuid (SandboxFixed.uid cfg)].

(** The calls of the child of app_sandbox.c up to the uid drop. *)
Definition app_ns_flags (p : AppSandbox.app_sandbox_policy) : Z :=
  if AppSandbox.network_access p =? 0 then
    Z.lor (Z.lor (Z.lor (Z.lor CLONE_NEWNS CLONE_NEWPID) CLONE_NEWUTS)
                 CLONE_NEWIPC) CLONE_NEWNET
  else Z.lor (Z.lor (Z.lor CLONE_NEWNS CLONE_NEWPID) CLONE_NEWUTS) CLONE_NEWIPC.

Definition bind_mount_call (f : string) : syscall :=
  SysMount (Some f) f None (Z.lor MS_BIND MS_RDONLY) None.

Definition is_bind_mount (sc : syscall) : bool :=
  match sc with
  | SysMount _ _ _ f _ => f =? Z.lor MS_BIND MS_RDONLY
  | _ => false
  end.

Definition app_base_mounts : list syscall :=
  [SysMount None "/" None (Z.lor MS_REC MS_PRIVATE) None;
   SysMount (Some "tmpfs") "/tmp" (Some "tmpfs")
            (Z.lor (Z.lor MS_NODEV MS_NOSUID) MS_NOEXEC)
            (Some "size=50M,mode=1777")].

Definition app_mount_calls (p : AppSandbox.app_sandbox_policy) : list syscall :=
  app_base_mounts ++
  map bind_mount_call
      (take (Z.to_nat (AppSandbox.file_count p)) (AppSandbox.allowed_files p)).

Definition app_setup_calls (p : AppSandbox.app_sandbox_policy) : list syscall :=
  [SysUnshare (app_ns_flags p)] ++
  app_mount_calls p ++
  strict_seccomp_calls ++
  [SysCapget; SysCapset (drop_caps_data (AppSandbox.allowed_capabilities p))] ++
  app_limit_calls p ++
  [SysSetgid (AppSandbox.sandbox_gid p); SysSetuid (AppSandbox.sandbox_uid p)].

(** The calls of the phase 3 child. *)
Definition capbset_calls : list syscall :=
  map (fun cap => SysPrctl PR_CAPBSET_DROP cap None) (map Z.of_nat (seq 0 38)).

Definition phase3_tolerated (sc : syscall) : bool :=
  match sc with
  | SysMount _ _ _ _ _ => true
  | SysPrctl o _ _ => o =? PR_CAPBSET_DROP
  | _ => false
  end.

Definition phase3_unshare : syscall :=
  SysUnshare (Z.lor (Z.lor (Z.lor (Z.lor (Z.lor CLONE_NEWNS CLONE_NEWPID)
                CLONE_NEWNET) CLONE_NEWUTS) CLONE_NEWIPC) CLONE_NEWUSER).

Definition phase3_proc_mount : syscall :=
  SysMount (Some "proc") "/proc" (Some "proc")
           (Z.lor (Z.lor MS_NOSUID MS_NOEXEC) MS_NODEV) None.

Definition phase3_root_calls (cfg : SandboxPhase3.sandbox_config_t)
  : list syscall :=
  match SandboxPhase3.chroot_dir cfg with
  | Some dir => [SysChroot dir; SysChdir "/"]
  | None => []
  end.

Definition phase3_limit_calls : list syscall :=
  [SysSetrlimit RLIMIT_AS 536870912 536870912;
   SysSetrlimit RLIMIT_NPROC 64 64;
   SysSetrlimit RLIMIT_NOFILE 256 256].

Definition phase3_id_calls (cfg : SandboxPhase3.sandbox_config_t)
  : list syscall :=
  (if SandboxPhase3.gid cfg >? 0 then [SysSetgid (SandboxPhase3.gid cfg)]
   else []) ++
  (if SandboxPhase3.uid cfg >? 0 then [SysSetuid (SandboxPhase3.uid cfg)]
   else []).

Definition phase3_filter_calls : list syscall :=
  [nnp_call;
   SysPrctl PR_SET_SECCOMP SECCOMP_MODE_FILTER (Some SandboxPhase3.filter)].

Definition phase3_exec_calls (cfg : SandboxPhase3.sandbox_config_t)
    (prog : string) : list syscall :=
  [phase3_unshare; phase3_proc_mount] ++
  phase3_root_calls cfg ++
  phase3_limit_calls ++
  (capbset_calls ++ [nnp_call]) ++
  phase3_id_calls cfg ++
  phase3_filter_calls ++
  [SysExecve prog (SandboxPhase3.argv cfg) (Some (SandboxPhase3.envp cfg))].

(** A root configuration for the phase 3 sandbox: uid and gid 0. *)
Definition root_config3 : SandboxPhase3.sandbox_config_t :=
  SandboxPhase3.mk_config (Some "/bin/true") ["/bin/true"] [] 0 0 None [] 0.

(** ** The monitor's rules and violations *)

Definition is_violation (e : Monitor.security_event) : bool :=
  (Monitor.type e =? Monitor.EVENT_PRIVILEGE_ESCALATION) ||
  (Monitor.type e =? Monitor.EVENT_POLICY_VIOLATION) ||
  (Monitor.type e =? Monitor.EVENT_ANOMALY_DETECTED).

(** The line [check_security_violations] writes for an event. *)
Definition violation_log (e : Monitor.security_event)
  : list (Z * Monitor.syslog_line) :=
  if Monitor.type e =? Monitor.EVENT_PRIVILEGE_ESCALATION then
    [(Monitor.LOG_ALERT,
      Monitor.LogPrivilegeEscalation (Monitor.pid e) (Monitor.uid e))]
  else if Monitor.type e =? Monitor.EVENT_POLICY_VIOLATION then
    [(Monitor.LOG_WARNING, Monitor.LogPolicyViolation (Monitor.details e))]
  else if Monitor.type e =? Monitor.EVENT_ANOMALY_DETECTED then
    [(Monitor.LOG_NOTICE, Monitor.LogAnomaly (Monitor.details e))]
  else [].

(** The rule table is within its array. *)
Definition rules_inv (s : Monitor.monitor_state) : Prop :=
  0 <= Monitor.rule_count s <= Monitor.MAX_RULES /\
  length (Monitor.rules s) = Z.to_nat Monitor.MAX_RULES.

(** A line of which all five fields were converted, and the rule it
    stands for. *)
Definition fully_scanned (l : Monitor.scanned_line) : bool :=
  Monitor.converted l =? 5.

Definition rule_of_line (l : Monitor.scanned_line) : Monitor.security_rule :=
  Monitor.mk_rule (Monitor.scan_rule_id l) (Monitor.scan_event_type l)
                  (Monitor.scan_pattern l) (Monitor.scan_action l)
                  (Monitor.scan_enabled l).

(** The rules a file adds when [room] slots are free. *)
Definition rules_added (lines : list Monitor.scanned_line) (room : nat)
  : list Monitor.security_rule :=
  take room (map rule_of_line (List.filter fully_scanned lines)).

Definition is_init (op : monitor_op) : bool :=
  match op with OpInit => true | _ => false end.

(** [status] as [waitpid] leaves it for a child killed by [sig], and for
    one that called [exit(code)]. *)
Definition killed_kernel (sig : Z) : kernel :=
  mk_kernel (fun _ sc => match sc with
                         | SysFork => SysOk 4242
                         | SysWaitpid _ _ => SysOk 4242
                         | _ => SysOk 0
                         end)
            (fun _ => Capability.zero_caps) (fun _ => sig).

(** A configuration with two entries in its mount table of which only
    the first is in use; it is mounted read-only. *)
Definition data_mount : SandboxFixed.sandbox_mount :=
  SandboxFixed.mk_mount "/srv/data" "/data" "ext4" MS_NOSUID 1.

Definition mounts_config : SandboxFixed.sandbox_config :=
  SandboxFixed.mk_config "/bin/true" ["/bin/true"] [] 1000 1000 [] 0
                         no_limits [data_mount; data_mount] 1 0 0.

(** ** Monitoring an application sandbox *)

(** A VmRSS line whose value, taken as bytes in an [unsigned long],
    exceeds [limit]. *)
Definition exceeds (limit : Z) (l : AppSandbox.status_line) : Prop :=
  AppSandbox.is_vmrss l = true /\
  exists kb, AppSandbox.scanned_kb l = Some kb /\
             (kb * 1024) mod 2 ^ 64 > limit.

(** The context after the monitor found the process gone. *)
Definition marked_gone (c : AppSandbox.app_sandbox_context)
  : AppSandbox.app_sandbox_context :=
  AppSandbox.mk_context (AppSandbox.sandbox_pid c) (AppSandbox.policy c) 0
                        (AppSandbox.start_time c).

(** A process state in which child 4242 has been waited for. *)
Definition after_reap : pstate :=
  mk_pstate [(SysWaitpid 4242 0, SysOk 4242)] 0 [].

(** A status file of a process with 100000 kB resident. *)
Definition demo_status : list AppSandbox.status_line :=
  [AppSandbox.mk_status_line false None;
   AppSandbox.mk_status_line true (Some 100000);
   AppSandbox.mk_status_line false None].

(** A monitor holding a privilege escalation, a file access of high
    severity and an anomaly. *)
Definition alert_monitor : Monitor.monitor_state :=
  Monitor.mk_monitor
    [Monitor.mk_event Monitor.EVENT_PRIVILEGE_ESCALATION 5 4242 0 0 "su"
                      "setuid(0)" 3;
     demo_event;
     Monitor.mk_event Monitor.EVENT_ANOMALY_DETECTED 9 4243 1000 1000 "nc"
                      "unexpected listener" 2;
     Monitor.zero_event]
    demo_rules 3 5 1 [].

(** A rules file of three lines of which the second does not parse, and
    an initialised monitor with nothing loaded. *)
Definition demo_rules_file : list Monitor.scanned_line :=
  [Monitor.mk_scan 5 1 Monitor.EVENT_FILE_ACCESS "shadow" 1 1;
   Monitor.mk_scan 2 7 9 "" 0 0;
   Monitor.mk_scan 5 2 Monitor.EVENT_FILE_ACCESS "/etc" 0 1].

Definition fresh_monitor : Monitor.monitor_state :=
  snd (Monitor.init_security_monitor Monitor.initial_monitor).

(** ** Complete runs of a child *)

(** The mount table of a policy is read within its bounds. *)
Definition mounts_in_table (cfg : SandboxFixed.sandbox_config) : Prop :=
  SandboxFixed.mount_count cfg <= Z.of_nat (length (SandboxFixed.mounts cfg)).

(** The child ended at the first call of [all] whose failure the code
    does not tolerate: the calls before it went through (a tolerated one
    perhaps failing), the call [sc] failed with [e], nothing was called
    after it, the child left with EXIT_FAILURE, and [report] holds of the
    state it left. *)
Definition stopped (tolerated : syscall -> bool)
    (report : syscall -> positive -> pstate -> Prop) (all : list syscall)
    (s0 : pstate) (res : outcome Z * pstate) : Prop :=
  fst res = Exited EXIT_FAILURE /\
  exists pre sc e rest,
    trace (snd res) = trace s0 ++ pre ++ [(sc, SysErr e)] /\
    lenient tolerated pre /\ tolerated sc = false /\
    all = map fst pre ++ sc :: rest /\
    report sc e (snd res).

(** A stage function over the calls [cs]: it returns a value that is not
    negative after going through all of them, or it stops at the first
    call whose failure is not tolerated and returns the negative value
    [code] gives, with [errno] as that call left it. *)
Definition stage_runs (tolerated : syscall -> bool)
    (code : syscall -> positive -> Z) (f : proc Z) (cs : list syscall)
  : Prop :=
  forall s, exists r s' tr,
    f s = (Ret r, s') /\ trace s' = trace s ++ tr /\
    ((0 <= r /\ map fst tr = cs /\ lenient tolerated tr) \/
     (exists pre sc e rest,
         tr = pre ++ [(sc, SysErr e)] /\ lenient tolerated pre /\
         tolerated sc = false /\ cs = map fst pre ++ sc :: rest /\
         r = code sc e /\ r < 0 /\ errno s' = Z.pos e)).

(** The same for a stage written inline, which leaves with EXIT_FAILURE
    by itself. *)
Definition inline_runs (tolerated : syscall -> bool) (f : proc unit)
    (cs : list syscall) : Prop :=
  forall s, exists o s' tr,
    f s = (o, s') /\ trace s' = trace s ++ tr /\
    ((o = Ret tt /\ map fst tr = cs /\ lenient tolerated tr) \/
     (o = Exited EXIT_FAILURE /\
      exists pre sc e rest,
        tr = pre ++ [(sc, SysErr e)] /\ lenient tolerated pre /\
        tolerated sc = false /\ cs = map fst pre ++ sc :: rest)).

(** What a stage function hands back when the call [sc] failed with
    [e]: [-errno], except that a failed capset is handed back as the raw
    -1 of the system call. *)
Definition failure_code (sc : syscall) (e : positive) : Z :=
  match sc with
  | SysCapset _ => -1
  | _ => - Z.pos e
  end.

Definition errno_code (sc : syscall) (e : positive) : Z := - Z.pos e.
Definition minus_one (sc : syscall) (e : positive) : Z := -1.

(** The audit line by which the child of secure_sandbox_fixed.c reports
    the failure of call [sc]: the name of the stage the call belongs to
    and the stage's result (for the namespace stage, [errno] itself). *)
Definition fixed_stage_name (sc : syscall) : string :=
  match sc with
  | SysUnshare _ => "namespace creation"
  | SysMount _ _ _ _ _ => "mount setup"
  | SysPrctl _ _ _ => "seccomp setup"
  | SysCapget | SysCapset _ => "capability drop"
  | SysSetrlimit _ _ _ => "resource limits"
  | SysSetgid _ | SysSetuid _ => "user change"
  | _ => EmptyString
  end.

Definition fixed_failure_line (sc : syscall) (e : positive) : audit_msg :=
  AuditSandboxFailure (fixed_stage_name sc)
    (match sc with
     | SysUnshare _ => Z.pos e
     | _ => failure_code sc e
     end).

Definition last_line (st : pstate) (m : audit_msg) : Prop :=
  last (audit st) = Some m.

Definition fixed_reports (sc : syscall) (e : positive) (st : pstate) : Prop :=
  last_line st (fixed_failure_line sc e).

(** The same for the child of app_sandbox.c. *)
Definition app_stage_name (sc : syscall) : string :=
  match sc with
  | SysUnshare _ => "namespace creation"
  | SysMount _ _ _ _ _ => "filesystem setup"
  | SysPrctl _ _ _ => "seccomp setup"
  | SysCapget | SysCapset _ => "capability drop"
  | SysSetrlimit _ _ _ => "resource limits"
  | SysSetgid _ | SysSetuid _ => "user change"
  | _ => EmptyString
  end.

Definition app_failure_line (app_name : string) (sc : syscall) (e : positive)
  : audit_msg :=
  AuditApp (app_stage_name sc) app_name (failure_code sc e).

Definition app_reports (app_name : string) (sc : syscall) (e : positive)
    (st : pstate) : Prop :=
  last_line st (app_failure_line app_name sc e).

Definition no_report (sc : syscall) (e : positive) (st : pstate) : Prop :=
  True.

(** How the child of secure_sandbox_fixed.c started in [s0] ends. Either
    it stopped at the first failing call of its setup and reported that
    call's stage; or the whole setup went through and the next call was
    the attempt to take uid 0 back: when that returned 0 the child
    reported "user change" with -EPERM and left with EXIT_FAILURE
    without a further call; when it did not, the child asked for its pid,
    wrote the success line and called execve, to leave with EXIT_FAILURE
    and no further line if that failed. *)
Definition fixed_child_runs (cfg : SandboxFixed.sandbox_config)
    (s0 : pstate) (res : outcome Z * pstate) : Prop :=
  stopped none_tolerated fixed_reports (fixed_setup_calls cfg) s0 res \/
  exists pre,
    map fst pre = fixed_setup_calls cfg /\ Forall ok pre /\
    ((fst res = Exited EXIT_FAILURE /\
      trace (snd res) = trace s0 ++ pre ++ [(SysSetuid 0, SysOk 0)] /\
      last_line (snd res) (AuditSandboxFailure "user change" (- EPERM))) \/
     exists z me answer,
       rv z <> 0 /\
       trace (snd res) =
       trace s0 ++ pre ++
       [(SysSetuid 0, z); (SysGetpid, me);
        (SysExecve (SandboxFixed.program cfg) (SandboxFixed.argv cfg)
                   (Some (SandboxFixed.envp cfg)), answer)] /\
       last_line (snd res) (AuditSandboxSuccess (rv me)) /\
       fst res = match answer with
                 | SysOk _ => Execed (SandboxFixed.program cfg)
                                     (SandboxFixed.argv cfg)
                                     (Some (SandboxFixed.envp cfg))
                 | SysErr _ => Exited EXIT_FAILURE
                 end).

(** The same for the child of app_sandbox.c, which tolerates failing bind
    mounts, reports a successful regain as "privilege check", and writes
    its "creation" line before the exec. *)
Definition app_child_runs (policy : AppSandbox.app_sandbox_policy)
    (app_path : string) (argv : list string)
    (s0 : pstate) (res : outcome Z * pstate) : Prop :=
  stopped is_bind_mount (app_reports (AppSandbox.app_name policy))
          (app_setup_calls policy) s0 res \/
  exists pre,
    map fst pre = app_setup_calls policy /\ lenient is_bind_mount pre /\
    ((fst res = Exited EXIT_FAILURE /\
      trace (snd res) = trace s0 ++ pre ++ [(SysSetuid 0, SysOk 0)] /\
      last_line (snd res)
        (AuditApp "privilege check" (AppSandbox.app_name policy) (- EPERM))) \/
     exists z answer,
       rv z <> 0 /\
       trace (snd res) =
       trace s0 ++ pre ++
       [(SysSetuid 0, z); (SysExecve app_path argv None, answer)] /\
       last_line (snd res)
         (AuditApp "creation" (AppSandbox.app_name policy) 0) /\
       fst res = match answer with
                 | SysOk _ => Execed app_path argv None
                 | SysErr _ => Exited EXIT_FAILURE
                 end).

(** The child of the phase 3 sandbox: it stopped at the first failing
    call other than the /proc mount and the bounding-set drops, or it
    went through all its calls, the exec included. *)
Definition phase3_child_runs (cfg : SandboxPhase3.sandbox_config_t)
    (prog : string) (s0 : pstate) (res : outcome Z * pstate) : Prop :=
  stopped phase3_tolerated no_report (phase3_exec_calls cfg prog) s0 res \/
  exists tr,
    trace (snd res) = trace s0 ++ tr /\
    map fst tr = phase3_exec_calls cfg prog /\
    lenient phase3_tolerated tr /\
    fst res = Execed prog (SandboxPhase3.argv cfg)
                     (Some (SandboxPhase3.envp cfg)).

(** The stages the calls [cs] belong to, each named once, in order of
    first appearance. *)
Definition stages_of (cs : list syscall) : list stage :=
  remove_dups (omap stage_of cs).

(** The stage sequence of the phase 3 child: the identity change is there
    only for a gid or uid above 0. *)
Definition phase3_stages (cfg : SandboxPhase3.sandbox_config_t) : list stage :=
  [StNamespaces; StMounts; StLimits; StCapabilities] ++
  (if (SandboxPhase3.gid cfg >? 0) || (SandboxPhase3.uid cfg >? 0)
   then [StPrivilege] else []) ++
  [StSeccomp; StExec].

Definition is_execve (sc : syscall) : bool :=
  match sc with SysExecve _ _ _ => true | _ => false end.

(** As [child_kernel], but the exec is refused. *)
Definition no_exec_kernel : kernel := failing_kernel is_execve.

(** * Verification *)

(** ** Running the process monad *)

Lemma bind_ret_run {A B} (m : proc A) (f : A -> proc B) s a s' :
  m s = (Ret a, s') -> bind m f s = f a s'.
Proof. intros E. unfold bind. now rewrite E. Qed.

Lemma bind_ret {A B} (a : A) (f : A -> proc B) s : bind (ret a) f s = f a s.
Proof. reflexivity. Qed.

Lemma bind_exit {A B} c (f : A -> proc B) s :
  bind (_exit c) f s = (Exited c, s).
Proof. reflexivity. Qed.

Lemma bind_get_errno {B} (f : Z -> proc B) s :
  bind get_errno f s = f (errno s) s.
Proof. reflexivity. Qed.

Lemma bind_log {B} m (f : unit -> proc B) s :
  bind (log m) f s = f tt (add_audit s m).
Proof. reflexivity. Qed.

Lemma bind_syscall {B} K sc (f : Z -> proc B) s :
  bind (syscall_ K sc) f s =
  f (rv (sys K (trace s) sc)) (push s sc (sys K (trace s) sc)).
Proof. reflexivity. Qed.

Lemma bind_assoc {A B C} (m : proc A) (f : A -> proc B) (g : B -> proc C) s :
  bind (bind m f) g s = bind m (fun a => bind (f a) g) s.
Proof. unfold bind. destruct (m s) as [[a|c|p a e] s']; reflexivity. Qed.

Lemma trace_push s sc r : trace (push s sc r) = trace s ++ [(sc, r)].
Proof. reflexivity. Qed.

Lemma audit_push s sc r : audit (push s sc r) = audit s.
Proof. reflexivity. Qed.

Lemma errno_push_err s sc e : errno (push s sc (SysErr e)) = Z.pos e.
Proof. reflexivity. Qed.

Lemma trace_add_audit s m : trace (add_audit s m) = trace s.
Proof. reflexivity. Qed.

Lemma audit_add_audit s m : audit (add_audit s m) = audit s ++ [m].
Proof. reflexivity. Qed.

Lemma rv_ok_nonneg v : (rv (SysOk v) <? 0) = false.
Proof. apply Z.ltb_ge. simpl. lia. Qed.

Lemma rv_err_neg e : (rv (SysErr e) <? 0) = true.
Proof. reflexivity. Qed.

Lemma rv_zero r : rv r = 0 <-> r = SysOk 0.
Proof.
  destruct r as [v|e]; simpl; split; intros H; try discriminate; try lia.
  - f_equal. lia.
  - inversion H. reflexivity.
Qed.

Lemma neg_errno_neg e : (- Z.pos e <? 0) = true.
Proof. apply Z.ltb_lt. lia. Qed.

#[local] Arguments push : simpl never.
#[local] Arguments add_audit : simpl never.

(** One step of symbolic execution of a monadic program. *)
Ltac run1 :=
  first [ rewrite bind_syscall | rewrite bind_get_errno | rewrite bind_log
        | rewrite bind_ret | rewrite bind_exit ].

(** Split on the kernel's answer to the call at the head of the goal. *)
Ltac answer v e E :=
  rewrite bind_syscall;
  match goal with
  | |- context [sys ?K ?h ?c] =>
      destruct (sys K h c) as [v|e] eqn:E;
      [ rewrite rv_ok_nonneg | rewrite rv_err_neg ]
  end; cbv iota.

(** ** Capability controller *)

Lemma testbit_above_64 r n : 0 <= r < 2 ^ 64 -> 64 <= n -> Z.testbit r n = false.
Proof.
  intros Hr Hn. destruct (Z.eq_dec r 0) as [->|Hnz].
  - apply Z.testbit_0_l.
  - apply Z.bits_above_log2; [lia|].
    assert (Z.log2 r < 64) by (apply Z.log2_lt_pow2; lia). lia.
Qed.

Lemma cap_split64 r :
  0 <= r < 2 ^ 64 ->
  cap_set64 (Z.land r 0xFFFFFFFF) (Z.land (Z.shiftr r 32) 0xFFFFFFFF) = r.
Proof.
  intros Hr. unfold cap_set64. apply Z.bits_inj'. intros n Hn.
  change 0xFFFFFFFF with (Z.ones 32).
  rewrite Z.lor_spec, Z.land_spec, Z.shiftl_spec by lia.
  destruct (Z.lt_ge_cases n 32) as [Hlt|Hge].
  - rewrite Z.ones_spec_low by lia.
    rewrite (Z.testbit_neg_r _ (n - 32)) by lia.
    now rewrite andb_true_r, orb_false_r.
  - rewrite Z.ones_spec_high by lia. rewrite andb_false_r. simpl.
    rewrite Z.land_spec, Z.shiftr_spec by lia.
    replace (n - 32 + 32) with n by lia.
    destruct (Z.lt_ge_cases n 64) as [H64|H64].
    + rewrite Z.ones_spec_low by lia. now rewrite andb_true_r.
    + rewrite (testbit_above_64 r n) by lia. reflexivity.
Qed.

Lemma cap_low_only r :
  0 <= r -> (r >? 0xFFFFFFFF) = false ->
  cap_set64 (Z.land r 0xFFFFFFFF) 0 = r.
Proof.
  intros Hr Hle. unfold cap_set64. rewrite Z.shiftl_0_l, Z.lor_0_r.
  change 0xFFFFFFFF with (Z.ones 32). rewrite Z.land_ones by lia.
  apply Z.mod_small. assert (r <= 0xFFFFFFFF) by lia. lia.
Qed.

Lemma bind_cap_get {B} K (f : Z * cap_array -> proc B) s :
  bind (Capability.secureos_cap_get_proc K) f s =
  f (rv (sys K (trace s) SysCapget), capget_out K (trace s))
    (push s SysCapget (sys K (trace s) SysCapget)).
Proof. reflexivity. Qed.

(** The data [secureos_cap_drop_all_except] hands to capset. *)
Lemma drop_all_except_run K required s :
  let r1 := sys K (trace s) SysCapget in
  match r1 with
  | SysErr e =>
      Capability.secureos_cap_drop_all_except K required s =
      (Ret (- Z.pos e), push s SysCapget r1)
  | SysOk _ =>
      exists caps,
        Capability.secureos_cap_drop_all_except K required s =
        (Ret (rv (sys K (trace s ++ [(SysCapget, r1)]) (SysCapset caps))),
         push (push s SysCapget r1) (SysCapset caps)
              (sys K (trace s ++ [(SysCapget, r1)]) (SysCapset caps))) /\
        (0 <= required < 2 ^ 64 ->
         effective_set caps = required /\ permitted_set caps = required /\
         inheritable_set caps = 0)
  end.
Proof.
  intros r1. unfold Capability.secureos_cap_drop_all_except.
  rewrite bind_cap_get. fold r1. cbn [fst snd].
  destruct r1 as [v|e] eqn:E1.
  - rewrite rv_ok_nonneg. cbv iota.
    unfold Capability.secureos_cap_set_proc, syscall_.
    rewrite trace_push. eexists. split; [reflexivity|].
    intros Hr.
    destruct (required =? 0) eqn:Hz; cbn [negb].
    + apply Z.eqb_eq in Hz. subst required. repeat split.
    + destruct (required >? 0xFFFFFFFF) eqn:Hhi;
        unfold effective_set, permitted_set, inheritable_set;
        cbn [caps0 caps1 effective permitted inheritable
             Capability.zero_caps Capability.zero_cap_data];
        repeat split;
        try (apply cap_split64; exact Hr);
        try (apply cap_low_only; [lia | exact Hhi]).
  - rewrite rv_err_neg. cbv iota. rewrite bind_get_errno.
    rewrite errno_push_err. reflexivity.
Qed.

(** C5. [secureos_cap_drop_all_except] first reads the capability set with
    capget; when that fails it returns [-errno] and submits nothing.
    Otherwise the very next call is one capset whose data carries exactly
    the requested bits as effective and as permitted set and an empty
    inheritable set, so no bit outside the request is present in any of
    the three; the result is the result of that capset. *)
Theorem drop_all_except_exact (K : kernel) (required_caps : Z) (s : pstate) :
  0 <= required_caps < 2 ^ 64 ->
  let r1 := sys K (trace s) SysCapget in
  match r1 with
  | SysErr e =>
      Capability.secureos_cap_drop_all_except K required_caps s =
      (Ret (- Z.pos e),
       mk_pstate (trace s ++ [(SysCapget, r1)]) (Z.pos e) (audit s))
  | SysOk _ =>
      exists caps s',
        let r2 := sys K (trace s ++ [(SysCapget, r1)]) (SysCapset caps) in
        Capability.secureos_cap_drop_all_except K required_caps s =
        (Ret (rv r2), s') /\
        trace s' = trace s ++ [(SysCapget, r1); (SysCapset caps, r2)] /\
        effective_set caps = required_caps /\
        permitted_set caps = required_caps /\
        inheritable_set caps = 0 /\
        forall i, Z.testbit required_caps i = false ->
                  Z.testbit (effective_set caps) i = false /\
                  Z.testbit (permitted_set caps) i = false /\
                  Z.testbit (inheritable_set caps) i = false
  end.
Proof.
  intros Hr r1. pose proof (drop_all_except_run K required_caps s) as H.
  cbv zeta in H. fold r1 in H. destruct r1 as [v|e] eqn:E1.
  - destruct H as (caps & Hrun & Hsets).
    destruct (Hsets Hr) as (He & Hp & Hi).
    exists caps. eexists. split; [exact Hrun|].
    rewrite !trace_push, <- app_assoc. split; [reflexivity|].
    rewrite He, Hp, Hi. repeat split; trivial. apply Z.testbit_0_l.
  - exact H.
Qed.

Lemma drop_all_except_exact_witness :
  exists caps s',
    Capability.secureos_cap_drop_all_except child_kernel 0x100000021
      initial_pstate = (Ret 0, s') /\
    trace s' = [(SysCapget, SysOk 0); (SysCapset caps, SysOk 0)] /\
    effective_set caps = 0x100000021.
Proof.
  assert (Hr : 0 <= 0x100000021 < 2 ^ 64) by lia.
  destruct (drop_all_except_exact child_kernel 0x100000021 initial_pstate Hr)
    as (caps & s' & Hrun & Htr & He & _).
  exists caps, s'. repeat split; assumption.
Defined.

(** ** Seccomp installation *)

Ltac run_prctl_pair :=
  intros s; unfold nnp_call;
  answer ipattern:(v1) ipattern:(e1) ipattern:(E1);
  [ answer ipattern:(v2) ipattern:(e2) ipattern:(E2);
    repeat run1; unfold ret;
    eexists _, _; (split; [reflexivity|]); right;
    eexists _, _;
    repeat first [rewrite trace_push | rewrite trace_add_audit];
    rewrite <- app_assoc;
    (split; [reflexivity|]);
    cbv iota; try reflexivity; try rewrite errno_push_err; lia
  | repeat run1; unfold ret;
    eexists _, _; (split; [reflexivity|]); left; eexists;
    repeat first [rewrite trace_push | rewrite trace_add_audit];
    (split; [reflexivity|]); try rewrite errno_push_err; lia ].

(** C2. Each of the three functions that install seccomp
    ([apply_seccomp_filter], the phase 3 [install_seccomp_filter] and
    [apply_app_seccomp]) first sets PR_SET_NO_NEW_PRIVS; when that call
    fails the function returns a negative value and no seccomp call is
    made; when it succeeds the seccomp installation is the very next
    system call, and the function returns 0 exactly when it succeeded. *)
Theorem seccomp_after_no_new_privs (K : kernel) :
  (forall allowed,
      installs_after_nnp (SandboxFixed.apply_seccomp_filter K allowed)
                         SECCOMP_MODE_STRICT None) /\
  (forall allowed n,
      installs_after_nnp (SandboxPhase3.install_seccomp_filter K allowed n)
                         SECCOMP_MODE_FILTER (Some SandboxPhase3.filter)) /\
  (forall policy,
      installs_after_nnp (AppSandbox.apply_app_seccomp K policy)
                         SECCOMP_MODE_STRICT None).
Proof.
  split; [|split].
  - intros allowed. unfold installs_after_nnp,
      SandboxFixed.apply_seccomp_filter. run_prctl_pair.
  - intros allowed n. unfold installs_after_nnp,
      SandboxPhase3.install_seccomp_filter. run_prctl_pair.
  - intros policy. unfold installs_after_nnp,
      AppSandbox.apply_app_seccomp. run_prctl_pair.
Qed.

(** ** Fail-fast call sequences *)

Lemma run_calls_fail_fast K cs : runs_fail_fast (run_calls K cs) cs.
Proof.
  induction cs as [|c cs IH]; intros s.
  - exists 0, s, []. rewrite app_nil_r. repeat split. left. repeat split.
    constructor.
  - cbn [run_calls]. answer v e E.
    + destruct (IH (push s c (SysOk v))) as (r & s' & tr & Hrun & Htr & Hc).
      exists r, s', ((c, SysOk v) :: tr). split; [exact Hrun|].
      split. { rewrite Htr, trace_push, <- app_assoc. reflexivity. }
      destruct Hc as [(Hr & Hm & Hok) | (pre & sc & e & rest & Ht & Hok & Hcs & Hr)].
      * left. repeat split; [exact Hr | cbn; now rewrite Hm |].
        constructor; [now exists v | exact Hok].
      * right. exists ((c, SysOk v) :: pre), sc, e, rest.
        repeat split; [now rewrite Ht | | cbn; now rewrite Hcs | exact Hr].
        constructor; [now exists v | exact Hok].
    + run1. rewrite errno_push_err. unfold ret.
      eexists _, _, [(c, SysErr e)]. split; [reflexivity|].
      split; [apply trace_push|]. right. exists [], c, e, cs.
      repeat split. constructor.
Qed.

Lemma fail_fast_ext (f g : proc Z) cs :
  (forall s, f s = g s) -> runs_fail_fast g cs -> runs_fail_fast f cs.
Proof. intros E H s. rewrite E. apply H. Qed.

(** *** The stages that are fail-fast sequences *)

Lemma limit_block_calls K field res rest cs s :
  (forall s, rest s = run_calls K cs s) ->
  SandboxFixed.limit_block K field res rest s =
  run_calls K (limit_call_pos res field ++ cs) s.
Proof.
  intros Hrest. unfold SandboxFixed.limit_block, limit_call_pos.
  destruct (field >? 0); cbn [app run_calls]; [|apply Hrest].
  unfold bind. destruct (syscall_ K _ s) as [[r|c|p a e] s1]; trivial.
  destruct (r <? 0); [reflexivity|apply Hrest].
Qed.

Lemma apply_resource_limits_calls K l s :
  SandboxFixed.apply_resource_limits K l s =
  run_calls K (code_limit_calls l) s.
Proof.
  unfold SandboxFixed.apply_resource_limits, code_limit_calls.
  rewrite <- (app_nil_r (limit_call_pos RLIMIT_NOFILE _)).
  repeat (apply limit_block_calls; intros). reflexivity.
Qed.

Lemma limit_call_pos_spec res field :
  0 <= field -> limit_call_pos res field = limit_call res field.
Proof.
  intros H. unfold limit_call_pos, limit_call.
  destruct (Z.eqb_spec field 0) as [->|Hne]; [reflexivity|].
  replace (field >? 0) with true; [reflexivity|]. symmetry. lia.
Qed.

Lemma code_limit_calls_spec l :
  limits_wf l -> code_limit_calls l = spec_limit_calls l.
Proof.
  intros (H1 & H2 & H3 & H4 & H5). unfold code_limit_calls, spec_limit_calls.
  now rewrite !limit_call_pos_spec.
Qed.

Lemma apply_app_resource_limits_calls K p s :
  AppSandbox.apply_app_resource_limits K p s =
  run_calls K (app_limit_calls p) s.
Proof. reflexivity. Qed.

Lemma apply_custom_mounts_calls K ms s :
  SandboxFixed.apply_custom_mounts K ms s =
  run_calls K (map custom_mount_call ms) s.
Proof.
  revert s. induction ms as [|m ms IH]; intros s; [reflexivity|].
  cbn [SandboxFixed.apply_custom_mounts map run_calls].
  unfold custom_mount_call at 1. unfold bind.
  destruct (syscall_ K _ s) as [[r|c|p a e] s1]; trivial.
  destruct (r <? 0); [reflexivity|apply IH].
Qed.

Lemma setup_sandbox_mounts_calls K cfg s :
  SandboxFixed.setup_sandbox_mounts K cfg s =
  run_calls K (mount_calls cfg) s.
Proof.
  unfold SandboxFixed.setup_sandbox_mounts, mount_calls.
  cbn [run_calls]. unfold bind.
  destruct (syscall_ K _ s) as [[r|c|p a e] s1]; trivial.
  destruct (r <? 0); [reflexivity|].
  destruct (syscall_ K _ s1) as [[r2|c|p a e] s2]; trivial.
  destruct (r2 <? 0); [reflexivity|]. apply apply_custom_mounts_calls.
Qed.

Lemma apply_seccomp_filter_calls K allowed s :
  SandboxFixed.apply_seccomp_filter K allowed s =
  run_calls K [nnp_call; SysPrctl PR_SET_SECCOMP SECCOMP_MODE_STRICT None] s.
Proof. reflexivity. Qed.

Lemma apply_app_seccomp_calls K policy s :
  AppSandbox.apply_app_seccomp K policy s =
  run_calls K [nnp_call; SysPrctl PR_SET_SECCOMP SECCOMP_MODE_STRICT None] s.
Proof. reflexivity. Qed.

(** ** Resource limits *)

Lemma in_limit_call res field res' cur max_ :
  In (SysSetrlimit res' cur max_) (limit_call res field) <->
  res' = res /\ cur = field /\ max_ = field /\ field <> 0.
Proof.
  unfold limit_call. destruct (Z.eqb_spec field 0) as [->|Hne]; cbn.
  - split; [tauto|]. intros (_ & _ & _ & H). now apply H.
  - split.
    + intros [H|[]]. inversion H. subst. repeat split; trivial.
    + intros (-> & -> & -> & _). now left.
Qed.

(** C6 (as amended). [apply_resource_limits] of secure_sandbox_fixed.c
    issues, in the order address space, CPU time, file size, process
    count, open files, one [setrlimit] for each field that is not zero,
    with soft and hard limit both equal to the field, and none for a zero
    field; it returns 0 when all of them succeeded and otherwise stops at
    the first failure and returns [-errno]. [apply_app_resource_limits] of
    app_sandbox.c is fail-fast in the same way but always issues four
    calls: address space and CPU time from the policy, 64 open files and
    1 process. *)
Theorem resource_limits_applied (K : kernel)
    (l : SandboxFixed.sandbox_limits) (p : AppSandbox.app_sandbox_policy) :
  limits_wf l ->
  runs_fail_fast (SandboxFixed.apply_resource_limits K l)
                 (spec_limit_calls l) /\
  (forall res cur max_,
      In (SysSetrlimit res cur max_) (spec_limit_calls l) <->
      cur = limit_field l res /\ max_ = limit_field l res /\
      limit_field l res <> 0) /\
  runs_fail_fast (AppSandbox.apply_app_resource_limits K p)
                 (app_limit_calls p).
Proof.
  intros Hwf. split; [|split].
  - apply (fail_fast_ext _ (run_calls K (spec_limit_calls l))).
    + intros s. rewrite apply_resource_limits_calls.
      now rewrite code_limit_calls_spec.
    + apply run_calls_fail_fast.
  - intros res cur max_. unfold spec_limit_calls.
    rewrite !in_app_iff, !in_limit_call.
    destruct res; cbn [limit_field]; split; intros H;
      repeat match goal with
             | H : _ \/ _ |- _ => destruct H
             | H : _ /\ _ |- _ => destruct H
             end; try discriminate; subst; auto 10.
  - apply (fail_fast_ext _ (run_calls K (app_limit_calls p))).
    + intros s. apply apply_app_resource_limits_calls.
    + apply run_calls_fail_fast.
Qed.

Lemma resource_limits_applied_witness :
  limits_wf (SandboxFixed.mk_limits 67108864 0 0 16 0) /\
  runs_fail_fast
    (SandboxFixed.apply_resource_limits child_kernel
       (SandboxFixed.mk_limits 67108864 0 0 16 0))
    [SysSetrlimit RLIMIT_AS 67108864 67108864;
     SysSetrlimit RLIMIT_NPROC 16 16].
Proof.
  assert (Hwf : limits_wf (SandboxFixed.mk_limits 67108864 0 0 16 0)).
  { unfold limits_wf. simpl. lia. }
  split; [exact Hwf|].
  exact (proj1 (resource_limits_applied child_kernel _ demo_policy Hwf)).
Defined.

(** C6, as stated, fails on app_sandbox.c: the application sandbox sets
    the open-file and process limits although the policy has no such
    field, so its calls are not the ones selected by the non-zero fields;
    and a zero memory field is applied as a limit of 0 instead of being
    left unconstrained. *)
Lemma app_limits_not_field_driven :
  let calls p :=
    map fst (trace (snd (AppSandbox.apply_app_resource_limits child_kernel p
                           initial_pstate))) in
  calls demo_policy =
    [SysSetrlimit RLIMIT_AS 67108864 67108864; SysSetrlimit RLIMIT_CPU 10 10;
     SysSetrlimit RLIMIT_NOFILE 64 64; SysSetrlimit RLIMIT_NPROC 1 1] /\
  calls demo_policy <> spec_limit_calls (app_limits_view demo_policy) /\
  AppSandbox.memory_limit zero_policy = 0 /\
  In (SysSetrlimit RLIMIT_AS 0 0) (calls zero_policy).
Proof.
  cbv zeta. split; [reflexivity|]. split; [|split].
  - vm_compute. discriminate.
  - reflexivity.
  - vm_compute. left. reflexivity.
Qed.

(** ** Stage order of traces *)

Lemma ranks_app rank a b : ranks rank (a ++ b) = ranks rank a ++ ranks rank b.
Proof. unfold ranks. now rewrite omap_app, map_app. Qed.

Lemma nondecreasing_app l1 l2 m :
  nondecreasing l1 = true -> nondecreasing l2 = true ->
  Forall (fun k => (k <= m)%nat) l1 -> Forall (fun k => (m <= k)%nat) l2 ->
  nondecreasing (l1 ++ l2) = true.
Proof.
  induction l1 as [|a l1 IH]; intros H1 H2 F1 F2; [exact H2|].
  inversion F1 as [|? ? Ha F1']; subst. cbn [app].
  destruct l1 as [|b l1'].
  - cbn [app]. destruct l2 as [|c l2']; [reflexivity|].
    inversion F2; subst. cbn [nondecreasing].
    apply andb_true_intro. split; [apply Nat.leb_le; lia | exact H2].
  - cbn [nondecreasing] in H1. apply andb_prop in H1 as [Hab H1].
    change (nondecreasing (a :: b :: l1' ++ l2) = true).
    cbn [nondecreasing]. apply andb_true_intro. split; [exact Hab|].
    apply (IH H1 H2 F1' F2).
Qed.

Lemma upto_nil rank n : upto rank n [].
Proof. split; [reflexivity|constructor]. Qed.

Lemma upto_block rank n lo hi tr1 tr2 :
  (n <= lo)%nat -> (lo <= hi)%nat ->
  upto rank n tr1 -> block rank lo hi tr2 -> upto rank hi (tr1 ++ tr2).
Proof.
  intros Hn Hlh [S1 F1] [S2 F2]. unfold upto. rewrite ranks_app. split.
  - apply (nondecreasing_app _ _ lo S1 S2).
    + eapply Forall_impl; [exact F1|]. cbn. intros; lia.
    + eapply Forall_impl; [exact F2|]. cbn. intros; lia.
  - apply Forall_app. split.
    + eapply Forall_impl; [exact F1|]. cbn. intros; lia.
    + eapply Forall_impl; [exact F2|]. cbn. intros; lia.
Qed.

Lemma upto_in_order rank n tr : upto rank n tr -> in_order rank tr = true.
Proof. now intros [H _]. Qed.

Lemma nondecreasing_const x l :
  Forall (fun k => k = x) l -> nondecreasing l = true.
Proof.
  induction l as [|a l IH]; intros H; [reflexivity|].
  inversion H as [|? ? -> Hl]; subst. destruct l as [|b l']; [reflexivity|].
  inversion Hl as [|? ? -> _]; subst. cbn [nondecreasing].
  rewrite Nat.leb_refl. exact (IH Hl).
Qed.

(** A run of calls that all belong to stage [X], or to no stage. *)
Lemma block_same_stage rank X (tr : list event) :
  Forall (fun ev => stage_of (fst ev) = Some X \/ stage_of (fst ev) = None) tr ->
  block rank (rank X) (rank X) tr.
Proof.
  intros H. unfold block.
  assert (Hall : Forall (fun k => k = rank X) (ranks rank tr)).
  { induction H as [|ev tr Hev _ IH]; [constructor|].
    unfold ranks in *. cbn [omap list_omap].
    destruct Hev as [-> | ->]; cbn; [constructor; trivial | exact IH]. }
  split.
  - now apply nondecreasing_const with (x := rank X).
  - eapply Forall_impl; [exact Hall|]. cbn. intros; lia.
Qed.

Lemma ends_with_error_app tr1 tr2 :
  ends_with_error tr2 -> ends_with_error (tr1 ++ tr2).
Proof.
  intros (pre & sc & e & ->). exists (tr1 ++ pre), sc, e.
  now rewrite app_assoc.
Qed.

(** A fail-fast run of calls of one stage keeps the stage contract. *)
Lemma fail_fast_contract rank X f cs :
  runs_fail_fast f cs ->
  Forall (fun c => stage_of c = Some X \/ stage_of c = None) cs ->
  stage_contract rank (rank X) (rank X) f.
Proof.
  intros Hf Hcs s. destruct (Hf s) as (r & s' & tr & Hrun & Htr & Hc).
  exists r, s', tr. split; [exact Hrun|]. split; [exact Htr|].
  assert (Hst : Forall (fun c => stage_of c = Some X \/ stage_of c = None)
                       (map fst tr)).
  { destruct Hc as [(_ & Hm & _) | (pre & sc & e & rest & Ht & _ & Hcs' & _)].
    - now rewrite Hm.
    - rewrite Hcs' in Hcs. rewrite Ht, map_app. cbn [map fst].
      apply Forall_app in Hcs as [Hpre Hsc]. apply Forall_app. split; trivial.
      inversion Hsc; subst. constructor; [assumption|constructor]. }
  split.
  - apply block_same_stage. now apply Forall_map in Hst.
  - intros Hneg. destruct Hc as [(Hr & _) | (pre & sc & e & rest & Ht & _)].
    + lia.
    + now exists pre, sc, e.
Qed.

(** *** Steps of a pipeline *)

(** A stage function followed by the exit-on-failure test. *)
Lemma pipeline_step rank C s0 lo hi n (f : proc Z) (failk : Z -> proc Z)
    (rest : proc Z) s tr0 :
  stage_contract rank lo hi f ->
  (forall r st, exists st',
      failk r st = (Exited EXIT_FAILURE, st') /\ trace st' = trace st) ->
  (forall tr st, ends_with_error tr -> C (Exited EXIT_FAILURE) tr st) ->
  trace s = trace s0 ++ tr0 -> upto rank n tr0 ->
  (n <= lo)%nat -> (lo <= hi)%nat ->
  (forall s1 tr1, trace s1 = trace s0 ++ tr1 -> upto rank hi tr1 ->
                  child_post rank C s0 (rest s1)) ->
  child_post rank C s0
    (bind f (fun r => if r <? 0 then failk r else rest) s).
Proof.
  intros Hf Hfail HC Hs Hup Hn Hlh Hrest.
  destruct (Hf s) as (r & s1 & tr & Hrun & Htr & Hblk & Hneg).
  rewrite (bind_ret_run _ _ _ _ _ Hrun).
  assert (Hup1 : upto rank hi (tr0 ++ tr))
    by (apply (upto_block rank n lo hi); assumption).
  assert (Hs1 : trace s1 = trace s0 ++ tr0 ++ tr).
  { rewrite Htr, Hs. now rewrite app_assoc. }
  destruct (r <? 0) eqn:Hr.
  - destruct (Hfail r s1) as (st' & Hk & Hkt). rewrite Hk.
    exists (tr0 ++ tr). cbn [fst snd]. split; [now rewrite Hkt|].
    split; [eapply upto_in_order; eauto|].
    apply HC. apply ends_with_error_app. apply Hneg. lia.
  - apply (Hrest s1 (tr0 ++ tr) Hs1 Hup1).
Qed.

(** A stage written inline, with its own exits. *)
Lemma pipeline_inline rank C s0 lo hi n (f : proc unit) (rest : proc Z)
    s tr0 :
  inline_contract rank lo hi f ->
  (forall tr st, ends_with_error tr -> C (Exited EXIT_FAILURE) tr st) ->
  trace s = trace s0 ++ tr0 -> upto rank n tr0 ->
  (n <= lo)%nat -> (lo <= hi)%nat ->
  (forall s1 tr1, trace s1 = trace s0 ++ tr1 -> upto rank hi tr1 ->
                  child_post rank C s0 (rest s1)) ->
  child_post rank C s0 (bind f (fun _ => rest) s).
Proof.
  intros Hf HC Hs Hup Hn Hlh Hrest.
  destruct (Hf s) as (o & s1 & tr & Hrun & Htr & Hblk & Ho).
  assert (Hup1 : upto rank hi (tr0 ++ tr))
    by (apply (upto_block rank n lo hi); assumption).
  assert (Hs1 : trace s1 = trace s0 ++ tr0 ++ tr).
  { rewrite Htr, Hs. now rewrite app_assoc. }
  destruct Ho as [-> | [-> Herr]].
  - rewrite (bind_ret_run _ _ _ _ _ Hrun). apply (Hrest s1 _ Hs1 Hup1).
  - unfold bind. rewrite Hrun. exists (tr0 ++ tr). cbn [fst snd].
    split; [exact Hs1|]. split; [eapply upto_in_order; eauto|].
    apply HC. now apply ends_with_error_app.
Qed.

(** Reporting a failure and leaving: the shapes the three sandboxes use. *)
Lemma log_exit_fails m s :
  exists st', bind (log m) (fun _ => _exit EXIT_FAILURE) s
              = (@Exited Z EXIT_FAILURE, st') /\ trace st' = trace s.
Proof. eexists. split; reflexivity. Qed.

Lemma bind_exec {B} K p a e (f : Z -> proc B) s :
  bind (exec_ K p a e) f s =
  match sys K (trace s) (SysExecve p a e) with
  | SysOk v => (Execed p a e, push s (SysExecve p a e) (SysOk v))
  | SysErr er => f (-1) (push s (SysExecve p a e) (SysErr er))
  end.
Proof.
  unfold bind, exec_. destruct (sys K (trace s) (SysExecve p a e)); reflexivity.
Qed.

Lemma bind_waitpid {B} K pid opts (f : Z * Z -> proc B) s :
  bind (waitpid K pid opts) f s =
  f (rv (sys K (trace s) (SysWaitpid pid opts)), wait_status K (trace s))
    (push s (SysWaitpid pid opts) (sys K (trace s) (SysWaitpid pid opts))).
Proof. reflexivity. Qed.

(** ** Stage contracts *)

Lemma syscall_contract rank X K c :
  stage_of c = Some X \/ stage_of c = None ->
  stage_contract rank (rank X) (rank X) (syscall_ K c).
Proof.
  intros Hc s. unfold syscall_.
  eexists _, _, [(c, sys K (trace s) c)]. split; [reflexivity|].
  split; [apply trace_push|]. split.
  - apply block_same_stage. constructor; [exact Hc|constructor].
  - intros Hneg. destruct (sys K (trace s) c) as [v|e]; cbn in Hneg; [lia|].
    now exists [], c, e.
Qed.

Lemma mount_calls_stage cfg :
  Forall (fun c => stage_of c = Some StMounts \/ stage_of c = None)
         (mount_calls cfg).
Proof.
  unfold mount_calls. repeat constructor.
  apply Forall_map. apply Forall_forall. intros m _. now left.
Qed.

Lemma code_limit_calls_stage l :
  Forall (fun c => stage_of c = Some StLimits \/ stage_of c = None)
         (code_limit_calls l).
Proof.
  unfold code_limit_calls, limit_call_pos.
  repeat (apply Forall_app; split);
    match goal with |- context [if ?b then _ else _] => destruct b end;
    repeat constructor.
Qed.

Lemma mounts_contract rank K cfg :
  stage_contract rank (rank StMounts) (rank StMounts)
                 (SandboxFixed.setup_sandbox_mounts K cfg).
Proof.
  apply (fail_fast_contract rank StMounts _ (mount_calls cfg)).
  - eapply fail_fast_ext; [apply setup_sandbox_mounts_calls|].
    apply run_calls_fail_fast.
  - apply mount_calls_stage.
Qed.

Lemma strict_seccomp_contract rank K (f : proc Z) :
  (forall s, f s = run_calls K [nnp_call; SysPrctl PR_SET_SECCOMP
                                           SECCOMP_MODE_STRICT None] s) ->
  stage_contract rank (rank StSeccomp) (rank StSeccomp) f.
Proof.
  intros E. eapply (fail_fast_contract rank StSeccomp).
  - eapply fail_fast_ext; [exact E|]. apply run_calls_fail_fast.
  - constructor; [right; reflexivity|].
    constructor; [left; reflexivity|constructor].
Qed.

Lemma limits_contract rank K l :
  stage_contract rank (rank StLimits) (rank StLimits)
                 (SandboxFixed.apply_resource_limits K l).
Proof.
  apply (fail_fast_contract rank StLimits _ (code_limit_calls l)).
  - eapply fail_fast_ext; [apply apply_resource_limits_calls|].
    apply run_calls_fail_fast.
  - apply code_limit_calls_stage.
Qed.

Lemma cap_drop_contract rank K required :
  stage_contract rank (rank StCapabilities) (rank StCapabilities)
                 (Capability.secureos_cap_drop_all_except K required).
Proof.
  intros s. pose proof (drop_all_except_run K required s) as H. cbv zeta in H.
  destruct (sys K (trace s) SysCapget) as [v|e] eqn:E1.
  - destruct H as (caps & Hrun & _). rewrite Hrun.
    eexists _, _, [_; _]. split; [reflexivity|].
    split; [now rewrite !trace_push, <- app_assoc|]. split.
    + apply block_same_stage. repeat constructor.
    + intros Hneg.
      destruct (sys K (trace s ++ [(SysCapget, SysOk v)]) (SysCapset caps))
        as [v2|e2]; cbn in Hneg; [lia|].
      now exists [(SysCapget, SysOk v)], (SysCapset caps), e2.
  - rewrite H. eexists _, _, [_]. split; [reflexivity|].
    split; [apply trace_push|]. split.
    + apply block_same_stage. repeat constructor.
    + intros _. now exists [], SysCapget, e.
Qed.

Lemma fixed_cap_drop_contract rank K required :
  stage_contract rank (rank StCapabilities) (rank StCapabilities)
                 (SandboxFixed.drop_all_capabilities_except K required).
Proof.
  intros s. destruct (cap_drop_contract rank K required s)
    as (r & s' & tr & Hrun & Htr & Hblk & Hneg).
  unfold SandboxFixed.drop_all_capabilities_except.
  rewrite (bind_ret_run _ _ _ _ _ Hrun).
  unfold Capability.audit_capability_operation. rewrite bind_log. unfold ret.
  exists r. eexists. exists tr. split; [reflexivity|].
  rewrite trace_add_audit. auto.
Qed.

(** *** The privilege drop *)

(** The four ways [change_to_sandbox_user] ends. *)
Lemma change_to_sandbox_user_run K uid gid s :
  exists r s',
    SandboxFixed.change_to_sandbox_user K uid gid s = (Ret r, s') /\
    audit s' = audit s /\
    ((exists e, trace s' = trace s ++ [(SysSetgid gid, SysErr e)] /\
                r = - Z.pos e) \/
     (exists g e, trace s' = trace s ++ [(SysSetgid gid, SysOk g);
                                         (SysSetuid uid, SysErr e)] /\
                  r = - Z.pos e) \/
     (exists g u, trace s' = trace s ++ [(SysSetgid gid, SysOk g);
                                         (SysSetuid uid, SysOk u);
                                         (SysSetuid 0, SysOk 0)] /\
                  r = - EPERM) \/
     (exists g u z, trace s' = trace s ++ [(SysSetgid gid, SysOk g);
                                           (SysSetuid uid, SysOk u);
                                           (SysSetuid 0, z)] /\
                    rv z <> 0 /\ r = 0)).
Proof.
  unfold SandboxFixed.change_to_sandbox_user.
  answer g e E1.
  - answer u e E2.
    + rewrite bind_syscall.
      destruct (sys K (trace (push (push s _ _) _ _)) (SysSetuid 0))
        as [z|ez] eqn:E3.
      * destruct (Z.eqb_spec (rv (SysOk z)) 0) as [Hz|Hz]; unfold ret;
          eexists _, _; (split; [reflexivity|]); (split; [reflexivity|]).
        -- right. right. left. exists g, u. apply rv_zero in Hz.
           rewrite Hz, !trace_push, <- !app_assoc. split; reflexivity.
        -- right. right. right. exists g, u, (SysOk z).
           rewrite !trace_push, <- !app_assoc. repeat split. exact Hz.
      * cbn [rv]. cbv iota. unfold ret.
        eexists _, _; (split; [reflexivity|]); (split; [reflexivity|]).
        right. right. right. exists g, u, (SysErr ez).
        rewrite !trace_push, <- !app_assoc. repeat split. cbn. lia.
    + run1. rewrite errno_push_err. unfold ret.
      eexists _, _; (split; [reflexivity|]); (split; [reflexivity|]).
      right. left. exists g, e. rewrite !trace_push, <- !app_assoc.
      split; reflexivity.
  - run1. rewrite errno_push_err. unfold ret.
    eexists _, _; (split; [reflexivity|]); (split; [reflexivity|]).
    left. exists e. rewrite trace_push. split; reflexivity.
Qed.

(** ** The child of secure_sandbox_fixed.c *)

Lemma fixed_cases_error cfg tr st :
  ends_with_error tr -> fixed_cases cfg (Exited EXIT_FAILURE) tr st.
Proof. intros H. left. now split. Qed.

Lemma fixed_child_run K cfg s :
  child_post rank_spec (fixed_cases cfg) s (SandboxFixed.sandbox_child K cfg s).
Proof.
  assert (HC := fixed_cases_error cfg).
  assert (Hs : trace s = trace s ++ []) by now rewrite app_nil_r.
  assert (Hup := upto_nil rank_spec 0).
  unfold SandboxFixed.sandbox_child.
  eapply (pipeline_step _ _ _ 0 0)%nat;
    [ apply (syscall_contract rank_spec StNamespaces); now left
    | intros; eexists; split; reflexivity | exact HC | exact Hs | exact Hup
    | lia | lia | clear Hs Hup; intros s1 tr1 Hs Hup ].
  eapply (pipeline_step _ _ _ 1 1)%nat;
    [ apply (mounts_contract rank_spec)
    | intros; eexists; split; reflexivity | exact HC | exact Hs | exact Hup
    | lia | lia | clear s1 tr1 Hs Hup; intros s1 tr1 Hs Hup ].
  eapply (pipeline_step _ _ _ 2 2)%nat;
    [ apply (strict_seccomp_contract rank_spec K);
      apply apply_seccomp_filter_calls
    | intros; eexists; split; reflexivity | exact HC | exact Hs | exact Hup
    | lia | lia | clear s1 tr1 Hs Hup; intros s1 tr1 Hs Hup ].
  eapply (pipeline_step _ _ _ 3 3)%nat;
    [ apply (fixed_cap_drop_contract rank_spec)
    | intros; eexists; split; reflexivity | exact HC | exact Hs | exact Hup
    | lia | lia | clear s1 tr1 Hs Hup; intros s1 tr1 Hs Hup ].
  eapply (pipeline_step _ _ _ 4 4)%nat;
    [ apply (limits_contract rank_spec)
    | intros; eexists; split; reflexivity | exact HC | exact Hs | exact Hup
    | lia | lia | clear s1 tr1 Hs Hup; intros s1 tr1 Hs Hup ].
  destruct (change_to_sandbox_user_run K (SandboxFixed.uid cfg)
              (SandboxFixed.gid cfg) s1) as (r & s2 & Hrun & Haud & Hcases).
  rewrite (bind_ret_run _ _ _ _ _ Hrun).
  assert (Hord : forall tail,
             block rank_spec 5 6 tail -> in_order rank_spec (tr1 ++ tail) = true).
  { intros tail Hb. eapply upto_in_order.
    apply (upto_block rank_spec 4 5 6); [lia|lia|exact Hup|exact Hb]. }
  destruct Hcases as [(e & Htr & ->) | [(g & e & Htr & ->) |
                     [(g & u & Htr & ->) | (g & u & z & Htr & Hz & ->)]]].
  - rewrite neg_errno_neg. unfold SandboxFixed.audit_log_sandbox_failure.
    rewrite bind_log.
    exists (tr1 ++ [(SysSetgid (SandboxFixed.gid cfg), SysErr e)]).
    cbn [fst snd _exit]. rewrite trace_add_audit.
    split; [now rewrite Htr, Hs, <- app_assoc|].
    split; [apply Hord; split; [reflexivity|repeat constructor; cbn; lia]|].
    apply HC. apply ends_with_error_app.
    now exists [], (SysSetgid (SandboxFixed.gid cfg)), e.
  - rewrite neg_errno_neg. unfold SandboxFixed.audit_log_sandbox_failure.
    rewrite bind_log.
    exists (tr1 ++ [(SysSetgid (SandboxFixed.gid cfg), SysOk g);
                    (SysSetuid (SandboxFixed.uid cfg), SysErr e)]).
    cbn [fst snd _exit]. rewrite trace_add_audit.
    split; [now rewrite Htr, Hs, <- app_assoc|].
    split; [apply Hord; split; [reflexivity|repeat constructor; cbn; lia]|].
    apply HC. apply ends_with_error_app.
    now exists [(SysSetgid (SandboxFixed.gid cfg), SysOk g)],
      (SysSetuid (SandboxFixed.uid cfg)), e.
  - change (- EPERM <? 0) with true. cbv iota.
    unfold SandboxFixed.audit_log_sandbox_failure. rewrite bind_log.
    exists (tr1 ++ [(SysSetgid (SandboxFixed.gid cfg), SysOk g);
                    (SysSetuid (SandboxFixed.uid cfg), SysOk u);
                    (SysSetuid 0, SysOk 0)]).
    cbn [fst snd _exit]. rewrite trace_add_audit.
    split; [now rewrite Htr, Hs, <- app_assoc|].
    split; [apply Hord; split; [reflexivity|repeat constructor; cbn; lia]|].
    right. left. split; [reflexivity|]. split.
    + now exists tr1, g, u.
    + rewrite audit_add_audit. now eexists.
  - change (0 <? 0) with false. cbv iota. rewrite bind_syscall.
    unfold SandboxFixed.audit_log_sandbox_success. rewrite bind_log.
    unfold execve. rewrite bind_exec.
    set (s3 := add_audit _ _).
    destruct (sys K (trace s3) _) as [x|ex] eqn:Ex.
    + eexists (tr1 ++ [(SysSetgid (SandboxFixed.gid cfg), SysOk g);
                       (SysSetuid (SandboxFixed.uid cfg), SysOk u);
                       (SysSetuid 0, z); (SysGetpid, _); (_, SysOk x)]).
      cbn [fst snd]. subst s3.
      rewrite trace_push, trace_add_audit, trace_push, Htr, Hs.
      split; [now rewrite <- !app_assoc|].
      split; [apply Hord; split; [reflexivity|repeat constructor; cbn; lia]|].
      right. right. split; [reflexivity|].
      eexists tr1, g, u, z, _, x. split; [reflexivity|exact Hz].
    + eexists (tr1 ++ [(SysSetgid (SandboxFixed.gid cfg), SysOk g);
                       (SysSetuid (SandboxFixed.uid cfg), SysOk u);
                       (SysSetuid 0, z); (SysGetpid, _); (_, SysErr ex)]).
      cbn [fst snd _exit]. subst s3.
      rewrite trace_push, trace_add_audit, trace_push, Htr, Hs.
      split; [now rewrite <- !app_assoc|].
      split; [apply Hord; split; [reflexivity|repeat constructor; cbn; lia]|].
      apply HC. apply ends_with_error_app.
      now eexists [_; _; _; _], _, ex.
Qed.

(** ** Stage contracts of the phase 3 sandbox *)

Ltac ends_err :=
  intros _; repeat (apply ends_with_error_app); now eexists [], _, _.

(** Close a leaf of a symbolically executed stage function. *)
Ltac stage_leaf :=
  repeat run1; unfold ret;
  eexists _, _, _; (split; [reflexivity|]);
  (split; [ rewrite ?trace_add_audit, ?trace_push, <- ?app_assoc; reflexivity |]);
  (split; [ apply block_same_stage; rewrite ?Forall_app;
            repeat split; repeat constructor
          | first [ ends_err | cbn; lia | rewrite ?errno_push_err; lia ] ]).

Ltac stage_leaf_at rank X :=
  repeat run1; unfold ret;
  eexists _, _, _; (split; [reflexivity|]);
  (split; [ rewrite ?trace_add_audit, ?trace_push, <- ?app_assoc; reflexivity |]);
  (split; [ apply (block_same_stage rank X); rewrite ?Forall_app;
            repeat split; repeat constructor
          | first [ ends_err | cbn; lia | rewrite ?errno_push_err; lia ] ]).

Lemma capbset_drop_loop_run K caps s :
  exists s' tr,
    SandboxPhase3.capbset_drop_loop K caps s = (Ret tt, s') /\
    trace s' = trace s ++ tr /\
    Forall (fun ev => stage_of (fst ev) = Some StCapabilities \/
                      stage_of (fst ev) = None) tr.
Proof.
  revert s. induction caps as [|c caps IH]; intros s.
  - exists s, []. rewrite app_nil_r. repeat split. constructor.
  - cbn [SandboxPhase3.capbset_drop_loop]. rewrite bind_syscall.
    destruct (IH (push s (SysPrctl PR_CAPBSET_DROP c None)
                       (sys K (trace s) (SysPrctl PR_CAPBSET_DROP c None))))
      as (s' & tr & Hrun & Htr & Hst).
    exists s'. eexists (_ :: tr). split; [exact Hrun|].
    split; [now rewrite Htr, trace_push, <- app_assoc|].
    constructor; [now left|exact Hst].
Qed.

Lemma phase3_namespaces_contract K :
  stage_contract rank_phase3 0 1 (SandboxPhase3.setup_namespaces K).
Proof.
  intros s. unfold SandboxPhase3.setup_namespaces.
  answer v1 e1 E1.
  - rewrite bind_syscall.
    match goal with
    | |- context [if ?b then _ else _] => destruct b
    end; repeat run1; unfold ret;
      eexists _, _, [_; _]; (split; [reflexivity|]);
      (split; [ rewrite ?trace_add_audit, !trace_push, <- !app_assoc;
                reflexivity |]);
      (split; [split; [reflexivity|repeat constructor; cbn; lia] | lia]).
  - repeat run1. unfold ret. eexists _, _, [_]. split; [reflexivity|].
    split; [rewrite trace_add_audit; apply trace_push|].
    split; [split; [reflexivity|repeat constructor; cbn; lia]|].
    intros _. now eexists [], _, e1.
Qed.

Lemma phase3_limits_contract K :
  stage_contract rank_phase3 2 2 (SandboxPhase3.set_resource_limits K).
Proof.
  intros s. unfold SandboxPhase3.set_resource_limits. cbv zeta.
  answer v1 e1 E1; [answer v2 e2 E2; [answer v3 e3 E3|]|];
    stage_leaf_at rank_phase3 StLimits.
Qed.

Lemma phase3_capabilities_contract K :
  stage_contract rank_phase3 3 3 (SandboxPhase3.drop_capabilities_manual K).
Proof.
  intros s. unfold SandboxPhase3.drop_capabilities_manual.
  destruct (capbset_drop_loop_run K (map Z.of_nat (seq 0 38)) s)
    as (s1 & tr & Hrun & Htr & Hst).
  rewrite (bind_ret_run _ _ _ _ _ Hrun).
  answer v e E; repeat run1; unfold ret;
    eexists _, _, (tr ++ [_]); (split; [reflexivity|]);
    (split; [now rewrite ?trace_add_audit, trace_push, Htr, <- app_assoc|]);
    (split; [ apply (block_same_stage rank_phase3 StCapabilities);
              apply Forall_app; split; [exact Hst|];
              constructor; [now right|constructor] |]).
  - lia.
  - intros _. now exists tr, (SysPrctl PR_SET_NO_NEW_PRIVS 1 None), e.
Qed.

Lemma phase3_seccomp_contract K allowed n :
  stage_contract rank_phase3 5 5
                 (SandboxPhase3.install_seccomp_filter K allowed n).
Proof.
  intros s. unfold SandboxPhase3.install_seccomp_filter. cbv zeta.
  answer v1 e1 E1; [answer v2 e2 E2|]; repeat run1; unfold ret;
    eexists _, _, _; (split; [reflexivity|]);
    (split; [ rewrite ?trace_add_audit, ?trace_push, <- ?app_assoc;
              reflexivity |]);
    (split; [ apply (block_same_stage rank_phase3 StSeccomp);
              rewrite ?Forall_app; repeat split;
              (constructor; [first [now right | now left]|constructor])
            | first [ ends_err | lia ] ]).
Qed.

Lemma phase3_change_root_contract K cfg :
  inline_contract rank_phase3 1 1 (SandboxPhase3.change_root K cfg).
Proof.
  intros s. unfold SandboxPhase3.change_root.
  destruct (SandboxPhase3.chroot_dir cfg) as [dir|].
  - answer v1 e1 E1; [answer v2 e2 E2|]; repeat run1; unfold ret, _exit;
      eexists _, _, _; (split; [reflexivity|]);
      (split; [ rewrite ?trace_add_audit, ?trace_push, <- ?app_assoc;
                reflexivity |]);
      (split; [ apply (block_same_stage rank_phase3 StMounts);
                rewrite ?Forall_app; repeat split; repeat constructor |]);
      first [ now left | right; split; [reflexivity|];
                         repeat (apply ends_with_error_app);
                         now eexists [], _, _ ].
  - exists (Ret tt), s, []. rewrite app_nil_r.
    split; [reflexivity|]. split; [reflexivity|].
    split; [split; [reflexivity|constructor]|now left].
Qed.

Lemma phase3_change_user_group_contract K cfg :
  inline_contract rank_phase3 4 4 (SandboxPhase3.change_user_group K cfg).
Proof.
  intros s. unfold SandboxPhase3.change_user_group.
  assert (Hnil : forall st : pstate, trace st = trace st ++ [])
    by (intros; now rewrite app_nil_r).
  destruct (SandboxPhase3.gid cfg >? 0);
    [rewrite bind_assoc; answer v1 e1 E1|]; repeat run1;
    try (destruct (SandboxPhase3.uid cfg >? 0);
         [rewrite bind_assoc; answer v2 e2 E2|]); repeat run1;
    unfold ret, _exit;
    eexists _, _, _; (split; [reflexivity|]);
    (split; [ rewrite ?trace_add_audit, ?trace_push, <- ?app_assoc;
              first [reflexivity | apply Hnil] |]);
    (split; [ apply (block_same_stage rank_phase3 StPrivilege);
              rewrite ?Forall_app; repeat split; repeat constructor |]);
    first [ now left | right; split; [reflexivity|];
                       repeat (apply ends_with_error_app);
                       now eexists [], _, _ ].
Qed.

(** ** The child of the phase 3 sandbox *)

Lemma phase3_cases_error cfg prog tr st :
  ends_with_error tr -> phase3_cases cfg prog (Exited EXIT_FAILURE) tr st.
Proof. intros H. left. now split. Qed.

Lemma phase3_child_run K cfg prog s :
  child_post rank_phase3 (phase3_cases cfg prog) s
             (SandboxPhase3.sandbox_child K cfg prog s).
Proof.
  assert (HC := phase3_cases_error cfg prog).
  assert (Hs : trace s = trace s ++ []) by now rewrite app_nil_r.
  assert (Hup := upto_nil rank_phase3 0).
  unfold SandboxPhase3.sandbox_child.
  eapply (pipeline_step _ _ _ 0 1)%nat;
    [ apply phase3_namespaces_contract
    | intros; eexists; split; reflexivity | exact HC | exact Hs | exact Hup
    | lia | lia | clear Hs Hup; intros s1 tr1 Hs Hup ].
  eapply (pipeline_inline _ _ _ 1 1)%nat;
    [ apply phase3_change_root_contract | exact HC | exact Hs | exact Hup
    | lia | lia | clear s1 tr1 Hs Hup; intros s1 tr1 Hs Hup ].
  eapply (pipeline_step _ _ _ 2 2)%nat;
    [ apply phase3_limits_contract
    | intros; eexists; split; reflexivity | exact HC | exact Hs | exact Hup
    | lia | lia | clear s1 tr1 Hs Hup; intros s1 tr1 Hs Hup ].
  eapply (pipeline_step _ _ _ 3 3)%nat;
    [ apply phase3_capabilities_contract
    | intros; eexists; split; reflexivity | exact HC | exact Hs | exact Hup
    | lia | lia | clear s1 tr1 Hs Hup; intros s1 tr1 Hs Hup ].
  eapply (pipeline_inline _ _ _ 4 4)%nat;
    [ apply phase3_change_user_group_contract | exact HC | exact Hs | exact Hup
    | lia | lia | clear s1 tr1 Hs Hup; intros s1 tr1 Hs Hup ].
  eapply (pipeline_step _ _ _ 5 5)%nat;
    [ apply phase3_seccomp_contract
    | intros; eexists; split; reflexivity | exact HC | exact Hs | exact Hup
    | lia | lia | clear s1 tr1 Hs Hup; intros s1 tr1 Hs Hup ].
  unfold execve. rewrite bind_exec.
  assert (Hord : forall tail,
             block rank_phase3 6 6 tail ->
             in_order rank_phase3 (tr1 ++ tail) = true).
  { intros tail Hb. eapply upto_in_order.
    apply (upto_block rank_phase3 5 6 6); [lia|lia|exact Hup|exact Hb]. }
  destruct (sys K (trace s1) _) as [x|ex] eqn:Ex.
  - eexists (tr1 ++ [(_, SysOk x)]). cbn [fst snd].
    rewrite trace_push, Hs. split; [now rewrite <- app_assoc|].
    split; [apply Hord; split; [reflexivity|repeat constructor; cbn; lia]|].
    now right.
  - rewrite bind_log. eexists (tr1 ++ [(_, SysErr ex)]). cbn [fst snd _exit].
    rewrite trace_add_audit, trace_push, Hs.
    split; [now rewrite <- app_assoc|].
    split; [apply Hord; split; [reflexivity|repeat constructor; cbn; lia]|].
    apply HC. apply ends_with_error_app. now eexists [], _, ex.
Qed.

(** ** The user change of app_sandbox.c *)

Lemma app_change_user_run K policy s :
  exists bad s',
    AppSandbox.change_user K policy s = (Ret bad, s') /\
    audit s' = audit s /\
    ((exists e, trace s' = trace s ++ [(SysSetgid (AppSandbox.sandbox_gid policy),
                                        SysErr e)] /\ bad = true) \/
     (exists g e, trace s' = trace s ++
                     [(SysSetgid (AppSandbox.sandbox_gid policy), SysOk g);
                      (SysSetuid (AppSandbox.sandbox_uid policy), SysErr e)] /\
                  bad = true) \/
     (exists g u, trace s' = trace s ++
                     [(SysSetgid (AppSandbox.sandbox_gid policy), SysOk g);
                      (SysSetuid (AppSandbox.sandbox_uid policy), SysOk u)] /\
                  bad = false)).
Proof.
  unfold AppSandbox.change_user. answer g e E1.
  - rewrite bind_syscall.
    destruct (sys K (trace (push s _ _)) (SysSetuid _)) as [u|e] eqn:E2;
      unfold ret; eexists _, _; (split; [reflexivity|]);
      (split; [reflexivity|]); right; [right; exists g, u | left; exists g, e];
      rewrite !trace_push, <- app_assoc; split; try reflexivity.
    apply rv_ok_nonneg.
  - unfold ret. eexists _, _; (split; [reflexivity|]); (split; [reflexivity|]).
    left. exists e. rewrite trace_push. split; reflexivity.
Qed.

(** ** The child of secure_sandbox_fixed.c as the builder *)

Lemma bind_cong {A B} (m : proc A) (f g : A -> proc B) s :
  (forall a s', f a s' = g a s') -> bind m f s = bind m g s.
Proof.
  intros H. unfold bind. destruct (m s) as [[a|c|p a e] s']; trivial.
Qed.

Lemma builder_step {A B} (m : proc Z) (f : Z -> proc B) (g : Z -> proc A)
    (k : A -> proc B) s :
  (forall r s', f r s' = bind (g r) k s') ->
  bind m f s = bind (bind m g) k s.
Proof. intros H. rewrite bind_assoc. now apply bind_cong. Qed.

(** The child of secure_sandbox_fixed.c is the specification's builder run
    on its six stage functions. *)
Lemma fixed_child_is_builder K cfg s :
  SandboxFixed.sandbox_child K cfg s =
  builder (fixed_action K cfg) spec_order fixed_report (fixed_ready K cfg) s.
Proof.
  unfold SandboxFixed.sandbox_child, builder, spec_order.
  cbn [run_stages fixed_action].
  repeat (apply builder_step; clear s; intros r s;
          destruct (r <? 0); [reflexivity|]; clear r).
  reflexivity.
Qed.

(** ** Validation before the fork *)

(** [create_secure_sandbox] of secure_sandbox_fixed.c leaves with -EINVAL
    exactly when the validation returned 0, and goes on to [fork] when
    the validation returned an error. *)
Lemma create_inverts_validation K cfg s v s' :
  SandboxFixed.validate_sandbox_config K (Some cfg) s = (Ret v, s') ->
  (v = 0 ->
   SandboxFixed.create_secure_sandbox K (Some cfg) s = (Ret (- EINVAL), s')) /\
  (v <> 0 ->
   exists o s'',
     SandboxFixed.create_secure_sandbox K (Some cfg) s = (o, s'') /\
     exists tr, trace s'' = trace s' ++ (SysFork, sys K (trace s') SysFork) :: tr).
Proof.
  intros Hv. unfold SandboxFixed.create_secure_sandbox.
  rewrite (bind_ret_run _ _ _ _ _ Hv). split.
  - intros ->. reflexivity.
  - intros Hne. apply Z.eqb_neq in Hne. rewrite Hne. rewrite bind_syscall.
    destruct (rv (sys K (trace s') SysFork) <? 0).
    + rewrite bind_get_errno. unfold ret. eexists _, _. split; [reflexivity|].
      exists []. apply trace_push.
    + destruct (rv (sys K (trace s') SysFork) =? 0).
      * destruct (fixed_child_run K cfg (push s' SysFork (sys K (trace s') SysFork)))
          as (tr & Htr & _).
        eexists _, _. split; [apply surjective_pairing|].
        exists tr. rewrite Htr, trace_push, <- app_assoc. reflexivity.
      * unfold ret. eexists _, _. split; [reflexivity|].
        exists []. apply trace_push.
Qed.

(** C3 (code evaluated at the failing input). A caller with uid 1000
    submits a policy with target uid 0: [validate_sandbox_config] answers
    -EPERM, yet [create_secure_sandbox] forks and returns the child's pid;
    a valid policy (uid 1000) is the one that is turned away, with
    -EINVAL and no fork. *)
Theorem root_policy_is_forked :
  SandboxFixed.validate_sandbox_config parent_kernel (Some root_config)
    initial_pstate
  = (Ret (- EPERM), mk_pstate [(SysGetuid, SysOk 1000)] 0 []) /\
  SandboxFixed.create_secure_sandbox parent_kernel (Some root_config)
    initial_pstate
  = (Ret 4242, mk_pstate [(SysGetuid, SysOk 1000); (SysFork, SysOk 4242)] 0 []) /\
  SandboxFixed.create_secure_sandbox parent_kernel (Some demo_config)
    initial_pstate
  = (Ret (- EINVAL), initial_pstate).
Proof. repeat split. Qed.

(** ** Termination of an application sandbox *)

(** C7 (as amended). [terminate_app_sandbox] keeps no record of a
    finished process: on every non-null context it first sends SIGTERM to
    the stored pid. When that [kill] fails the call returns [-errno] and
    leaves the context as it was; when it succeeds the call sleeps and
    polls with a non-blocking [waitpid]: exactly when the poll returns 0
    (the process is still there) it sends SIGKILL and reaps with a
    blocking [waitpid], and otherwise it makes no further call; then it
    writes the audit line, sets the status to 0 and returns 0. A null
    context gives -EINVAL. *)
Theorem terminate_sends_sigterm (K : kernel)
    (c : AppSandbox.app_sandbox_context) (s : pstate) :
  AppSandbox.terminate_app_sandbox K None s = (Ret (- EINVAL, None), s) /\
  let pid := AppSandbox.sandbox_pid c in
  match sys K (trace s) (SysKill pid SIGTERM) with
  | SysErr e =>
      AppSandbox.terminate_app_sandbox K (Some c) s =
      (Ret (- Z.pos e, Some c),
       mk_pstate (trace s ++ [(SysKill pid SIGTERM, SysErr e)]) (Z.pos e)
                 (audit s))
  | SysOk v =>
      exists s' r1 r2 tr,
        AppSandbox.terminate_app_sandbox K (Some c) s =
        (Ret (0, Some (AppSandbox.mk_context pid (AppSandbox.policy c) 0
                         (AppSandbox.start_time c))), s') /\
        trace s' = trace s ++ (SysKill pid SIGTERM, SysOk v) ::
                              (SysSleep 5, r1) ::
                              (SysWaitpid pid WNOHANG, r2) :: tr /\
        ((rv r2 <> 0 /\ tr = []) \/
         exists r3 r4, rv r2 = 0 /\
                       tr = [(SysKill pid SIGKILL, r3); (SysWaitpid pid 0, r4)]) /\
        audit s' = audit s ++
                   [AuditApp "termination"
                             (AppSandbox.app_name (AppSandbox.policy c)) 0]
  end.
Proof.
  split; [reflexivity|]. cbv zeta.
  unfold AppSandbox.terminate_app_sandbox.
  rewrite bind_syscall.
  destruct (sys K (trace s) (SysKill (AppSandbox.sandbox_pid c) SIGTERM))
    as [v|e] eqn:E1.
  - rewrite rv_ok_nonneg. cbv iota. rewrite bind_syscall, bind_waitpid.
    cbn [fst].
    set (s2 := push (push s _ _) _ _).
    set (r2 := sys K (trace s2) _).
    unfold AppSandbox.audit_log_app_sandbox_event.
    destruct (rv r2 =? 0) eqn:Hz.
    + rewrite bind_assoc, bind_syscall. cbv beta.
      rewrite bind_assoc, bind_waitpid, bind_ret, bind_log.
      unfold ret.
      eexists _, _, r2, [_; _]. split; [reflexivity|].
      rewrite trace_add_audit, audit_add_audit, !trace_push.
      subst s2. rewrite !trace_push, <- !app_assoc.
      split; [reflexivity|]. split; [|reflexivity].
      right. eexists _, _. split; [now apply Z.eqb_eq|reflexivity].
    + rewrite bind_ret, bind_log. unfold ret.
      eexists _, _, r2, []. split; [reflexivity|].
      rewrite trace_add_audit, audit_add_audit, !trace_push.
      subst s2. rewrite !trace_push, <- !app_assoc.
      split; [reflexivity|]. split; [|reflexivity].
      left. split; [now apply Z.eqb_neq|reflexivity].
  - rewrite rv_err_neg. cbv iota. rewrite bind_get_errno.
    rewrite errno_push_err. reflexivity.
Qed.

(** C7, as stated, fails: for a process that has already exited, the first
    [terminate_app_sandbox] reaps it and returns 0; the second call on the
    same context is not a no-op (it sends SIGTERM again) and returns the
    error -ESRCH. *)
Lemma terminate_twice_differs :
  exists ctx1 s1 s2,
    AppSandbox.terminate_app_sandbox exited_kernel (Some demo_context)
      initial_pstate = (Ret (0, Some ctx1), s1) /\
    AppSandbox.status ctx1 = 0 /\
    AppSandbox.terminate_app_sandbox exited_kernel (Some ctx1) s1
    = (Ret (- ESRCH, Some ctx1), s2) /\
    trace s2 = trace s1 ++ [(SysKill 4242 SIGTERM, SysErr 3)].
Proof. eexists _, _, _. vm_compute. repeat split. Qed.

(** ** The security monitor: rule matching *)

Lemma prefix_occurs p t :
  String.prefix p t = true <-> exists b, t = String.append p b.
Proof.
  revert t. induction p as [|c p IH]; intros t.
  - split; [intros _; now exists t | intros _; now destruct t].
  - destruct t as [|d t]; cbn [String.prefix].
    + split; [discriminate|]. intros (b & H). discriminate.
    + destruct (Ascii.ascii_dec c d) as [->|Hne].
      * rewrite IH. split; intros (b & H); exists b.
        -- cbn. now rewrite H.
        -- cbn in H. now inversion H.
      * split; [discriminate|]. intros (b & H). cbn in H. inversion H.
        congruence.
Qed.

Lemma strstr_occurs t p :
  (exists n, Monitor.strstr t p = Some n) <-> occurs_in p t.
Proof.
  split.
  - revert p. induction t as [|c t IH]; intros p (n & H);
      cbn [Monitor.strstr] in H;
      destruct (String.prefix p _) eqn:Hp.
    + apply prefix_occurs in Hp as (b & Hb). now exists EmptyString, b.
    + discriminate.
    + apply prefix_occurs in Hp as (b & Hb). now exists EmptyString, b.
    + destruct (Monitor.strstr t p) as [m|] eqn:Hm; [|discriminate].
      destruct (IH p (ex_intro _ m Hm)) as (a & b & Hab).
      exists (String c a), b. cbn. now rewrite Hab.
  - intros (a & b & H). revert t H.
    induction a as [|c a IH]; intros t H.
    + cbn in H. destruct t; cbn [Monitor.strstr];
        replace (String.prefix p _) with true; eauto;
        symmetry; apply prefix_occurs; now exists b.
    + subst t.
      change (String.append (String c a) (String.append p b))
        with (String c (String.append a (String.append p b))).
      cbn [Monitor.strstr].
      match goal with
      | |- context [String.prefix p ?x] => destruct (String.prefix p x)
      end; [eauto|].
      destruct (IH _ eq_refl) as (n & ->). cbn. eauto.
Qed.

Lemma triggers_iff e r :
  triggers e r = true <->
  Monitor.enabled r <> 0 /\ Monitor.event_type r = Monitor.type e /\
  occurs_in (Monitor.pattern r) (Monitor.details e).
Proof.
  unfold triggers, Monitor.match_rule_pattern.
  rewrite !andb_true_iff, !negb_true_iff, Z.eqb_neq, Z.eqb_eq.
  rewrite <- strstr_occurs.
  destruct (Monitor.strstr _ _) as [n|]; cbn.
  - split; [intros [[H1 H2] _]|intros (H1 & H2 & _)]; eauto.
  - split; [intros [_ H]; discriminate|].
    intros (_ & _ & (n & H)). discriminate.
Qed.

Lemma apply_rule_triggers e n out r :
  Monitor.apply_rule e (n, out) r =
  if triggers e r then (Monitor.int_incr n, out ++ match_log (e, r))
  else (n, out).
Proof.
  unfold Monitor.apply_rule, triggers, match_log.
  destruct (Monitor.enabled r =? 0); cbn [negb andb orb]; [reflexivity|].
  destruct (Monitor.event_type r =? Monitor.type e); cbn [negb andb orb];
    [|reflexivity].
  destruct (Monitor.match_rule_pattern _ _ =? 0); cbn [negb]; [reflexivity|].
  destruct (Monitor.action r =? 0); [reflexivity|].
  destruct (Monitor.action r =? 1); [reflexivity|].
  destruct (Monitor.action r =? 2); [reflexivity|].
  now rewrite app_nil_r.
Qed.

Lemma apply_rules_matches e rs n out :
  let ms := List.filter (fun m => triggers (fst m) (snd m)) (map (pair e) rs) in
  Monitor.apply_rules rs (n, out) e =
  (Nat.iter (length ms) Monitor.int_incr n, out ++ flat_map match_log ms).
Proof.
  unfold Monitor.apply_rules. revert n out.
  induction rs as [|r rs IH]; intros n out; cbn [fold_left map List.filter].
  - cbn. now rewrite app_nil_r.
  - rewrite apply_rule_triggers. cbn [fst snd].
    destruct (triggers e r); rewrite IH; [|reflexivity].
    cbn [length flat_map]. rewrite Nat.iter_succ_r, app_assoc. reflexivity.
Qed.

Lemma process_loop_matches evs rs n out :
  fold_left (Monitor.apply_rules rs) evs (n, out) =
  (Nat.iter (length (matches_of evs rs)) Monitor.int_incr n,
   out ++ flat_map match_log (matches_of evs rs)).
Proof.
  unfold matches_of. revert n out.
  induction evs as [|e evs IH]; intros n out; cbn [fold_left list_prod].
  - cbn. now rewrite app_nil_r.
  - rewrite apply_rules_matches. cbv zeta. rewrite IH.
    rewrite List.filter_app, length_app, flat_map_app, app_assoc.
    f_equal. rewrite Nat.add_comm. symmetry. apply Nat.iter_add.
Qed.

Lemma iter_int_incr k n :
  0 <= n -> n + Z.of_nat k < 2 ^ 31 ->
  Nat.iter k Monitor.int_incr n = n + Z.of_nat k.
Proof.
  intros Hn. induction k as [|k IH]; intros Hb.
  - cbn. lia.
  - rewrite Nat.iter_succ, IH by lia. unfold Monitor.int_incr. cbv zeta.
    replace (n + Z.of_nat k + 1 <? 2 ^ 31) with true by (symmetry; lia).
    lia.
Qed.

Lemma matches_bound evs rs :
  (length (matches_of evs rs) <= length evs * length rs)%nat.
Proof.
  unfold matches_of. etransitivity; [apply List.filter_length_le|].
  now rewrite length_prod.
Qed.

(** C9. On an initialised monitor whose counts are within the arrays,
    [process_security_events] returns the number of (event, rule) matches
    over all buffered events and all loaded rules, and writes one line per
    match (its priority given by the rule's action), events in arrival
    order and every rule tried on every event; a rule matches an event
    exactly when it is enabled, its event type is the event's and its
    pattern occurs in the event's detail text. *)
Theorem process_counts_all_matches (s : Monitor.monitor_state) :
  Monitor.monitor_initialized s <> 0 ->
  0 <= Monitor.event_count s <= Monitor.MAX_EVENTS ->
  0 <= Monitor.rule_count s <= Monitor.MAX_RULES ->
  let ms := matches_of (buffered_events s) (loaded_rules s) in
  Monitor.process_security_events s =
  (Z.of_nat (length ms),
   Monitor.mk_monitor (Monitor.events s) (Monitor.rules s)
     (Monitor.event_count s) (Monitor.rule_count s)
     (Monitor.monitor_initialized s)
     (Monitor.syslog s ++ flat_map match_log ms)) /\
  (forall e r, In (e, r) ms <->
               In e (buffered_events s) /\ In r (loaded_rules s) /\
               Monitor.enabled r <> 0 /\
               Monitor.event_type r = Monitor.type e /\
               occurs_in (Monitor.pattern r) (Monitor.details e)).
Proof.
  intros Hinit He Hr ms. split.
  - unfold Monitor.process_security_events.
    apply Z.eqb_neq in Hinit. rewrite Hinit.
    fold (buffered_events s). fold (loaded_rules s).
    rewrite process_loop_matches. fold ms.
    rewrite iter_int_incr; [reflexivity|lia|].
    pose proof (matches_bound (buffered_events s) (loaded_rules s)) as Hb.
    fold ms in Hb.
    unfold Monitor.MAX_EVENTS, Monitor.MAX_RULES in *.
    assert (H1 : Z.of_nat (length (buffered_events s)) <= 10000).
    { unfold buffered_events. rewrite length_take. lia. }
    assert (H2 : Z.of_nat (length (loaded_rules s)) <= 1000).
    { unfold loaded_rules. rewrite length_take. lia. }
    apply Nat2Z.inj_le in Hb. rewrite Nat2Z.inj_mul in Hb. nia.
  - intros e r. unfold ms, matches_of.
    rewrite List.filter_In, in_prod_iff. cbn [fst snd]. rewrite triggers_iff.
    tauto.
Qed.

Lemma process_counts_all_matches_witness :
  Monitor.process_security_events demo_monitor =
  (2, Monitor.mk_monitor (Monitor.events demo_monitor) demo_rules 2 5 1
        [(Monitor.LOG_ALERT,
          Monitor.LogSecurityAlert 1 "open /etc/shadow denied");
         (Monitor.LOG_WARNING,
          Monitor.LogRuleTriggered 2 "open /etc/shadow denied")]).
Proof.
  assert (Hinit : Monitor.monitor_initialized demo_monitor <> 0)
    by (simpl; lia).
  assert (He : 0 <= Monitor.event_count demo_monitor <= Monitor.MAX_EVENTS)
    by (unfold Monitor.MAX_EVENTS; simpl; lia).
  assert (Hr : 0 <= Monitor.rule_count demo_monitor <= Monitor.MAX_RULES)
    by (unfold Monitor.MAX_RULES; simpl; lia).
  exact (proj1 (process_counts_all_matches demo_monitor Hinit He Hr)).
Defined.

(** ** The security monitor: the event buffer *)

Lemma process_keeps_buffer s :
  Monitor.events (snd (Monitor.process_security_events s)) = Monitor.events s /\
  Monitor.event_count (snd (Monitor.process_security_events s))
  = Monitor.event_count s /\
  Monitor.monitor_initialized (snd (Monitor.process_security_events s))
  = Monitor.monitor_initialized s.
Proof.
  unfold Monitor.process_security_events.
  destruct (Monitor.monitor_initialized s =? 0); [now repeat split|].
  destruct (fold_left _ _ _) as [processed out]. now repeat split.
Qed.

Lemma check_keeps_buffer s :
  Monitor.events (snd (Monitor.check_security_violations s)) = Monitor.events s /\
  Monitor.event_count (snd (Monitor.check_security_violations s))
  = Monitor.event_count s /\
  Monitor.monitor_initialized (snd (Monitor.check_security_violations s))
  = Monitor.monitor_initialized s.
Proof.
  unfold Monitor.check_security_violations.
  destruct (Monitor.monitor_initialized s =? 0); [now repeat split|].
  destruct (fold_left _ _ _) as [violations out]. now repeat split.
Qed.

Lemma load_keeps_buffer file s :
  Monitor.events (snd (Monitor.load_security_rules file s)) = Monitor.events s /\
  Monitor.event_count (snd (Monitor.load_security_rules file s))
  = Monitor.event_count s /\
  Monitor.monitor_initialized (snd (Monitor.load_security_rules file s))
  = Monitor.monitor_initialized s.
Proof.
  unfold Monitor.load_security_rules.
  destruct (Monitor.monitor_initialized s =? 0); [now repeat split|].
  destruct file as [e|lines]; [now repeat split|].
  destruct (Monitor.load_loop _ _ _) as [rules rule_count]. now repeat split.
Qed.

(** What [add_security_event] does to a state that satisfies the
    invariant. *)
Lemma add_security_event_run now event s :
  monitor_inv s ->
  exists r s' event',
    Monitor.add_security_event now event s = (r, s', event') /\
    monitor_inv s' /\
    ((r = - EINVAL /\ s' = s /\ event' = event /\
      (Monitor.monitor_initialized s = 0 \/ event = None \/
       Monitor.event_count s >= Monitor.MAX_EVENTS)) \/
     (r = 0 /\ Monitor.monitor_initialized s <> 0 /\
      Monitor.event_count s < Monitor.MAX_EVENTS /\
      exists ev,
        event = Some ev /\ event' = Some (Monitor.stamp now ev) /\
        Monitor.event_count s' = Monitor.event_count s + 1 /\
        length (Monitor.events s') = length (Monitor.events s) /\
        buffered_events s' = buffered_events s ++ [Monitor.stamp now ev])).
Proof.
  intros (Hc & Hlen & Hzero). unfold Monitor.add_security_event.
  destruct (Z.eqb_spec (Monitor.monitor_initialized s) 0) as [Hi|Hi].
  { eexists _, _, _. split; [reflexivity|]. split; [now repeat split|].
    left. auto. }
  destruct event as [ev|].
  2:{ eexists _, _, _. split; [reflexivity|]. split; [now repeat split|].
      left. repeat split; auto. }
  destruct (Monitor.event_count s >=? Monitor.MAX_EVENTS) eqn:Hfull.
  { eexists _, _, _. split; [reflexivity|]. split; [now repeat split|].
    left. repeat split; auto. right. right. lia. }
  assert (Hlt : Monitor.event_count s < Monitor.MAX_EVENTS) by lia.
  assert (Hslot : (Z.to_nat (Monitor.event_count s) < length (Monitor.events s))%nat)
    by (rewrite Hlen; lia).
  assert (Hbuf :
    take (Z.to_nat (Monitor.event_count s + 1))
         (<[Z.to_nat (Monitor.event_count s) := Monitor.stamp now ev]>
            (Monitor.events s))
    = take (Z.to_nat (Monitor.event_count s)) (Monitor.events s)
      ++ [Monitor.stamp now ev]).
  { replace (Z.to_nat (Monitor.event_count s + 1))
      with (S (Z.to_nat (Monitor.event_count s))) by lia.
    rewrite (take_S_r _ _ (Monitor.stamp now ev))
      by (now apply list_lookup_insert_eq).
    now rewrite take_insert_ge by lia. }
  eexists _, _, _. split; [reflexivity|].
  destruct (Monitor.severity (Monitor.stamp now ev) >=? 8);
    unfold monitor_inv, buffered_events, Monitor.write_syslog;
    cbn [Monitor.events Monitor.event_count Monitor.monitor_initialized];
    rewrite length_insert.
  - split; [repeat split; try lia; now intros|]. right.
    repeat split; try assumption. exists ev. repeat split. exact Hbuf.
  - split; [repeat split; try lia; now intros|]. right.
    repeat split; try assumption. exists ev. repeat split. exact Hbuf.
Qed.

Lemma run_op_inv s op :
  monitor_inv s ->
  monitor_inv (run_op s op) /\
  exists added, buffered_events (run_op s op) = buffered_events s ++ added.
Proof.
  intros Hinv. destruct op as [|now event|file| |]; cbn [run_op].
  - unfold Monitor.init_security_monitor.
    destruct (Z.eqb_spec (Monitor.monitor_initialized s) 0) as [Hi|Hi];
      cbn [negb snd].
    + split.
      * unfold monitor_inv, Monitor.write_syslog.
        cbn [Monitor.events Monitor.event_count Monitor.monitor_initialized].
        rewrite length_replicate. unfold Monitor.MAX_EVENTS.
        repeat split; try lia.
      * exists []. destruct Hinv as (_ & _ & Hz).
        unfold buffered_events, Monitor.write_syslog.
        cbn [Monitor.events Monitor.event_count]. rewrite (Hz Hi).
        reflexivity.
    + split; [exact Hinv|]. exists []. now rewrite app_nil_r.
  - destruct (add_security_event_run now event s Hinv)
      as (r & s' & event' & Hrun & Hinv' & Hc).
    rewrite Hrun. cbn [fst snd]. split; [exact Hinv'|].
    destruct Hc as [(_ & -> & _) | (_ & _ & _ & ev & _ & _ & _ & _ & Hb)].
    + exists []. now rewrite app_nil_r.
    + now exists [Monitor.stamp now ev].
  - destruct (load_keeps_buffer file s) as (He & Hc & Hi). split.
    + unfold monitor_inv. rewrite He, Hc, Hi. exact Hinv.
    + exists []. unfold buffered_events. now rewrite He, Hc, app_nil_r.
  - destruct (process_keeps_buffer s) as (He & Hc & Hi). split.
    + unfold monitor_inv. rewrite He, Hc, Hi. exact Hinv.
    + exists []. unfold buffered_events. now rewrite He, Hc, app_nil_r.
  - destruct (check_keeps_buffer s) as (He & Hc & Hi). split.
    + unfold monitor_inv. rewrite He, Hc, Hi. exact Hinv.
    + exists []. unfold buffered_events. now rewrite He, Hc, app_nil_r.
Qed.

Lemma initial_monitor_inv : monitor_inv Monitor.initial_monitor.
Proof.
  unfold monitor_inv, Monitor.initial_monitor.
  cbn [Monitor.events Monitor.event_count Monitor.monitor_initialized].
  rewrite length_replicate. unfold Monitor.MAX_EVENTS. repeat split; lia.
Qed.

Lemma run_ops_inv ops : monitor_inv (run_ops ops).
Proof.
  unfold run_ops. induction ops as [|op ops IH] using rev_ind.
  - apply initial_monitor_inv.
  - rewrite fold_left_app. cbn [fold_left]. now apply run_op_inv.
Qed.

(** C10. In every state the monitor reaches from program start by
    initialising, adding events, loading rules, processing and checking,
    the event count
    lies between 0 and MAX_EVENTS. There [add_security_event] either
    returns -EINVAL and changes nothing, which happens exactly when the
    monitor is not initialised, the event pointer is null or the buffer
    holds MAX_EVENTS events, or it returns 0, raises the count by one and
    appends the (time-stamped) event after the events already stored; and
    no operation ever changes or removes an event that is already in the
    buffer. *)
Theorem event_buffer_append_only (ops : list monitor_op) (now : Z)
    (event : option Monitor.security_event) :
  let s := run_ops ops in
  0 <= Monitor.event_count s <= Monitor.MAX_EVENTS /\
  (exists r s' event',
      Monitor.add_security_event now event s = (r, s', event') /\
      0 <= Monitor.event_count s' <= Monitor.MAX_EVENTS /\
      ((r = - EINVAL /\ s' = s /\ event' = event /\
        (Monitor.monitor_initialized s = 0 \/ event = None \/
         Monitor.event_count s >= Monitor.MAX_EVENTS)) \/
       (r = 0 /\ Monitor.monitor_initialized s <> 0 /\
        Monitor.event_count s < Monitor.MAX_EVENTS /\
        exists ev,
          event = Some ev /\ event' = Some (Monitor.stamp now ev) /\
          Monitor.event_count s' = Monitor.event_count s + 1 /\
          length (Monitor.events s') = length (Monitor.events s) /\
          buffered_events s' = buffered_events s ++ [Monitor.stamp now ev]))) /\
  (forall op, exists added,
      buffered_events (run_op s op) = buffered_events s ++ added).
Proof.
  intros s. pose proof (run_ops_inv ops) as Hinv. fold s in Hinv.
  split; [apply Hinv|]. split.
  - destruct (add_security_event_run now event s Hinv)
      as (r & s' & event' & Hrun & Hinv' & Hc).
    exists r, s', event'. split; [exact Hrun|]. split; [apply Hinv'|exact Hc].
  - intros op. apply (run_op_inv s op Hinv).
Qed.

(** * Further properties of the embedded code *)

(** ** Validation of policies *)

(** X1. [validate_app_policy] accepts a policy exactly when its name is
    not empty, its uid is not 0, memory and CPU limit are not 0 and the
    file and syscall counts are within the static maxima; a named policy
    with uid 0 is always answered with -EPERM, a null policy with
    -EINVAL, and no other result exists. *)
Theorem validate_app_policy_accepts (p : AppSandbox.app_sandbox_policy) :
  (AppSandbox.validate_app_policy (Some p) = 0 <->
   AppSandbox.app_name p <> EmptyString /\ AppSandbox.sandbox_uid p <> 0 /\
   AppSandbox.memory_limit p <> 0 /\ AppSandbox.cpu_limit p <> 0 /\
   AppSandbox.file_count p <= AppSandbox.MAX_ALLOWED_FILES /\
   AppSandbox.syscall_count p <= AppSandbox.MAX_ALLOWED_SYSCALLS) /\
  (AppSandbox.validate_app_policy (Some p) = - EPERM <->
   AppSandbox.app_name p <> EmptyString /\ AppSandbox.sandbox_uid p = 0) /\
  (AppSandbox.validate_app_policy (Some p) = 0 \/
   AppSandbox.validate_app_policy (Some p) = - EINVAL \/
   AppSandbox.validate_app_policy (Some p) = - EPERM) /\
  AppSandbox.validate_app_policy None = - EINVAL.
Proof.
  unfold AppSandbox.validate_app_policy, EPERM, EINVAL.
  destruct (String.eqb_spec (AppSandbox.app_name p) EmptyString) as [Hn|Hn];
    destruct (Z.eqb_spec (AppSandbox.sandbox_uid p) 0) as [Hu|Hu];
    destruct (Z.eqb_spec (AppSandbox.memory_limit p) 0) as [Hm|Hm];
    destruct (Z.eqb_spec (AppSandbox.cpu_limit p) 0) as [Hc|Hc];
    destruct (AppSandbox.file_count p >? AppSandbox.MAX_ALLOWED_FILES) eqn:Hf;
    destruct (AppSandbox.syscall_count p >? AppSandbox.MAX_ALLOWED_SYSCALLS)
      eqn:Hs;
    cbn [orb];
    (split; [|split; [|split]]);
    try reflexivity;
    try (split; intros H; [try discriminate | ];
         repeat match goal with H : _ /\ _ |- _ => destruct H end;
         try congruence; try lia; repeat split; try assumption; try lia);
    auto.
Qed.

Lemma validate_app_policy_cases p :
  AppSandbox.validate_app_policy (Some p) = 0 \/
  AppSandbox.validate_app_policy (Some p) = - EINVAL \/
  AppSandbox.validate_app_policy (Some p) = - EPERM.
Proof.
  unfold AppSandbox.validate_app_policy.
  repeat match goal with
         | |- context [if ?b then _ else _] => destruct b
         end; auto.
Qed.

(** X2. [create_app_sandbox] on a policy that the validation rejects
    makes no system call at all (so nothing is forked): it writes the
    validation audit line and returns the validation error. *)
Theorem create_app_sandbox_rejects (K : kernel)
    (p : AppSandbox.app_sandbox_policy) (app_path : string)
    (argv : list string) (s : pstate) :
  AppSandbox.validate_app_policy (Some p) <> 0 ->
  AppSandbox.create_app_sandbox K p app_path argv s =
  (Ret (AppSandbox.validate_app_policy (Some p)),
   mk_pstate (trace s) (errno s)
     (audit s ++ [AuditApp "validation" (AppSandbox.app_name p)
                           (AppSandbox.validate_app_policy (Some p))])).
Proof.
  intros Hne. unfold AppSandbox.create_app_sandbox.
  destruct (validate_app_policy_cases p) as [H | [H | H]];
    rewrite H in *; try congruence; reflexivity.
Qed.

Lemma create_app_sandbox_rejects_witness :
  AppSandbox.create_app_sandbox parent_kernel zero_policy "/bin/true" []
    initial_pstate =
  (Ret (- EINVAL), mk_pstate [] 0 [AuditApp "validation" "demo" (- EINVAL)]).
Proof.
  assert (H : AppSandbox.validate_app_policy (Some zero_policy) <> 0)
    by (vm_compute; discriminate).
  exact (create_app_sandbox_rejects parent_kernel zero_policy "/bin/true" []
           initial_pstate H).
Defined.

(** X3. [validate_sandbox_config] asks for the caller's uid only when the
    policy wants uid 0, and makes no other call. It returns -EINVAL
    exactly for an empty program path, -EPERM exactly for a uid 0 policy
    with a program from a caller whose uid is not 0, and 0 otherwise. *)
Theorem validate_sandbox_config_cases (K : kernel)
    (cfg : SandboxFixed.sandbox_config) (s : pstate) :
  exists r s',
    SandboxFixed.validate_sandbox_config K (Some cfg) s = (Ret r, s') /\
    (r = 0 \/ r = - EINVAL \/ r = - EPERM) /\
    (r = - EINVAL <-> SandboxFixed.program cfg = EmptyString) /\
    (r = - EPERM <->
     SandboxFixed.program cfg <> EmptyString /\ SandboxFixed.uid cfg = 0 /\
     rv (sys K (trace s) SysGetuid) <> 0) /\
    ((SandboxFixed.program cfg = EmptyString \/ SandboxFixed.uid cfg <> 0) ->
     s' = s) /\
    (SandboxFixed.program cfg <> EmptyString -> SandboxFixed.uid cfg = 0 ->
     trace s' = trace s ++ [(SysGetuid, sys K (trace s) SysGetuid)]).
Proof.
  unfold SandboxFixed.validate_sandbox_config, EINVAL, EPERM.
  destruct (String.eqb_spec (SandboxFixed.program cfg) EmptyString) as [Hp|Hp].
  { eexists _, _. split; [reflexivity|]. repeat split; auto; try tauto;
      intros; try lia; try tauto. }
  destruct (Z.eqb_spec (SandboxFixed.uid cfg) 0) as [Hu|Hu].
  - rewrite bind_syscall.
    destruct (Z.eqb_spec (rv (sys K (trace s) SysGetuid)) 0) as [Hg|Hg];
      cbn [negb]; unfold ret; eexists _, _; (split; [reflexivity|]);
      repeat split; auto; intros; try lia; try tauto.
  - eexists _, _. split; [reflexivity|]. repeat split; auto; try tauto;
      intros; try lia; try tauto.
Qed.

(** ** Capability queries *)

Lemma land_pow2_testbit x n :
  0 <= n -> (Z.land x (2 ^ n) =? 0) = negb (Z.testbit x n).
Proof.
  intros Hn. destruct (Z.testbit x n) eqn:Hb; cbn [negb].
  - apply Z.eqb_neq. intros H0.
    assert (Hbit : Z.testbit (Z.land x (2 ^ n)) n = true).
    { rewrite Z.land_spec, Hb, Z.pow2_bits_true by lia. reflexivity. }
    rewrite H0, Z.testbit_0_l in Hbit. discriminate.
  - apply Z.eqb_eq. apply Z.bits_inj'. intros m Hm.
    rewrite Z.land_spec, Z.testbit_0_l, Z.pow2_bits_eqb by lia.
    destruct (Z.eqb_spec n m) as [->|Hne]; [now rewrite Hb|].
    apply andb_false_r.
Qed.

Lemma cap_set64_testbit lo hi cap :
  0 <= lo < 2 ^ 32 -> 0 <= cap ->
  Z.testbit (cap_set64 lo hi) cap =
  if cap <? 32 then Z.testbit lo cap else Z.testbit hi (cap - 32).
Proof.
  intros Hlo Hcap. unfold cap_set64.
  rewrite Z.lor_spec, Z.shiftl_spec by lia.
  destruct (Z.ltb_spec cap 32) as [Hlt|Hge].
  - rewrite (Z.testbit_neg_r hi) by lia. apply orb_false_r.
  - replace (Z.testbit lo cap) with false; [reflexivity|].
    symmetry. destruct (Z.eq_dec lo 0) as [->|Hnz]; [apply Z.testbit_0_l|].
    apply Z.bits_above_log2; [lia|].
    assert (Z.log2 lo < 32) by (apply Z.log2_lt_pow2; lia). lia.
Qed.

(** X4. [secureos_cap_has_capability] reads the capability set with one
    capget and returns [-errno] when that fails; otherwise, for a
    capability number that is not negative, it returns 1 when that bit is
    set in the 64-bit effective set the kernel reported and 0 when it is
    not (in particular 0 for every number from 64 on). It never changes
    the capabilities: capget is its only call. *)
Theorem has_capability_reads_effective_bit (K : kernel) (cap : Z) (s : pstate) :
  0 <= cap ->
  0 <= effective (caps0 (capget_out K (trace s))) < 2 ^ 32 ->
  0 <= effective (caps1 (capget_out K (trace s))) < 2 ^ 32 ->
  Capability.secureos_cap_has_capability K cap s =
  (Ret (match sys K (trace s) SysCapget with
        | SysErr e => - Z.pos e
        | SysOk _ =>
            if Z.testbit (effective_set (capget_out K (trace s))) cap
            then 1 else 0
        end),
   push s SysCapget (sys K (trace s) SysCapget)).
Proof.
  intros Hcap Hlo Hhi. unfold Capability.secureos_cap_has_capability.
  rewrite bind_cap_get. cbn [fst snd].
  destruct (sys K (trace s) SysCapget) as [v|e] eqn:E.
  - rewrite rv_ok_nonneg. cbv iota. unfold effective_set.
    rewrite cap_set64_testbit by assumption.
    destruct (Z.ltb_spec cap 32) as [H32|H32].
    + rewrite Z.shiftl_1_l, Z.mod_small
        by (split; [lia | apply Z.pow_lt_mono_r; lia]).
      rewrite land_pow2_testbit by lia. rewrite negb_involutive. reflexivity.
    + destruct (Z.ltb_spec cap 64) as [H64|H64].
      * rewrite Z.shiftl_1_l, Z.mod_small
          by (split; [lia | apply Z.pow_lt_mono_r; lia]).
        rewrite land_pow2_testbit by lia. rewrite negb_involutive.
        reflexivity.
      * replace (Z.testbit _ (cap - 32)) with false; [reflexivity|].
        symmetry.
        destruct (Z.eq_dec (effective (caps1 (capget_out K (trace s)))) 0)
          as [->|Hnz]; [apply Z.testbit_0_l|].
        apply Z.bits_above_log2; [lia|].
        assert (Z.log2 (effective (caps1 (capget_out K (trace s)))) < 32)
          by (apply Z.log2_lt_pow2; lia).
        lia.
  - rewrite rv_err_neg. cbv iota. rewrite bind_get_errno, errno_push_err.
    reflexivity.
Qed.

Lemma has_capability_reads_effective_bit_witness :
  Capability.secureos_cap_has_capability
    (mk_kernel (fun _ _ => SysOk 0)
               (fun _ => mk_caps (mk_cap_data 0x20 0x20 0)
                                 (mk_cap_data 0x1 0x1 0))
               (fun _ => 0))
    32 initial_pstate
  = (Ret 1, mk_pstate [(SysCapget, SysOk 0)] 0 []).
Proof.
  refine (has_capability_reads_effective_bit
            (mk_kernel (fun _ _ => SysOk 0)
               (fun _ => mk_caps (mk_cap_data 0x20 0x20 0)
                                 (mk_cap_data 0x1 0x1 0))
               (fun _ => 0)) 32 initial_pstate _ _ _);
    simpl; lia.
Defined.

Lemma drop_all_except_submits K req s v :
  sys K (trace s) SysCapget = SysOk v ->
  Capability.secureos_cap_drop_all_except K req s =
  Capability.secureos_cap_set_proc K (drop_caps_data req)
    (push s SysCapget (SysOk v)).
Proof.
  intros E. unfold Capability.secureos_cap_drop_all_except.
  rewrite bind_cap_get, E. cbn [fst snd]. rewrite rv_ok_nonneg. cbv iota.
  unfold drop_caps_data.
  destruct (req =? 0); cbn [negb]; [reflexivity|].
  destruct (req >? 0xFFFFFFFF); reflexivity.
Qed.

Lemma drop_all_except_capget_fails K req s e :
  sys K (trace s) SysCapget = SysErr e ->
  Capability.secureos_cap_drop_all_except K req s =
  (Ret (- Z.pos e), push s SysCapget (SysErr e)).
Proof.
  intros E. unfold Capability.secureos_cap_drop_all_except.
  rewrite bind_cap_get, E. cbn [fst snd]. rewrite rv_err_neg. cbv iota.
  rewrite bind_get_errno, errno_push_err. reflexivity.
Qed.

(** X5. Asked to keep no capability, [secureos_cap_drop_all_except]
    submits, after its capget, exactly what [secureos_cap_clear_all]
    submits: the all-zero capability data. For a request that is not 0
    the submitted data always has an empty inheritable set and equal
    effective and permitted words. *)
Theorem drop_nothing_is_clear_all (K : kernel) (required : Z) (s : pstate) :
  match sys K (trace s) SysCapget with
  | SysErr e =>
      Capability.secureos_cap_drop_all_except K required s =
      (Ret (- Z.pos e), push s SysCapget (SysErr e))
  | SysOk v =>
      Capability.secureos_cap_drop_all_except K required s =
      Capability.secureos_cap_set_proc K (drop_caps_data required)
        (push s SysCapget (SysOk v)) /\
      Capability.secureos_cap_drop_all_except K 0 s =
      Capability.secureos_cap_clear_all K (push s SysCapget (SysOk v)) /\
      inheritable (caps0 (drop_caps_data required)) = 0 /\
      inheritable (caps1 (drop_caps_data required)) = 0 /\
      effective (caps0 (drop_caps_data required)) =
      permitted (caps0 (drop_caps_data required)) /\
      effective (caps1 (drop_caps_data required)) =
      permitted (caps1 (drop_caps_data required))
  end.
Proof.
  destruct (sys K (trace s) SysCapget) as [v|e] eqn:E.
  - split; [now apply drop_all_except_submits|].
    split; [now apply drop_all_except_submits|].
    unfold drop_caps_data.
    destruct (required =? 0); [now repeat split|].
    destruct (required >? 0xFFFFFFFF); now repeat split.
  - now apply drop_all_except_capget_fails.
Qed.

(** ** The calls on the way to the exec *)

Lemma lenient_none tr : lenient none_tolerated tr -> Forall ok tr.
Proof.
  intros H. eapply Forall_impl; [exact H|].
  intros ev [Hf|Hok]; [discriminate|exact Hok].
Qed.

Lemma lenient_ok tol tr : Forall ok tr -> lenient tol tr.
Proof. intros H. eapply Forall_impl; [exact H|]. intros ev Hok. now right. Qed.

Lemma lenient_app tol a b : lenient tol a -> lenient tol b -> lenient tol (a ++ b).
Proof. intros Ha Hb. apply Forall_app. now split. Qed.

Lemma fail_fast_stage_calls tol f cs :
  runs_fail_fast f cs -> stage_calls tol f cs.
Proof.
  intros Hf s. destruct (Hf s) as (r & s' & tr & Hrun & Htr & Hc).
  exists r, s', tr. split; [exact Hrun|]. split; [exact Htr|].
  destruct Hc as [(_ & Hm & Hok) | (pre & sc & e & rest & _ & _ & _ & ->)].
  - right. split; [exact Hm|now apply lenient_ok].
  - left. lia.
Qed.

Lemma syscall_stage_calls tol K c : stage_calls tol (syscall_ K c) [c].
Proof.
  intros s. unfold syscall_.
  eexists _, _, [(c, sys K (trace s) c)]. split; [reflexivity|].
  split; [apply trace_push|].
  destruct (sys K (trace s) c) as [v|e]; [right|left; cbn; lia].
  split; [reflexivity|]. constructor; [right; now exists v|constructor].
Qed.

Lemma cap_drop_stage_calls tol K required :
  stage_calls tol (Capability.secureos_cap_drop_all_except K required)
              [SysCapget; SysCapset (drop_caps_data required)].
Proof.
  intros s. destruct (sys K (trace s) SysCapget) as [v|e] eqn:E.
  - rewrite (drop_all_except_submits K required s v E).
    unfold Capability.secureos_cap_set_proc, syscall_.
    eexists _, _, [_; _]. split; [reflexivity|].
    split; [now rewrite !trace_push, <- app_assoc|].
    destruct (sys K _ (SysCapset _)) as [v2|e2]; [right|left; cbn; lia].
    split; [reflexivity|].
    constructor; [right; now exists v|].
    constructor; [right; now exists v2|constructor].
  - rewrite (drop_all_except_capget_fails K required s e E).
    eexists _, _, [_]. split; [reflexivity|].
    split; [apply trace_push|]. left. lia.
Qed.

Lemma fixed_cap_drop_stage_calls tol K required :
  stage_calls tol (SandboxFixed.drop_all_capabilities_except K required)
              [SysCapget; SysCapset (drop_caps_data required)].
Proof.
  intros s. destruct (cap_drop_stage_calls tol K required s)
    as (r & s' & tr & Hrun & Htr & Hc).
  unfold SandboxFixed.drop_all_capabilities_except.
  rewrite (bind_ret_run _ _ _ _ _ Hrun).
  unfold Capability.audit_capability_operation. rewrite bind_log. unfold ret.
  exists r. eexists. exists tr. split; [reflexivity|].
  rewrite trace_add_audit. auto.
Qed.

(** One stage of a pipeline that went on to the exec: the stage issued
    its calls and the rest of the pipeline ran after it. *)
Lemma exec_step tol (f : proc Z) (failk : Z -> proc Z) (rest : proc Z)
    cs s0 s cs0 tr0 o s' :
  stage_calls tol f cs ->
  (forall r st, exists c st', failk r st = (Exited c, st')) ->
  is_exec o ->
  trace s = trace s0 ++ tr0 -> map fst tr0 = cs0 -> lenient tol tr0 ->
  bind f (fun r => if r <? 0 then failk r else rest) s = (o, s') ->
  exists s1 tr1,
    rest s1 = (o, s') /\ trace s1 = trace s0 ++ tr1 /\
    map fst tr1 = cs0 ++ cs /\ lenient tol tr1.
Proof.
  intros Hf Hfail (p & a & e & ->) Hs Hm Hl Hrun.
  destruct (Hf s) as (r & s1 & tr & Hf1 & Htr & Hc).
  rewrite (bind_ret_run _ _ _ _ _ Hf1) in Hrun.
  destruct (r <? 0) eqn:Hr.
  - destruct (Hfail r s1) as (c & st' & Hk). rewrite Hk in Hrun. discriminate.
  - destruct Hc as [Hneg | [Hcs Hlen]]; [lia|].
    exists s1, (tr0 ++ tr). split; [exact Hrun|].
    split; [rewrite Htr, Hs; now rewrite app_assoc|].
    split; [rewrite <- Hm, <- Hcs; apply List.map_app|now apply lenient_app].
Qed.

Lemma exec_inline_step tol (f : proc unit) (rest : proc Z)
    cs s0 s cs0 tr0 o s' :
  inline_calls tol f cs ->
  is_exec o ->
  trace s = trace s0 ++ tr0 -> map fst tr0 = cs0 -> lenient tol tr0 ->
  bind f (fun _ => rest) s = (o, s') ->
  exists s1 tr1,
    rest s1 = (o, s') /\ trace s1 = trace s0 ++ tr1 /\
    map fst tr1 = cs0 ++ cs /\ lenient tol tr1.
Proof.
  intros Hf (p & a & e & ->) Hs Hm Hl Hrun.
  destruct (Hf s) as (o1 & s1 & tr & Hf1 & Htr & Hc).
  unfold bind in Hrun. rewrite Hf1 in Hrun.
  destruct Hc as [(c & ->) | (-> & Hcs & Hlen)]; [discriminate|].
  exists s1, (tr0 ++ tr). split; [exact Hrun|].
  split; [rewrite Htr, Hs; now rewrite app_assoc|].
  split; [rewrite <- Hm, <- Hcs; apply List.map_app|now apply lenient_app].
Qed.

Lemma log_exit_exits {A} m s :
  exists c st', bind (log m) (fun _ => @_exit A EXIT_FAILURE) s = (Exited c, st').
Proof. eexists _, _. reflexivity. Qed.

(** X6. For a policy whose mount count is within its mount table: when
    the child of secure_sandbox_fixed.c reaches the exec, its
    system calls were exactly: unshare; the root, tmpfs and policy mounts;
    no-new-privileges and strict seccomp; capget and the capset of the
    required set; one setrlimit per limit field above 0; setgid and
    setuid; then setuid(0), getpid and execve. Every one of them
    succeeded, except setuid(0), which did not return 0. No call was
    skipped and none was tolerated to fail. *)
Theorem fixed_exec_calls (K : kernel) (cfg : SandboxFixed.sandbox_config)
    (s s' : pstate) (o : outcome Z) :
  mounts_in_table cfg ->
  SandboxFixed.sandbox_child K cfg s = (o, s') ->
  is_exec o ->
  exists pre z me x,
    trace s' = trace s ++ pre ++
               [(SysSetuid 0, z); (SysGetpid, me);
                (SysExecve (SandboxFixed.program cfg) (SandboxFixed.argv cfg)
                           (Some (SandboxFixed.envp cfg)), SysOk x)] /\
    map fst pre = fixed_setup_calls cfg /\
    Forall ok pre /\ rv z <> 0.
Proof.
  intros _ Hrun Hex. unfold SandboxFixed.sandbox_child in Hrun.
  assert (Hs : trace s = trace s ++ []) by now rewrite app_nil_r.
  assert (Hl : lenient none_tolerated []) by constructor.
  eapply (exec_step none_tolerated) in Hrun;
    [ | apply syscall_stage_calls
      | intros; eexists _, _; reflexivity | exact Hex | exact Hs
      | reflexivity | exact Hl ].
  clear Hs Hl. destruct Hrun as (s1 & tr1 & Hrun & Hs & Hm & Hl).
  eapply (exec_step none_tolerated) in Hrun;
    [ | apply fail_fast_stage_calls;
        eapply fail_fast_ext; [apply setup_sandbox_mounts_calls|];
        apply run_calls_fail_fast
      | intros; eexists _, _; reflexivity | exact Hex | exact Hs
      | exact Hm | exact Hl ].
  clear s1 tr1 Hs Hm Hl. destruct Hrun as (s1 & tr1 & Hrun & Hs & Hm & Hl).
  eapply (exec_step none_tolerated) in Hrun;
    [ | apply fail_fast_stage_calls;
        eapply fail_fast_ext; [apply apply_seccomp_filter_calls|];
        apply run_calls_fail_fast
      | intros; eexists _, _; reflexivity | exact Hex | exact Hs
      | exact Hm | exact Hl ].
  clear s1 tr1 Hs Hm Hl. destruct Hrun as (s1 & tr1 & Hrun & Hs & Hm & Hl).
  eapply (exec_step none_tolerated) in Hrun;
    [ | apply fixed_cap_drop_stage_calls
      | intros; eexists _, _; reflexivity | exact Hex | exact Hs
      | exact Hm | exact Hl ].
  clear s1 tr1 Hs Hm Hl. destruct Hrun as (s1 & tr1 & Hrun & Hs & Hm & Hl).
  eapply (exec_step none_tolerated) in Hrun;
    [ | apply fail_fast_stage_calls;
        eapply fail_fast_ext; [apply apply_resource_limits_calls|];
        apply run_calls_fail_fast
      | intros; eexists _, _; reflexivity | exact Hex | exact Hs
      | exact Hm | exact Hl ].
  clear s1 tr1 Hs Hm Hl. destruct Hrun as (s1 & tr1 & Hrun & Hs & Hm & Hl).
  destruct Hex as (p & a & e & ->).
  destruct (change_to_sandbox_user_run K (SandboxFixed.uid cfg)
              (SandboxFixed.gid cfg) s1) as (r & s2 & Hu & _ & Hcases).
  rewrite (bind_ret_run _ _ _ _ _ Hu) in Hrun.
  destruct Hcases as [(e1 & Htr & ->) | [(g & e1 & Htr & ->) |
                     [(g & u & Htr & ->) | (g & u & z & Htr & Hz & ->)]]].
  - rewrite neg_errno_neg in Hrun. discriminate.
  - rewrite neg_errno_neg in Hrun. discriminate.
  - discriminate.
  - change (0 <? 0) with false in Hrun. cbv iota in Hrun.
    rewrite bind_syscall in Hrun.
    unfold SandboxFixed.audit_log_sandbox_success in Hrun.
    rewrite bind_log in Hrun. unfold execve in Hrun. rewrite bind_exec in Hrun.
    match type of Hrun with
    | match sys K ?h ?c with _ => _ end = _ =>
        destruct (sys K h c) as [x|ex] eqn:Ex
    end; [|discriminate].
    inversion Hrun; subst.
    exists (tr1 ++ [(SysSetgid (SandboxFixed.gid cfg), SysOk g);
                    (SysSetuid (SandboxFixed.uid cfg), SysOk u)]), z.
    eexists _, x.
    rewrite trace_push, trace_add_audit, trace_push, Htr, Hs.
    split; [now rewrite <- !app_assoc|].
    split.
    { etransitivity; [apply List.map_app|].
      etransitivity; [apply (f_equal (fun l => l ++ _) Hm)|].
      unfold fixed_setup_calls, strict_seccomp_calls.
      cbn [map fst]. rewrite <- !app_assoc. reflexivity. }
    split; [|exact Hz].
    apply Forall_app. split; [now apply lenient_none|].
    constructor; [now exists g|]. constructor; [now exists u|constructor].
Qed.

Lemma fixed_exec_calls_witness :
  mounts_in_table mounts_config /\
  exists pre z me x,
    trace (snd (SandboxFixed.sandbox_child child_kernel mounts_config
                  initial_pstate)) =
    pre ++ [(SysSetuid 0, z); (SysGetpid, me);
            (SysExecve "/bin/true" ["/bin/true"] (Some []), SysOk x)] /\
    map fst pre =
    [SysUnshare SandboxFixed.unshare_flags;
     SysMount None "/" None (Z.lor MS_REC MS_PRIVATE) None;
     SysMount (Some "tmpfs") "/tmp" (Some "tmpfs")
              (Z.lor (Z.lor MS_NODEV MS_NOSUID) MS_NOEXEC)
              (Some "size=100M,mode=1777");
     SysMount (Some "/srv/data") "/data" (Some "ext4")
              (Z.lor MS_NOSUID MS_RDONLY) None;
     nnp_call; SysPrctl PR_SET_SECCOMP SECCOMP_MODE_STRICT None;
     SysCapget; SysCapset Capability.zero_caps;
     SysSetgid 1000; SysSetuid 1000].
Proof.
  assert (Hb : mounts_in_table mounts_config)
    by (unfold mounts_in_table; simpl; lia).
  split; [exact Hb|].
  destruct (fixed_exec_calls child_kernel mounts_config initial_pstate
              (snd (SandboxFixed.sandbox_child child_kernel mounts_config
                      initial_pstate))
              (Execed "/bin/true" ["/bin/true"] (Some [])) Hb)
    as (pre & z & me & x & Htr & Hm & _).
  - vm_compute. reflexivity.
  - now exists "/bin/true", ["/bin/true"], (Some []).
  - exists pre, z, me, x. split; [exact Htr|exact Hm].
Defined.

(** *** app_sandbox.c *)

Lemma mount_allowed_files_calls K files s :
  exists s' tr,
    AppSandbox.mount_allowed_files K files s = (Ret tt, s') /\
    trace s' = trace s ++ tr /\
    map fst tr = map bind_mount_call files /\
    lenient is_bind_mount tr.
Proof.
  revert s. induction files as [|f files IH]; intros s.
  - exists s, []. rewrite app_nil_r. repeat split. constructor.
  - cbn [AppSandbox.mount_allowed_files]. rewrite bind_syscall.
    fold (bind_mount_call f).
    destruct (IH (push s (bind_mount_call f)
                       (sys K (trace s) (bind_mount_call f))))
      as (s' & tr & Hrun & Htr & Hm & Hl).
    exists s'. eexists (_ :: tr). split; [exact Hrun|].
    split; [now rewrite Htr, trace_push, <- app_assoc|].
    split; [cbn [map fst]; now f_equal|].
    constructor; [left; cbn; apply Z.eqb_refl|exact Hl].
Qed.

(** X7. [setup_app_filesystem] fails only through its first two mounts
    (the private root and the tmpfs on /tmp): when one of them fails it
    returns [-errno] at once. When both succeed it tries a read-only bind
    mount of each of the first [file_count] allowed files onto itself, in
    order, and returns 0 whatever these bind mounts answer. *)
Theorem app_filesystem_tolerates_bind_failures (K : kernel)
    (p : AppSandbox.app_sandbox_policy) (s : pstate) :
  exists r s' tr,
    AppSandbox.setup_app_filesystem K p s = (Ret r, s') /\
    trace s' = trace s ++ tr /\
    ((exists pre sc e,
         tr = pre ++ [(sc, SysErr e)] /\ r = - Z.pos e /\
         (map fst tr = take 1 app_base_mounts \/
          (map fst tr = app_base_mounts /\ Forall ok pre))) \/
     (exists a1 a2 binds,
         r = 0 /\
         tr = [(SysMount None "/" None (Z.lor MS_REC MS_PRIVATE) None, SysOk a1);
               (SysMount (Some "tmpfs") "/tmp" (Some "tmpfs")
                         (Z.lor (Z.lor MS_NODEV MS_NOSUID) MS_NOEXEC)
                         (Some "size=50M,mode=1777"), SysOk a2)] ++ binds /\
         map fst binds =
         map bind_mount_call
             (take (Z.to_nat (AppSandbox.file_count p))
                   (AppSandbox.allowed_files p)))).
Proof.
  unfold AppSandbox.setup_app_filesystem.
  answer a1 e1 E1; [answer a2 e2 E2|].
  - match goal with
    | |- context [bind (AppSandbox.mount_allowed_files K ?fs) _ ?st] =>
        destruct (mount_allowed_files_calls K fs st)
          as (s' & tr & Hrun & Htr & Hm & _);
        rewrite (bind_ret_run _ _ _ _ _ Hrun)
    end.
    unfold ret. eexists _, _, ([_; _] ++ tr). split; [reflexivity|].
    split; [now rewrite Htr, !trace_push, <- !app_assoc|].
    right. exists a1, a2, tr. repeat split. exact Hm.
  - rewrite bind_get_errno, errno_push_err. unfold ret.
    eexists _, _, [_; _]. split; [reflexivity|].
    split; [now rewrite !trace_push, <- !app_assoc|].
    left. eexists [_], _, e2. split; [reflexivity|]. split; [reflexivity|].
    right. split; [reflexivity|]. constructor; [now exists a1|constructor].
  - rewrite bind_get_errno, errno_push_err. unfold ret.
    eexists _, _, [_]. split; [reflexivity|]. split; [apply trace_push|].
    left. eexists [], _, e1. split; [reflexivity|]. split; [reflexivity|].
    now left.
Qed.

Lemma app_filesystem_stage_calls K p :
  stage_calls is_bind_mount (AppSandbox.setup_app_filesystem K p)
              (app_mount_calls p).
Proof.
  intros s. unfold AppSandbox.setup_app_filesystem.
  answer a1 e1 E1; [answer a2 e2 E2|].
  - match goal with
    | |- context [bind (AppSandbox.mount_allowed_files K ?fs) _ ?st] =>
        destruct (mount_allowed_files_calls K fs st)
          as (s' & tr & Hrun & Htr & Hm & Hl);
        rewrite (bind_ret_run _ _ _ _ _ Hrun)
    end.
    unfold ret. eexists _, _, ([_; _] ++ tr). split; [reflexivity|].
    split; [now rewrite Htr, !trace_push, <- !app_assoc|].
    right. split.
    + unfold app_mount_calls, app_base_mounts.
      etransitivity; [apply List.map_app|]. cbn [map fst]. now f_equal.
    + apply lenient_app; [|exact Hl].
      constructor; [right; now exists a1|].
      constructor; [right; now exists a2|constructor].
  - rewrite bind_get_errno, errno_push_err. unfold ret.
    eexists _, _, [_; _]. split; [reflexivity|].
    split; [now rewrite !trace_push, <- !app_assoc|]. left. lia.
  - rewrite bind_get_errno, errno_push_err. unfold ret.
    eexists _, _, [_]. split; [reflexivity|]. split; [apply trace_push|].
    left. lia.
Qed.

(** X8. When the child of app_sandbox.c reaches the exec, its system
    calls were exactly: unshare (with the network namespace unless the
    policy grants network access); the root and tmpfs mounts and one bind
    mount per allowed file; no-new-privileges and strict seccomp; capget
    and the capset of the allowed capabilities; the four setrlimit calls;
    setgid and setuid; then setuid(0) and the exec. All of them succeeded
    except possibly bind mounts, and setuid(0) did not return 0. *)
Theorem app_exec_calls (K : kernel) (p : AppSandbox.app_sandbox_policy)
    (app_path : string) (argv : list string) (s s' : pstate)
    (o : outcome Z) :
  AppSandbox.sandbox_child K p app_path argv s = (o, s') ->
  is_exec o ->
  exists pre z x,
    trace s' = trace s ++ pre ++
               [(SysSetuid 0, z); (SysExecve app_path argv None, SysOk x)] /\
    map fst pre = app_setup_calls p /\
    lenient is_bind_mount pre /\ rv z <> 0.
Proof.
  intros Hrun Hex. unfold AppSandbox.sandbox_child in Hrun. cbv zeta in Hrun.
  assert (Hs : trace s = trace s ++ []) by now rewrite app_nil_r.
  assert (Hl : lenient is_bind_mount []) by constructor.
  eapply (exec_step is_bind_mount) in Hrun;
    [ | apply (syscall_stage_calls _ K (SysUnshare (app_ns_flags p)))
      | intros; eexists _, _; reflexivity | exact Hex | exact Hs
      | reflexivity | exact Hl ].
  clear Hs Hl. destruct Hrun as (s1 & tr1 & Hrun & Hs & Hm & Hl).
  eapply (exec_step is_bind_mount) in Hrun;
    [ | apply app_filesystem_stage_calls
      | intros; eexists _, _; reflexivity | exact Hex | exact Hs
      | exact Hm | exact Hl ].
  clear s1 tr1 Hs Hm Hl. destruct Hrun as (s1 & tr1 & Hrun & Hs & Hm & Hl).
  eapply (exec_step is_bind_mount) in Hrun;
    [ | apply fail_fast_stage_calls;
        eapply fail_fast_ext; [apply apply_app_seccomp_calls|];
        apply run_calls_fail_fast
      | intros; eexists _, _; reflexivity | exact Hex | exact Hs
      | exact Hm | exact Hl ].
  clear s1 tr1 Hs Hm Hl. destruct Hrun as (s1 & tr1 & Hrun & Hs & Hm & Hl).
  eapply (exec_step is_bind_mount) in Hrun;
    [ | apply cap_drop_stage_calls
      | intros; eexists _, _; reflexivity | exact Hex | exact Hs
      | exact Hm | exact Hl ].
  clear s1 tr1 Hs Hm Hl. destruct Hrun as (s1 & tr1 & Hrun & Hs & Hm & Hl).
  eapply (exec_step is_bind_mount) in Hrun;
    [ | apply fail_fast_stage_calls;
        eapply fail_fast_ext; [apply apply_app_resource_limits_calls|];
        apply run_calls_fail_fast
      | intros; eexists _, _; reflexivity | exact Hex | exact Hs
      | exact Hm | exact Hl ].
  clear s1 tr1 Hs Hm Hl. destruct Hrun as (s1 & tr1 & Hrun & Hs & Hm & Hl).
  destruct Hex as (pp & a & e & ->).
  destruct (app_change_user_run K p s1) as (bad & s2 & Hu & _ & Hcases).
  rewrite (bind_ret_run _ _ _ _ _ Hu) in Hrun.
  unfold AppSandbox.audit_log_app_sandbox_event in Hrun.
  destruct Hcases as [(e1 & Htr & ->) | [(g & e1 & Htr & ->) | (g & u & Htr & ->)]];
    [discriminate | discriminate |].
  rewrite bind_syscall in Hrun.
  destruct (sys K (trace s2) (SysSetuid 0)) as [zv|ze] eqn:E3.
  - destruct (Z.eqb_spec (rv (SysOk zv)) 0) as [Hz|Hz]; [discriminate|].
    rewrite bind_log in Hrun. unfold execv in Hrun. rewrite bind_exec in Hrun.
    match type of Hrun with
    | match sys K ?h ?c with _ => _ end = _ =>
        destruct (sys K h c) as [x|ex] eqn:Ex
    end; [|discriminate].
    inversion Hrun; subst.
    exists (tr1 ++ [(SysSetgid (AppSandbox.sandbox_gid p), SysOk g);
                    (SysSetuid (AppSandbox.sandbox_uid p), SysOk u)]),
      (SysOk zv), x.
    rewrite trace_push, trace_add_audit, trace_push, Htr, Hs.
    split; [now rewrite <- !app_assoc|].
    split.
    { etransitivity; [apply List.map_app|].
      etransitivity; [apply (f_equal (fun l => l ++ _) Hm)|].
      unfold app_setup_calls, strict_seccomp_calls.
      cbn [map fst]. rewrite <- !app_assoc. reflexivity. }
    split; [|exact Hz].
    apply lenient_app; [exact Hl|].
    constructor; [right; now exists g|].
    constructor; [right; now exists u|constructor].
  - change (rv (SysErr ze) =? 0) with false in Hrun. cbv iota in Hrun.
    rewrite bind_log in Hrun. unfold execv in Hrun. rewrite bind_exec in Hrun.
    match type of Hrun with
    | match sys K ?h ?c with _ => _ end = _ =>
        destruct (sys K h c) as [x|ex] eqn:Ex
    end; [|discriminate].
    inversion Hrun; subst.
    exists (tr1 ++ [(SysSetgid (AppSandbox.sandbox_gid p), SysOk g);
                    (SysSetuid (AppSandbox.sandbox_uid p), SysOk u)]),
      (SysErr ze), x.
    rewrite trace_push, trace_add_audit, trace_push, Htr, Hs.
    split; [now rewrite <- !app_assoc|].
    split.
    { etransitivity; [apply List.map_app|].
      etransitivity; [apply (f_equal (fun l => l ++ _) Hm)|].
      unfold app_setup_calls, strict_seccomp_calls.
      cbn [map fst]. rewrite <- !app_assoc. reflexivity. }
    split; [|cbn; lia].
    apply lenient_app; [exact Hl|].
    constructor; [right; now exists g|].
    constructor; [right; now exists u|constructor].
Qed.

Lemma app_exec_calls_witness :
  exists pre z x,
    trace (snd (AppSandbox.sandbox_child child_kernel demo_policy "/bin/true"
                  [] initial_pstate)) =
    pre ++ [(SysSetuid 0, z); (SysExecve "/bin/true" [] None, SysOk x)] /\
    map fst pre = app_setup_calls demo_policy.
Proof.
  destruct (app_exec_calls child_kernel demo_policy "/bin/true" []
              initial_pstate
              (snd (AppSandbox.sandbox_child child_kernel demo_policy
                      "/bin/true" [] initial_pstate))
              (Execed "/bin/true" [] None))
    as (pre & z & x & Htr & Hm & _).
  - vm_compute. reflexivity.
  - now exists "/bin/true", [], None.
  - exists pre, z, x. split; [exact Htr|exact Hm].
Defined.

(** *** The phase 3 sandbox *)

Lemma capbset_drop_loop_calls K caps s :
  exists s' tr,
    SandboxPhase3.capbset_drop_loop K caps s = (Ret tt, s') /\
    trace s' = trace s ++ tr /\
    map fst tr = map (fun cap => SysPrctl PR_CAPBSET_DROP cap None) caps /\
    lenient phase3_tolerated tr.
Proof.
  revert s. induction caps as [|c caps IH]; intros s.
  - exists s, []. rewrite app_nil_r. repeat split. constructor.
  - cbn [SandboxPhase3.capbset_drop_loop]. rewrite bind_syscall.
    destruct (IH (push s (SysPrctl PR_CAPBSET_DROP c None)
                       (sys K (trace s) (SysPrctl PR_CAPBSET_DROP c None))))
      as (s' & tr & Hrun & Htr & Hm & Hl).
    exists s'. eexists (_ :: tr). split; [exact Hrun|].
    split; [now rewrite Htr, trace_push, <- app_assoc|].
    split; [cbn [map fst]; now f_equal|].
    constructor; [now left|exact Hl].
Qed.

(** X9. [drop_capabilities_manual] of the phase 3 sandbox always issues
    the 38 bounding-set drops for capabilities 0 to 37, in ascending
    order, followed by the no-new-privileges call; a drop that fails is
    passed over. Its result is decided by the last call alone: 0 when
    no-new-privileges succeeded, -1 when it failed. *)
Theorem capability_drops_are_best_effort (K : kernel) (s : pstate) :
  exists r s' drops answer,
    SandboxPhase3.drop_capabilities_manual K s = (Ret r, s') /\
    trace s' = trace s ++ drops ++ [(nnp_call, answer)] /\
    map fst drops = capbset_calls /\
    length drops = 38%nat /\
    r = match answer with SysOk _ => 0 | SysErr _ => -1 end.
Proof.
  unfold SandboxPhase3.drop_capabilities_manual.
  destruct (capbset_drop_loop_calls K (map Z.of_nat (seq 0 38)) s)
    as (s1 & tr & Hrun & Htr & Hm & _).
  rewrite (bind_ret_run _ _ _ _ _ Hrun).
  assert (Hlen : length tr = 38%nat).
  { etransitivity; [symmetry; apply (List.length_map fst)|].
    etransitivity; [apply (f_equal (@length _) Hm)|]. reflexivity. }
  answer v e E; repeat run1; unfold ret;
    eexists _, _, tr, _; (split; [reflexivity|]);
    (split; [now rewrite ?trace_add_audit, trace_push, Htr, <- app_assoc|]);
    (split; [exact Hm|]); (split; [exact Hlen|]); reflexivity.
Qed.

(** X10. [setup_namespaces] of the phase 3 sandbox fails, with -1, exactly
    when unshare fails, and then makes no further call. After a
    successful unshare it tries to mount /proc once and returns 0 whether
    or not that mount succeeded. *)
Theorem namespaces_tolerate_proc_mount (K : kernel) (s : pstate) :
  exists r s',
    SandboxPhase3.setup_namespaces K s = (Ret r, s') /\
    ((exists e, trace s' = trace s ++ [(phase3_unshare, SysErr e)] /\ r = -1) \/
     (exists v answer,
         trace s' = trace s ++ [(phase3_unshare, SysOk v);
                                (phase3_proc_mount, answer)] /\ r = 0)).
Proof.
  unfold SandboxPhase3.setup_namespaces.
  answer v e E.
  - rewrite bind_syscall.
    match goal with
    | |- context [if ?b then _ else _] => destruct b
    end; repeat run1; unfold ret; eexists _, _; (split; [reflexivity|]);
      right; eexists v, _;
      rewrite ?trace_add_audit, !trace_push, <- app_assoc;
      split; reflexivity.
  - repeat run1. unfold ret. eexists _, _. split; [reflexivity|].
    left. exists e. rewrite trace_add_audit, trace_push. split; reflexivity.
Qed.

Lemma phase3_namespaces_stage_calls K :
  stage_calls phase3_tolerated (SandboxPhase3.setup_namespaces K)
              [phase3_unshare; phase3_proc_mount].
Proof.
  intros s. unfold SandboxPhase3.setup_namespaces.
  answer v e E.
  - rewrite bind_syscall.
    match goal with
    | |- context [if ?b then _ else _] => destruct b
    end; repeat run1; unfold ret; eexists _, _, [_; _];
      (split; [reflexivity|]);
      (split; [now rewrite ?trace_add_audit, !trace_push, <- app_assoc|]);
      right; (split; [reflexivity|]);
      (constructor; [right; now exists v|]);
      (constructor; [now left|constructor]).
  - repeat run1. unfold ret. eexists _, _, [_]. split; [reflexivity|].
    split; [rewrite trace_add_audit; apply trace_push|]. left. lia.
Qed.

Lemma phase3_limits_stage_calls K :
  stage_calls phase3_tolerated (SandboxPhase3.set_resource_limits K)
              phase3_limit_calls.
Proof.
  intros s. unfold SandboxPhase3.set_resource_limits. cbv zeta.
  answer v1 e1 E1; [answer v2 e2 E2; [answer v3 e3 E3|]|];
    repeat run1; unfold ret; eexists _, _, _; (split; [reflexivity|]);
    (split; [ rewrite ?trace_add_audit, ?trace_push, <- ?app_assoc;
              reflexivity |]);
    first [ left; lia | right ].
  split; [reflexivity|].
  repeat (apply Forall_app; split);
    (constructor; [right; eexists; reflexivity|constructor]).
Qed.

Lemma phase3_capabilities_stage_calls K :
  stage_calls phase3_tolerated (SandboxPhase3.drop_capabilities_manual K)
              (capbset_calls ++ [nnp_call]).
Proof.
  intros s. unfold SandboxPhase3.drop_capabilities_manual.
  destruct (capbset_drop_loop_calls K (map Z.of_nat (seq 0 38)) s)
    as (s1 & tr & Hrun & Htr & Hm & Hl).
  rewrite (bind_ret_run _ _ _ _ _ Hrun).
  answer v e E; repeat run1; unfold ret;
    eexists _, _, (tr ++ [_]); (split; [reflexivity|]);
    (split; [now rewrite ?trace_add_audit, trace_push, Htr, <- app_assoc|]);
    [right | left; lia].
  split.
  - etransitivity; [apply List.map_app|]. unfold capbset_calls.
    now f_equal.
  - apply lenient_app; [exact Hl|].
    constructor; [right; now exists v|constructor].
Qed.

Lemma phase3_seccomp_stage_calls K allowed n :
  stage_calls phase3_tolerated
              (SandboxPhase3.install_seccomp_filter K allowed n)
              phase3_filter_calls.
Proof.
  intros s. unfold SandboxPhase3.install_seccomp_filter. cbv zeta.
  answer v1 e1 E1; [answer v2 e2 E2|];
    repeat run1; unfold ret; eexists _, _, _; (split; [reflexivity|]);
    (split; [ rewrite ?trace_add_audit, ?trace_push, <- ?app_assoc;
              reflexivity |]);
    first [ left; lia | right ].
  split; [reflexivity|].
  repeat (apply Forall_app; split);
    (constructor; [right; eexists; reflexivity|constructor]).
Qed.

Lemma phase3_change_root_calls K cfg :
  inline_calls phase3_tolerated (SandboxPhase3.change_root K cfg)
               (phase3_root_calls cfg).
Proof.
  intros s. unfold SandboxPhase3.change_root, phase3_root_calls.
  destruct (SandboxPhase3.chroot_dir cfg) as [dir|].
  - answer v1 e1 E1; [answer v2 e2 E2|]; repeat run1; unfold ret, _exit;
      eexists _, _, _; (split; [reflexivity|]);
      (split; [ rewrite ?trace_add_audit, ?trace_push, <- ?app_assoc;
                reflexivity |]);
      first [ left; eexists; reflexivity | right ].
    split; [reflexivity|]. split; [reflexivity|].
    repeat (apply Forall_app; split);
      (constructor; [right; eexists; reflexivity|constructor]).
  - exists (Ret tt), s, []. rewrite app_nil_r.
    split; [reflexivity|]. split; [reflexivity|].
    right. repeat split. constructor.
Qed.

Lemma phase3_change_user_group_calls K cfg :
  inline_calls phase3_tolerated (SandboxPhase3.change_user_group K cfg)
               (phase3_id_calls cfg).
Proof.
  intros s. unfold SandboxPhase3.change_user_group, phase3_id_calls.
  assert (Hnil : forall st : pstate, trace st = trace st ++ [])
    by (intros; now rewrite app_nil_r).
  destruct (SandboxPhase3.gid cfg >? 0);
    [rewrite bind_assoc; answer v1 e1 E1|]; repeat run1;
    try (destruct (SandboxPhase3.uid cfg >? 0);
         [rewrite bind_assoc; answer v2 e2 E2|]); repeat run1;
    unfold ret, _exit;
    eexists _, _, _; (split; [reflexivity|]);
    (split; [ rewrite ?trace_add_audit, ?trace_push, <- ?app_assoc;
              first [reflexivity | apply Hnil] |]);
    first [ left; eexists; reflexivity | right ];
    (split; [reflexivity|]); (split; [reflexivity|]);
    repeat (apply Forall_app; split);
    first [ constructor; [right; eexists; reflexivity|constructor]
          | constructor ].
Qed.

(** X11. When the child of the phase 3 sandbox reaches the exec, its
    system calls were exactly: unshare and the /proc mount; chroot and
    chdir when a root directory is configured; three setrlimit calls with
    fixed values (512 MiB address space, 64 processes, 256 open files);
    the 38 bounding-set drops and no-new-privileges; setgid only for a
    gid above 0 and setuid only for a uid above 0; no-new-privileges and
    the seccomp filter; execve. All of them succeeded except possibly the
    /proc mount and bounding-set drops. In particular a policy with uid 0
    and gid 0 is executed without any change of identity. *)
Theorem phase3_exec_calls_exact (K : kernel)
    (cfg : SandboxPhase3.sandbox_config_t) (prog : string) (s s' : pstate)
    (o : outcome Z) :
  SandboxPhase3.sandbox_child K cfg prog s = (o, s') ->
  is_exec o ->
  exists tr,
    trace s' = trace s ++ tr /\
    map fst tr = phase3_exec_calls cfg prog /\
    lenient phase3_tolerated tr /\
    (SandboxPhase3.gid cfg = 0 -> SandboxPhase3.uid cfg = 0 ->
     phase3_id_calls cfg = []).
Proof.
  intros Hrun Hex. unfold SandboxPhase3.sandbox_child in Hrun.
  assert (Hs : trace s = trace s ++ []) by now rewrite app_nil_r.
  assert (Hl : lenient phase3_tolerated []) by constructor.
  eapply (exec_step phase3_tolerated) in Hrun;
    [ | apply phase3_namespaces_stage_calls
      | intros; eexists _, _; reflexivity | exact Hex | exact Hs
      | reflexivity | exact Hl ].
  clear Hs Hl. destruct Hrun as (s1 & tr1 & Hrun & Hs & Hm & Hl).
  eapply (exec_inline_step phase3_tolerated) in Hrun;
    [ | apply phase3_change_root_calls | exact Hex | exact Hs
      | exact Hm | exact Hl ].
  clear s1 tr1 Hs Hm Hl. destruct Hrun as (s1 & tr1 & Hrun & Hs & Hm & Hl).
  eapply (exec_step phase3_tolerated) in Hrun;
    [ | apply phase3_limits_stage_calls
      | intros; eexists _, _; reflexivity | exact Hex | exact Hs
      | exact Hm | exact Hl ].
  clear s1 tr1 Hs Hm Hl. destruct Hrun as (s1 & tr1 & Hrun & Hs & Hm & Hl).
  eapply (exec_step phase3_tolerated) in Hrun;
    [ | apply phase3_capabilities_stage_calls
      | intros; eexists _, _; reflexivity | exact Hex | exact Hs
      | exact Hm | exact Hl ].
  clear s1 tr1 Hs Hm Hl. destruct Hrun as (s1 & tr1 & Hrun & Hs & Hm & Hl).
  eapply (exec_inline_step phase3_tolerated) in Hrun;
    [ | apply phase3_change_user_group_calls | exact Hex | exact Hs
      | exact Hm | exact Hl ].
  clear s1 tr1 Hs Hm Hl. destruct Hrun as (s1 & tr1 & Hrun & Hs & Hm & Hl).
  eapply (exec_step phase3_tolerated) in Hrun;
    [ | apply phase3_seccomp_stage_calls
      | intros; eexists _, _; reflexivity | exact Hex | exact Hs
      | exact Hm | exact Hl ].
  clear s1 tr1 Hs Hm Hl. destruct Hrun as (s1 & tr1 & Hrun & Hs & Hm & Hl).
  destruct Hex as (p & a & e & ->).
  unfold execve in Hrun. rewrite bind_exec in Hrun.
  destruct (sys K (trace s1) _) as [x|ex] eqn:Ex; [|discriminate].
  inversion Hrun; subst.
  eexists (tr1 ++ [(_, SysOk x)]). rewrite trace_push, Hs.
  split; [now rewrite <- app_assoc|]. split; [|split].
  - etransitivity; [apply List.map_app|].
    etransitivity; [apply (f_equal (fun l => l ++ _) Hm)|].
    unfold phase3_exec_calls. cbn [map fst].
    rewrite <- !app_assoc. reflexivity.
  - apply lenient_app; [exact Hl|].
    constructor; [right; now exists x|constructor].
  - intros Hg Hu. unfold phase3_id_calls. now rewrite Hg, Hu.
Qed.

Lemma phase3_exec_calls_exact_witness :
  exists tr,
    trace (snd (SandboxPhase3.sandbox_child child_kernel root_config3
                  "/bin/true" initial_pstate)) = tr /\
    map fst tr = phase3_exec_calls root_config3 "/bin/true" /\
    phase3_id_calls root_config3 = [].
Proof.
  destruct (phase3_exec_calls_exact child_kernel root_config3 "/bin/true"
              initial_pstate
              (snd (SandboxPhase3.sandbox_child child_kernel root_config3
                      "/bin/true" initial_pstate))
              (Execed "/bin/true" ["/bin/true"] (Some [])))
    as (tr & Htr & Hm & _ & Hid).
  - vm_compute. reflexivity.
  - now exists "/bin/true", ["/bin/true"], (Some []).
  - exists tr. split; [exact Htr|]. split; [exact Hm|].
    apply Hid; reflexivity.
Defined.

(** *** The mount stage of secure_sandbox_fixed.c *)

(** X12. With [mount_count] within the mount table,
    [setup_sandbox_mounts] issues the private remount of /, the tmpfs
    mount of /tmp and then one mount per table entry below [mount_count],
    in table order, a read-only entry with MS_RDONLY added to its flags.
    It returns 0 after 2 + [mount_count] successful mounts; the first
    mount that fails ends it with [-errno] and no later entry is
    mounted. *)
Theorem custom_mounts_stop_at_first_failure (K : kernel)
    (cfg : SandboxFixed.sandbox_config) (s : pstate) :
  SandboxFixed.mount_count cfg
  <= Z.of_nat (length (SandboxFixed.mounts cfg)) ->
  exists r s' tr,
    SandboxFixed.setup_sandbox_mounts K cfg s = (Ret r, s') /\
    trace s' = trace s ++ tr /\
    ((r = 0 /\ map fst tr = mount_calls cfg /\ Forall ok tr /\
      length tr = (2 + Z.to_nat (SandboxFixed.mount_count cfg))%nat) \/
     (exists pre sc e rest,
         tr = pre ++ [(sc, SysErr e)] /\ Forall ok pre /\
         mount_calls cfg = map fst pre ++ sc :: rest /\
         r = - Z.pos e /\
         (length tr <= 2 + Z.to_nat (SandboxFixed.mount_count cfg))%nat)).
Proof.
  intros Hcount.
  destruct (run_calls_fail_fast K (mount_calls cfg) s)
    as (r & s' & tr & Hrun & Htr & Hc).
  exists r, s', tr. rewrite setup_sandbox_mounts_calls.
  split; [exact Hrun|]. split; [exact Htr|].
  assert (Hlen : length (mount_calls cfg)
                 = (2 + Z.to_nat (SandboxFixed.mount_count cfg))%nat).
  { unfold mount_calls. cbn [length]. rewrite length_map, length_take. lia. }
  destruct Hc as [(-> & Hm & Hok) | (pre & sc & e & rest & -> & Hok & Hcs & ->)].
  - left. repeat split; auto.
    rewrite <- Hlen. etransitivity; [symmetry; apply (List.length_map fst)|].
    apply (f_equal (@length _) Hm).
  - right. exists pre, sc, e, rest. repeat split; auto.
    rewrite <- Hlen.
    etransitivity; [|apply Nat.eq_le_incl, eq_sym, (f_equal (@length _) Hcs)].
    rewrite !length_app. cbn [length].
    pose proof (List.length_map fst pre) as Hp. lia.
Qed.

Lemma custom_mounts_stop_at_first_failure_witness :
  exists tr : list event,
    map fst tr = mount_calls mounts_config /\ length tr = 3%nat /\
    nth_error (map fst tr) 2
    = Some (SysMount (Some "/srv/data") "/data" (Some "ext4")
                     (Z.lor MS_NOSUID MS_RDONLY) None).
Proof.
  destruct (custom_mounts_stop_at_first_failure child_kernel mounts_config
              initial_pstate) as (r & s' & tr & Hrun & Htr & Hc).
  - simpl. lia.
  - exists tr. vm_compute in Hrun. inversion Hrun; subst s'.
    simpl in Htr. subst tr. repeat split.
Defined.

(** *** The caller of the phase 3 sandbox *)

Lemma WEXITSTATUS_range status :
  0 <= SandboxPhase3.WEXITSTATUS status <= 255.
Proof.
  unfold SandboxPhase3.WEXITSTATUS. change 0xff with (Z.ones 8).
  rewrite Z.land_ones by lia.
  change (2 ^ 8) with 256. change (Z.ones 8) with 255.
  pose proof (Z.mod_pos_bound (Z.shiftr status 8) 256 eq_refl). lia.
Qed.

Lemma WEXITSTATUS_signalled status :
  0 <= status < 256 -> SandboxPhase3.WEXITSTATUS status = 0.
Proof.
  intros H. unfold SandboxPhase3.WEXITSTATUS.
  rewrite Z.shiftr_div_pow2 by lia. change (2 ^ 8) with 256.
  now rewrite Z.div_small by lia.
Qed.

(** X13. In the caller, after a successful fork, the phase 3
    [create_secure_sandbox] makes exactly one more call, a blocking
    [waitpid] for the child. It returns -1 when that fails and otherwise
    bits 8 to 15 of the wait status, a value between 0 and 255, without
    testing how the child ended: a status below 256, which is what a
    child killed by a signal leaves, gives 0. *)
Theorem phase3_parent_reports_exit_status (K : kernel)
    (cfg : SandboxPhase3.sandbox_config_t) (prog : string) (s : pstate)
    (child : N) :
  SandboxPhase3.program cfg = Some prog ->
  sys K (trace s) SysFork = SysOk child ->
  (0 < child)%N ->
  exists r s' answer,
    SandboxPhase3.create_secure_sandbox K (Some cfg) s = (Ret r, s') /\
    trace s' = trace s ++ [(SysFork, SysOk child);
                           (SysWaitpid (Z.of_N child) 0, answer)] /\
    match answer with
    | SysErr _ => r = -1
    | SysOk _ =>
        let status := wait_status K (trace s ++ [(SysFork, SysOk child)]) in
        r = SandboxPhase3.WEXITSTATUS status /\ 0 <= r <= 255 /\
        (0 <= status < 256 -> r = 0)
    end.
Proof.
  intros Hprog Hfork Hpos. unfold SandboxPhase3.create_secure_sandbox.
  rewrite Hprog, bind_syscall, Hfork. cbn [rv].
  replace (Z.of_N child <? 0) with false by (symmetry; lia).
  replace (Z.of_N child =? 0) with false by (symmetry; lia).
  destruct (sys K (trace s ++ [(SysFork, SysOk child)])
                (SysWaitpid (Z.of_N child) 0)) as [v|e] eqn:E.
  - eexists _, _, (SysOk v). split.
    + rewrite bind_waitpid, !trace_push, E. cbn [fst snd].
      rewrite rv_ok_nonneg. cbv iota. reflexivity.
    + split; [now rewrite !trace_push, <- app_assoc|].
      cbv zeta. split; [reflexivity|].
      split; [apply WEXITSTATUS_range|apply WEXITSTATUS_signalled].
  - eexists _, _, (SysErr e). split.
    + rewrite bind_waitpid, !trace_push, E. cbn [fst snd].
      rewrite rv_err_neg. cbv iota. repeat run1. reflexivity.
    + split; [|reflexivity].
      now rewrite trace_add_audit, !trace_push, <- app_assoc.
Qed.

Lemma phase3_parent_reports_exit_status_witness :
  fst (SandboxPhase3.create_secure_sandbox (killed_kernel 9)
         (Some demo_config3) initial_pstate) = Ret 0.
Proof.
  destruct (phase3_parent_reports_exit_status (killed_kernel 9) demo_config3
              "/bin/true" initial_pstate 4242)
    as (r & s' & answer & Hrun & Htr & Hres).
  - reflexivity.
  - reflexivity.
  - reflexivity.
  - rewrite Hrun. cbn [fst].
    vm_compute in Hrun. inversion Hrun; subst s'.
    apply (f_equal (fun l => nth_error l 1)) in Htr. cbn in Htr.
    inversion Htr; subst answer. reflexivity.
Defined.

(** *** Monitoring an application sandbox *)

Lemma over_limit_iff lines limit :
  AppSandbox.over_limit lines limit = true <-> Exists (exceeds limit) lines.
Proof.
  induction lines as [|l lines IH]; cbn [AppSandbox.over_limit].
  - split; [discriminate|]. intros H. inversion H.
  - rewrite Exists_cons. unfold exceeds at 1.
    destruct (AppSandbox.is_vmrss l).
    + destruct (AppSandbox.scanned_kb l) as [kb|].
      * destruct ((kb * 1024) mod 2 ^ 64 >? limit) eqn:E.
        -- split; [|reflexivity]. intros _. left.
           split; [reflexivity|]. exists kb. split; [reflexivity|lia].
        -- rewrite IH. split; [now right|].
           intros [(_ & kb' & Hkb & Hgt)|H]; [|exact H].
           inversion Hkb; subst kb'. lia.
      * rewrite IH. split; [now right|].
        intros [(_ & kb' & Hkb & _)|H]; [discriminate|exact H].
    + rewrite IH. split; [now right|].
      intros [(Hv & _)|H]; [discriminate|exact H].
Qed.

(** X14. When the probe [kill(pid, 0)] of [monitor_app_sandbox] fails,
    the status file is not consulted and nothing is logged: with ESRCH
    the function returns 0 and sets the context's status to 0, with any
    other error it returns [-errno] and leaves the context as it is. The
    probe is the only system call. *)
Theorem monitor_reports_gone_process (K : kernel)
    (file : positive + list AppSandbox.status_line)
    (c : AppSandbox.app_sandbox_context) (s : pstate) (e : positive) :
  sys K (trace s) (SysKill (AppSandbox.sandbox_pid c) 0) = SysErr e ->
  exists r ctx' s',
    AppSandbox.monitor_app_sandbox K file (Some c) s = (Ret (r, ctx'), s') /\
    trace s' = trace s ++ [(SysKill (AppSandbox.sandbox_pid c) 0, SysErr e)] /\
    audit s' = audit s /\
    (Z.pos e = ESRCH -> r = 0 /\ ctx' = Some (marked_gone c)) /\
    (Z.pos e <> ESRCH -> r = - Z.pos e /\ ctx' = Some c).
Proof.
  intros Hkill. unfold AppSandbox.monitor_app_sandbox.
  rewrite bind_syscall, Hkill, rv_err_neg. cbv iota.
  rewrite bind_get_errno, !errno_push_err.
  destruct (Z.eqb_spec (Z.pos e) ESRCH) as [He|He];
    unfold ret; eexists _, _, _; (split; [reflexivity|]);
    (split; [apply trace_push|]); (split; [reflexivity|]);
    split; intros H; try contradiction; now split.
Qed.

Lemma monitor_reports_gone_process_witness :
  fst (AppSandbox.monitor_app_sandbox exited_kernel (inr demo_status)
         (Some demo_context) after_reap)
  = Ret (0, Some (marked_gone demo_context)).
Proof.
  destruct (monitor_reports_gone_process exited_kernel (inr demo_status)
              demo_context after_reap 3)
    as (r & ctx' & s' & Hrun & _ & _ & Hgone & _).
  - reflexivity.
  - rewrite Hrun. cbn [fst]. destruct (Hgone eq_refl) as [-> ->].
    reflexivity.
Defined.

(** X15. When the probe succeeds and the status file can be read,
    [monitor_app_sandbox] returns either 1 or -ENOMEM and leaves the
    context as it is. It returns -ENOMEM, and writes one audit line,
    exactly when some line of the file starts with VmRSS:, carries a
    number, and that number times 1024, computed in an [unsigned long],
    exceeds the policy's memory limit. No signal other than the null
    signal is sent: the sandbox keeps running. *)
Theorem monitor_memory_verdict (K : kernel)
    (lines : list AppSandbox.status_line)
    (c : AppSandbox.app_sandbox_context) (s : pstate) (v : N) :
  sys K (trace s) (SysKill (AppSandbox.sandbox_pid c) 0) = SysOk v ->
  exists r s',
    AppSandbox.monitor_app_sandbox K (inr lines) (Some c) s
    = (Ret (r, Some c), s') /\
    trace s' = trace s ++ [(SysKill (AppSandbox.sandbox_pid c) 0, SysOk v)] /\
    (r = - ENOMEM \/ r = 1) /\
    (r = - ENOMEM <->
     Exists (exceeds (AppSandbox.memory_limit (AppSandbox.policy c))) lines) /\
    audit s' = audit s ++
               (if r =? 1 then []
                else [AuditApp "memory limit exceeded"
                               (AppSandbox.app_name (AppSandbox.policy c))
                               (- ENOMEM)]).
Proof.
  intros Hkill. unfold AppSandbox.monitor_app_sandbox.
  rewrite bind_syscall, Hkill, rv_ok_nonneg. cbv iota.
  pose proof (over_limit_iff lines
                (AppSandbox.memory_limit (AppSandbox.policy c))) as Hiff.
  destruct (AppSandbox.over_limit lines _).
  - unfold AppSandbox.audit_log_app_sandbox_event. rewrite bind_log.
    unfold ret. eexists _, _. split; [reflexivity|].
    split; [rewrite trace_add_audit; apply trace_push|].
    split; [now left|]. split; [|reflexivity].
    split; [intros _; now apply Hiff|reflexivity].
  - unfold ret. eexists _, _. split; [reflexivity|].
    split; [apply trace_push|]. split; [now right|].
    split; [|cbn [Z.eqb Pos.eqb]; now rewrite app_nil_r].
    split; [discriminate|]. intros H. apply Hiff in H. discriminate.
Qed.

Lemma monitor_memory_verdict_witness :
  fst (AppSandbox.monitor_app_sandbox child_kernel (inr demo_status)
         (Some demo_context) initial_pstate)
  = Ret (- ENOMEM, Some demo_context).
Proof.
  destruct (monitor_memory_verdict child_kernel demo_status demo_context
              initial_pstate 0)
    as (r & s' & Hrun & _ & _ & Hiff & _).
  - reflexivity.
  - rewrite Hrun. cbn [fst].
    assert (Hr : r = - ENOMEM).
    { apply Hiff. right. left. split; [reflexivity|].
      exists 100000. split; [reflexivity|]. vm_compute. reflexivity. }
    now rewrite Hr.
Defined.

(** *** The security monitor: violations *)

Lemma check_event_violation n out e :
  Monitor.check_event (n, out) e =
  (if is_violation e then Monitor.int_incr n else n, out ++ violation_log e).
Proof.
  unfold Monitor.check_event, is_violation, violation_log,
    Monitor.EVENT_PRIVILEGE_ESCALATION, Monitor.EVENT_POLICY_VIOLATION,
    Monitor.EVENT_ANOMALY_DETECTED.
  destruct (Z.eqb_spec (Monitor.type e) 5) as [H5|H5];
    destruct (Z.eqb_spec (Monitor.type e) 6) as [H6|H6];
    destruct (Z.eqb_spec (Monitor.type e) 7) as [H7|H7];
    try lia; cbn [fst snd orb]; rewrite ?app_nil_r; reflexivity.
Qed.

Lemma check_loop_counts evs n out :
  fold_left Monitor.check_event evs (n, out) =
  (Nat.iter (length (List.filter is_violation evs)) Monitor.int_incr n,
   out ++ flat_map violation_log evs).
Proof.
  revert n out. induction evs as [|e evs IH]; intros n out;
    cbn [fold_left List.filter flat_map].
  - cbn. now rewrite app_nil_r.
  - rewrite check_event_violation, IH, <- app_assoc. f_equal.
    destruct (is_violation e); [|reflexivity].
    cbn [length]. now rewrite Nat.iter_succ_r.
Qed.

(** X16. On an initialised monitor whose event count is within the
    buffer, [check_security_violations] returns the number of buffered
    events whose type is privilege escalation, policy violation or
    anomaly, whatever their severity, and writes one line for each of
    them in arrival order, at priority alert, warning and notice
    respectively. Events, rules and counts are left as they are. *)
Theorem check_counts_violations (s : Monitor.monitor_state) :
  Monitor.monitor_initialized s <> 0 ->
  0 <= Monitor.event_count s <= Monitor.MAX_EVENTS ->
  Monitor.check_security_violations s =
  (Z.of_nat (length (List.filter is_violation (buffered_events s))),
   Monitor.mk_monitor (Monitor.events s) (Monitor.rules s)
     (Monitor.event_count s) (Monitor.rule_count s)
     (Monitor.monitor_initialized s)
     (Monitor.syslog s ++ flat_map violation_log (buffered_events s))).
Proof.
  intros Hinit He. unfold Monitor.check_security_violations.
  apply Z.eqb_neq in Hinit. rewrite Hinit.
  fold (buffered_events s). rewrite check_loop_counts.
  rewrite iter_int_incr; [reflexivity|lia|].
  pose proof (List.filter_length_le is_violation (buffered_events s)) as Hb.
  assert (H1 : Z.of_nat (length (buffered_events s)) <= 10000).
  { unfold buffered_events. rewrite length_take.
    unfold Monitor.MAX_EVENTS in He. lia. }
  apply Nat2Z.inj_le in Hb. lia.
Qed.

Lemma check_counts_violations_witness :
  Monitor.check_security_violations alert_monitor =
  (2, Monitor.mk_monitor (Monitor.events alert_monitor) demo_rules 3 5 1
        [(Monitor.LOG_ALERT, Monitor.LogPrivilegeEscalation 4242 0);
         (Monitor.LOG_NOTICE, Monitor.LogAnomaly "unexpected listener")]).
Proof.
  assert (Hinit : Monitor.monitor_initialized alert_monitor <> 0)
    by (simpl; lia).
  assert (He : 0 <= Monitor.event_count alert_monitor <= Monitor.MAX_EVENTS)
    by (unfold Monitor.MAX_EVENTS; simpl; lia).
  exact (check_counts_violations alert_monitor Hinit He).
Defined.

(** X17. Neither [process_security_events] nor
    [check_security_violations] consumes what it reports: run a second
    time they return the same number and write the same lines once
    more. *)
Theorem reports_are_repeated (s : Monitor.monitor_state) :
  (exists lines,
      Monitor.syslog (snd (Monitor.process_security_events s))
      = Monitor.syslog s ++ lines /\
      Monitor.process_security_events
        (snd (Monitor.process_security_events s))
      = (fst (Monitor.process_security_events s),
         Monitor.mk_monitor (Monitor.events s) (Monitor.rules s)
           (Monitor.event_count s) (Monitor.rule_count s)
           (Monitor.monitor_initialized s)
           (Monitor.syslog s ++ lines ++ lines))) /\
  (exists lines,
      Monitor.syslog (snd (Monitor.check_security_violations s))
      = Monitor.syslog s ++ lines /\
      Monitor.check_security_violations
        (snd (Monitor.check_security_violations s))
      = (fst (Monitor.check_security_violations s),
         Monitor.mk_monitor (Monitor.events s) (Monitor.rules s)
           (Monitor.event_count s) (Monitor.rule_count s)
           (Monitor.monitor_initialized s)
           (Monitor.syslog s ++ lines ++ lines))).
Proof.
  split.
  - unfold Monitor.process_security_events.
    destruct (Monitor.monitor_initialized s =? 0) eqn:Hinit.
    + exists []. cbn [fst snd]. rewrite Hinit, !app_nil_r.
      split; [reflexivity|]. now destruct s.
    + rewrite process_loop_matches. cbn [fst snd Monitor.events
        Monitor.rules Monitor.event_count Monitor.rule_count
        Monitor.monitor_initialized Monitor.syslog].
      rewrite Hinit, process_loop_matches.
      eexists. split; [reflexivity|]. now rewrite <- app_assoc.
  - unfold Monitor.check_security_violations.
    destruct (Monitor.monitor_initialized s =? 0) eqn:Hinit.
    + exists []. cbn [fst snd]. rewrite Hinit, !app_nil_r.
      split; [reflexivity|]. now destruct s.
    + rewrite check_loop_counts. cbn [fst snd Monitor.events
        Monitor.rules Monitor.event_count Monitor.rule_count
        Monitor.monitor_initialized Monitor.syslog].
      rewrite Hinit, check_loop_counts.
      eexists. split; [reflexivity|]. now rewrite <- app_assoc.
Qed.

(** *** The security monitor: the rule table *)

Lemma store_scan_full old l :
  Monitor.converted l = 5 -> Monitor.store_scan old l = rule_of_line l.
Proof.
  intros H. unfold Monitor.store_scan, rule_of_line. now rewrite H.
Qed.

Lemma load_loop_appends lines :
  forall rules rc,
    0 <= rc <= Monitor.MAX_RULES ->
    length rules = Z.to_nat Monitor.MAX_RULES ->
    exists rules' rc',
      Monitor.load_loop lines rules rc = (rules', rc') /\
      length rules' = length rules /\
      rc' = rc + Z.of_nat (length (rules_added lines
                                     (Z.to_nat (Monitor.MAX_RULES - rc)))) /\
      rc' <= Monitor.MAX_RULES /\
      take (Z.to_nat rc') rules'
      = take (Z.to_nat rc) rules
        ++ rules_added lines (Z.to_nat (Monitor.MAX_RULES - rc)).
Proof.
  induction lines as [|l lines IH]; intros rules rc Hrc Hlen;
    cbn [Monitor.load_loop].
  - exists rules, rc. unfold rules_added. cbn [List.filter map].
    rewrite take_nil, app_nil_r. cbn [length]. repeat split; lia.
  - destruct (rc <? Monitor.MAX_RULES) eqn:Hroom.
    2:{ exists rules, rc.
        replace (Z.to_nat (Monitor.MAX_RULES - rc)) with 0%nat by lia.
        unfold rules_added. rewrite take_0, app_nil_r. cbn [length].
        repeat split; lia. }
    cbv zeta.
    set (rule := Monitor.store_scan
                   (default Monitor.zero_rule (rules !! Z.to_nat rc)) l).
    assert (Hslot : (Z.to_nat rc < length rules)%nat) by (rewrite Hlen; lia).
    destruct (Z.eqb_spec (Monitor.converted l) 5) as [Hfull|Hpart].
    + destruct (IH (<[Z.to_nat rc := rule]> rules) (rc + 1))
        as (rules' & rc' & Hrun & Hlen' & Hrc' & Hmax & Htake);
        [lia|now rewrite length_insert|].
      exists rules', rc'. split; [exact Hrun|].
      rewrite length_insert in Hlen'. split; [exact Hlen'|].
      replace (Z.to_nat (Monitor.MAX_RULES - rc))
        with (S (Z.to_nat (Monitor.MAX_RULES - (rc + 1)))) by lia.
      assert (Hfs : fully_scanned l = true)
        by (unfold fully_scanned; now rewrite Hfull).
      unfold rules_added in *. cbn [List.filter]. rewrite Hfs. cbn [map].
      rewrite firstn_cons. cbn [length].
      split; [lia|]. split; [exact Hmax|].
      rewrite Htake.
      replace (Z.to_nat (rc + 1)) with (S (Z.to_nat rc)) by lia.
      rewrite (take_S_r _ _ rule) by (now apply list_lookup_insert_eq).
      rewrite take_insert_ge by lia.
      unfold rule. rewrite store_scan_full by exact Hfull.
      now rewrite <- app_assoc.
    + destruct (IH (<[Z.to_nat rc := rule]> rules) rc)
        as (rules' & rc' & Hrun & Hlen' & Hrc' & Hmax & Htake);
        [lia|now rewrite length_insert|].
      exists rules', rc'. split; [exact Hrun|].
      rewrite length_insert in Hlen'. split; [exact Hlen'|].
      assert (Hfs : fully_scanned l = false)
        by (unfold fully_scanned; lia).
      unfold rules_added in *. cbn [List.filter]. rewrite Hfs.
      split; [exact Hrc'|]. split; [exact Hmax|].
      rewrite Htake. now rewrite take_insert_ge by lia.
Qed.

(** X18. On an initialised monitor whose rule table is within its array,
    [load_security_rules] of a readable file appends to the rules in
    force the lines of which all five fields were converted, in file
    order, until the table holds MAX_RULES rules; lines that do not parse
    are passed over and the rules loaded before are kept. It returns the
    number of rules now in the table, not the number it added, and leaves
    the event buffer as it is. *)
Theorem load_security_rules_appends (s : Monitor.monitor_state)
    (lines : list Monitor.scanned_line) :
  Monitor.monitor_initialized s <> 0 ->
  rules_inv s ->
  let added := rules_added lines
                 (Z.to_nat (Monitor.MAX_RULES - Monitor.rule_count s)) in
  exists s',
    Monitor.load_security_rules (inr lines) s = (Monitor.rule_count s', s') /\
    loaded_rules s' = loaded_rules s ++ added /\
    Monitor.rule_count s' = Monitor.rule_count s + Z.of_nat (length added) /\
    rules_inv s' /\
    buffered_events s' = buffered_events s /\
    Monitor.syslog s'
    = Monitor.syslog s
      ++ [(Monitor.LOG_INFO, Monitor.LogRulesLoaded (Monitor.rule_count s'))].
Proof.
  intros Hinit (Hrc & Hlen) added. unfold Monitor.load_security_rules.
  apply Z.eqb_neq in Hinit. rewrite Hinit.
  destruct (load_loop_appends lines (Monitor.rules s) (Monitor.rule_count s)
              Hrc Hlen) as (rules' & rc' & Hrun & Hlen' & Hrc' & Hmax & Htake).
  rewrite Hrun. eexists (Monitor.mk_monitor _ _ _ _ _ _).
  split; [reflexivity|].
  unfold loaded_rules, buffered_events, rules_inv.
  cbn [Monitor.rules Monitor.rule_count Monitor.events Monitor.event_count
       Monitor.syslog].
  split; [exact Htake|]. split; [exact Hrc'|].
  split; [|split; reflexivity].
  split; [lia|]. now rewrite Hlen'.
Qed.

Lemma load_security_rules_appends_witness :
  exists s',
    Monitor.load_security_rules (inr demo_rules_file) fresh_monitor = (2, s') /\
    loaded_rules s'
    = [Monitor.mk_rule 1 Monitor.EVENT_FILE_ACCESS "shadow" 1 1;
       Monitor.mk_rule 2 Monitor.EVENT_FILE_ACCESS "/etc" 0 1].
Proof.
  assert (Hinit : Monitor.monitor_initialized fresh_monitor <> 0)
    by (simpl; lia).
  assert (Hinv : rules_inv fresh_monitor)
    by (split; [vm_compute; split; discriminate | vm_compute; reflexivity]).
  destruct (load_security_rules_appends fresh_monitor demo_rules_file
              Hinit Hinv) as (s' & Hrun & Hrules & Hcount & _).
  exists s'. split.
  - rewrite Hrun. f_equal. rewrite Hcount. reflexivity.
  - rewrite Hrules. vm_compute. reflexivity.
Defined.

Lemma add_keeps_rules now event s :
  Monitor.rules (snd (fst (Monitor.add_security_event now event s)))
  = Monitor.rules s /\
  Monitor.rule_count (snd (fst (Monitor.add_security_event now event s)))
  = Monitor.rule_count s /\
  Monitor.monitor_initialized
    (snd (fst (Monitor.add_security_event now event s)))
  = Monitor.monitor_initialized s.
Proof.
  unfold Monitor.add_security_event.
  destruct (Monitor.monitor_initialized s =? 0); [now repeat split|].
  destruct event as [ev|]; [|now repeat split].
  destruct (Monitor.event_count s >=? Monitor.MAX_EVENTS);
    [now repeat split|].
  cbv zeta. destruct (Monitor.severity (Monitor.stamp now ev) >=? 8);
    now repeat split.
Qed.

Lemma process_keeps_rules s :
  Monitor.rules (snd (Monitor.process_security_events s)) = Monitor.rules s /\
  Monitor.rule_count (snd (Monitor.process_security_events s))
  = Monitor.rule_count s.
Proof.
  unfold Monitor.process_security_events.
  destruct (Monitor.monitor_initialized s =? 0); [now split|].
  destruct (fold_left _ _ _) as [processed out]. now split.
Qed.

Lemma check_keeps_rules s :
  Monitor.rules (snd (Monitor.check_security_violations s)) = Monitor.rules s /\
  Monitor.rule_count (snd (Monitor.check_security_violations s))
  = Monitor.rule_count s.
Proof.
  unfold Monitor.check_security_violations.
  destruct (Monitor.monitor_initialized s =? 0); [now split|].
  destruct (fold_left _ _ _) as [violations out]. now split.
Qed.

(** The rule table is within its array and empty before initialisation;
    every operation keeps it so and keeps the rules in force. *)
Lemma run_op_rules s op :
  rules_inv s ->
  (Monitor.monitor_initialized s = 0 -> Monitor.rule_count s = 0) ->
  rules_inv (run_op s op) /\
  (Monitor.monitor_initialized (run_op s op) = 0 ->
   Monitor.rule_count (run_op s op) = 0) /\
  exists added, loaded_rules (run_op s op) = loaded_rules s ++ added.
Proof.
  intros Hinv Hzero.
  assert (Hsame : forall s',
             Monitor.rules s' = Monitor.rules s ->
             Monitor.rule_count s' = Monitor.rule_count s ->
             Monitor.monitor_initialized s' = Monitor.monitor_initialized s ->
             rules_inv s' /\
             (Monitor.monitor_initialized s' = 0 -> Monitor.rule_count s' = 0) /\
             exists added, loaded_rules s' = loaded_rules s ++ added).
  { intros s' Hr Hc Hi. unfold rules_inv, loaded_rules.
    rewrite Hr, Hc, Hi. split; [exact Hinv|]. split; [exact Hzero|].
    exists []. now rewrite app_nil_r. }
  destruct op as [|now event|file| |]; cbn [run_op].
  - unfold Monitor.init_security_monitor.
    destruct (Z.eqb_spec (Monitor.monitor_initialized s) 0) as [Hi|Hi];
      cbn [negb snd]; [|now apply Hsame].
    unfold rules_inv, loaded_rules, Monitor.write_syslog.
    cbn [Monitor.rules Monitor.rule_count Monitor.monitor_initialized].
    rewrite length_replicate. unfold Monitor.MAX_RULES.
    split; [split; [lia|reflexivity]|]. split; [discriminate|].
    exists []. rewrite (Hzero Hi). reflexivity.
  - destruct (add_keeps_rules now event s) as (Hr & Hc & Hi).
    now apply Hsame.
  - unfold Monitor.load_security_rules.
    destruct (Z.eqb_spec (Monitor.monitor_initialized s) 0) as [Hi|Hi];
      [now apply Hsame|].
    destruct file as [e|lines]; [now apply Hsame|].
    destruct Hinv as (Hrc & Hlen).
    destruct (load_loop_appends lines (Monitor.rules s) (Monitor.rule_count s)
                Hrc Hlen)
      as (rules' & rc' & Hrun & Hlen' & Hrc' & Hmax & Htake).
    rewrite Hrun. unfold rules_inv, loaded_rules.
    cbn [snd Monitor.rules Monitor.rule_count Monitor.monitor_initialized].
    split; [split; [lia|now rewrite Hlen']|].
    split; [intros H; contradiction|]. eexists. exact Htake.
  - destruct (process_keeps_rules s) as (Hr & Hc).
    destruct (process_keeps_buffer s) as (_ & _ & Hi). now apply Hsame.
  - destruct (check_keeps_rules s) as (Hr & Hc).
    destruct (check_keeps_buffer s) as (_ & _ & Hi). now apply Hsame.
Qed.

Lemma run_ops_rules ops :
  rules_inv (run_ops ops) /\
  (Monitor.monitor_initialized (run_ops ops) = 0 ->
   Monitor.rule_count (run_ops ops) = 0).
Proof.
  unfold run_ops. induction ops as [|op ops IH] using rev_ind.
  - cbn [fold_left]. unfold rules_inv, Monitor.initial_monitor.
    cbn [Monitor.rules Monitor.rule_count]. rewrite length_replicate.
    unfold Monitor.MAX_RULES. repeat split; lia.
  - rewrite fold_left_app. cbn [fold_left]. destruct IH as [Hinv Hzero].
    destruct (run_op_rules _ op Hinv Hzero) as (H1 & H2 & _). now split.
Qed.

(** X19. In every state the monitor reaches from program start the rule
    count lies between 0 and MAX_RULES and the table has its declared
    size, and no operation removes, reorders or changes a rule in force:
    each one leaves the loaded rules as a prefix of the rules loaded
    afterwards. Loading is the only way the table changes; there is no
    way to unload or disable a rule. *)
Theorem rule_table_append_only (ops : list monitor_op) (op : monitor_op) :
  let s := run_ops ops in
  0 <= Monitor.rule_count s <= Monitor.MAX_RULES /\
  length (Monitor.rules s) = Z.to_nat Monitor.MAX_RULES /\
  (exists added, loaded_rules (run_op s op) = loaded_rules s ++ added) /\
  (loaded_rules (run_op s op) = loaded_rules s \/
   exists file, op = OpLoad file).
Proof.
  intros s. destruct (run_ops_rules ops) as [Hinv Hzero]. fold s in Hinv, Hzero.
  destruct (run_op_rules s op Hinv Hzero) as (_ & _ & Happ).
  split; [apply Hinv|]. split; [apply Hinv|]. split; [exact Happ|].
  unfold loaded_rules.
  destruct op as [|now event|file| |]; cbn [run_op];
    [left|left|right; now exists file|left|left].
  - unfold Monitor.init_security_monitor.
    destruct (Z.eqb_spec (Monitor.monitor_initialized s) 0) as [Hi|Hi];
      cbn [negb snd]; [|reflexivity].
    unfold Monitor.write_syslog. cbn [Monitor.rules Monitor.rule_count].
    rewrite (Hzero Hi). reflexivity.
  - destruct (add_keeps_rules now event s) as (Hr & Hc & _).
    now rewrite Hr, Hc.
  - destruct (process_keeps_rules s) as (Hr & Hc). now rewrite Hr, Hc.
  - destruct (check_keeps_rules s) as (Hr & Hc). now rewrite Hr, Hc.
Qed.

(** *** The security monitor before initialisation *)

Lemma run_op_uninitialised s op :
  Monitor.monitor_initialized s = 0 -> is_init op = false -> run_op s op = s.
Proof.
  intros Hi Hop. destruct op as [|now event|file| |]; cbn [run_op];
    [discriminate| | | |].
  - unfold Monitor.add_security_event. now rewrite Hi.
  - unfold Monitor.load_security_rules. now rewrite Hi.
  - unfold Monitor.process_security_events. now rewrite Hi.
  - unfold Monitor.check_security_violations. now rewrite Hi.
Qed.

(** X20. Until [init_security_monitor] has been called the monitor is
    inert: whatever sequence of additions, rule loads, processing and
    checking runs from program start, the state is still the zeroed
    initial one, and each of these operations returns -EINVAL without
    storing, opening or logging anything. *)
Theorem uninitialised_monitor_is_inert (ops : list monitor_op) (now : Z)
    (event : option Monitor.security_event)
    (file : positive + list Monitor.scanned_line) :
  existsb is_init ops = false ->
  let s := run_ops ops in
  s = Monitor.initial_monitor /\
  Monitor.add_security_event now event s = (- EINVAL, s, event) /\
  Monitor.load_security_rules file s = (- EINVAL, s) /\
  Monitor.process_security_events s = (- EINVAL, s) /\
  Monitor.check_security_violations s = (- EINVAL, s).
Proof.
  intros Hops s.
  assert (Hs : s = Monitor.initial_monitor).
  { unfold s, run_ops. induction ops as [|op ops IH] using rev_ind;
      [reflexivity|].
    rewrite existsb_app in Hops. apply orb_false_iff in Hops.
    destruct Hops as [Hops Hop]. cbn [existsb] in Hop.
    rewrite orb_false_r in Hop.
    rewrite fold_left_app. cbn [fold_left]. rewrite (IH Hops).
    now apply run_op_uninitialised. }
  split; [exact Hs|]. rewrite Hs.
  unfold Monitor.add_security_event, Monitor.load_security_rules,
    Monitor.process_security_events, Monitor.check_security_violations.
  cbn [Monitor.monitor_initialized Monitor.initial_monitor Z.eqb].
  repeat split.
Qed.

Lemma uninitialised_monitor_is_inert_witness :
  run_ops [OpAdd 7 (Some demo_event); OpLoad (inr demo_rules_file);
           OpProcess; OpCheck]
  = Monitor.initial_monitor.
Proof.
  exact (proj1 (uninitialised_monitor_is_inert
                  [OpAdd 7 (Some demo_event); OpLoad (inr demo_rules_file);
                   OpProcess; OpCheck]
                  0 None (inl 2%positive) eq_refl)).
Defined.

(** * The children from start to end *)

(** ** Stages that stop at the first failing call *)

Lemma last_line_add_audit st m : last_line (add_audit st m) m.
Proof. unfold last_line. rewrite audit_add_audit. apply last_snoc. Qed.

Lemma errno_add_audit st m : errno (add_audit st m) = errno st.
Proof. reflexivity. Qed.

Lemma lenient_cons_ok tol c v tr :
  lenient tol tr -> lenient tol ((c, SysOk v) :: tr).
Proof. intros H. constructor; [right; now exists v|exact H]. Qed.

Lemma stage_runs_ext tol code (f g : proc Z) cs :
  (forall s, f s = g s) -> stage_runs tol code g cs -> stage_runs tol code f cs.
Proof. intros E H s. rewrite E. apply H. Qed.

Lemma run_calls_stage_runs tol K cs :
  Forall (fun c => tol c = false) cs ->
  stage_runs tol errno_code (run_calls K cs) cs.
Proof.
  induction cs as [|c cs IH]; intros Htol s.
  - exists 0, s, []. rewrite app_nil_r. repeat split. left.
    repeat split; [lia|constructor].
  - inversion Htol as [|c' cs' Hc Hcs]; subst.
    cbn [run_calls]. answer v e E.
    + destruct (IH Hcs (push s c (SysOk v)))
        as (r & s' & tr & Hrun & Htr & Hcase).
      exists r, s', ((c, SysOk v) :: tr). split; [exact Hrun|].
      split; [rewrite Htr, trace_push, <- app_assoc; reflexivity|].
      destruct Hcase as [(Hr & Hm & Hl) |
        (pre & sc & e & rest & Ht & Hl & Hsc & Hcalls & Hr & Hneg & He)].
      * left. split; [exact Hr|]. split; [cbn; now f_equal|].
        now apply lenient_cons_ok.
      * right. exists ((c, SysOk v) :: pre), sc, e, rest.
        split; [now rewrite Ht|]. split; [now apply lenient_cons_ok|].
        split; [exact Hsc|]. split; [cbn; now f_equal|]. auto.
    + run1. rewrite errno_push_err. unfold ret.
      eexists _, _, [(c, SysErr e)]. split; [reflexivity|].
      split; [apply trace_push|]. right. exists [], c, e, cs.
      split; [reflexivity|]. split; [constructor|]. split; [exact Hc|].
      split; [reflexivity|]. split; [reflexivity|].
      split; [lia|apply errno_push_err].
Qed.

Lemma syscall_stage_runs tol K c :
  tol c = false -> stage_runs tol minus_one (syscall_ K c) [c].
Proof.
  intros Hc s. unfold syscall_.
  eexists _, _, [(c, sys K (trace s) c)]. split; [reflexivity|].
  split; [apply trace_push|].
  destruct (sys K (trace s) c) as [v|e].
  - left. split; [cbn; lia|]. split; [reflexivity|].
    apply lenient_cons_ok. constructor.
  - right. exists [], c, e, []. split; [reflexivity|].
    split; [constructor|]. split; [exact Hc|]. split; [reflexivity|].
    split; [reflexivity|]. split; [cbn; lia|apply errno_push_err].
Qed.

Lemma cap_drop_stage_runs tol K required :
  tol SysCapget = false -> (forall d, tol (SysCapset d) = false) ->
  stage_runs tol failure_code
             (Capability.secureos_cap_drop_all_except K required)
             [SysCapget; SysCapset (drop_caps_data required)].
Proof.
  intros Hget Hset s. destruct (sys K (trace s) SysCapget) as [v|e] eqn:E.
  - rewrite (drop_all_except_submits K required s v E).
    unfold Capability.secureos_cap_set_proc, syscall_.
    eexists _, _, [_; _]. split; [reflexivity|].
    split; [now rewrite !trace_push, <- app_assoc|].
    destruct (sys K _ (SysCapset _)) as [v2|e2].
    + left. split; [cbn; lia|]. split; [reflexivity|].
      apply lenient_cons_ok, lenient_cons_ok. constructor.
    + right. exists [(SysCapget, SysOk v)], (SysCapset (drop_caps_data required)),
        e2, []. split; [reflexivity|].
      split; [apply lenient_cons_ok; constructor|]. split; [apply Hset|].
      split; [reflexivity|]. split; [reflexivity|].
      split; [cbn; lia|apply errno_push_err].
  - rewrite (drop_all_except_capget_fails K required s e E).
    eexists _, _, [_]. split; [reflexivity|].
    split; [apply trace_push|]. right.
    exists [], SysCapget, e, [SysCapset (drop_caps_data required)].
    split; [reflexivity|]. split; [constructor|]. split; [exact Hget|].
    split; [reflexivity|]. split; [reflexivity|].
    split; [cbn; lia|apply errno_push_err].
Qed.

Lemma fixed_cap_drop_stage_runs K required :
  stage_runs none_tolerated failure_code
             (SandboxFixed.drop_all_capabilities_except K required)
             [SysCapget; SysCapset (drop_caps_data required)].
Proof.
  intros s.
  destruct (cap_drop_stage_runs none_tolerated K required eq_refl
              (fun _ => eq_refl) s) as (r & s' & tr & Hrun & Htr & Hcase).
  unfold SandboxFixed.drop_all_capabilities_except.
  rewrite (bind_ret_run _ _ _ _ _ Hrun).
  unfold Capability.audit_capability_operation. rewrite bind_log. unfold ret.
  exists r. eexists. exists tr. split; [reflexivity|].
  rewrite trace_add_audit, errno_add_audit. auto.
Qed.

Lemma calls_app (a b : list event) (cs rest : list syscall) all :
  all = map fst a ++ cs ++ rest -> map fst b = cs ->
  all = map fst (a ++ b) ++ rest.
Proof.
  intros -> <-. rewrite app_assoc. f_equal. symmetry. apply List.map_app.
Qed.

Lemma calls_stop (a pre : list event) sc (cs rest rest' : list syscall) all :
  all = map fst a ++ cs ++ rest -> cs = map fst pre ++ sc :: rest' ->
  all = map fst (a ++ pre) ++ sc :: rest' ++ rest.
Proof.
  intros -> ->. rewrite <- !app_assoc, app_assoc. cbn [app]. f_equal.
  symmetry. apply List.map_app.
Qed.

(** One stage of a child: when the stage stops, the child has stopped
    there; when it goes through, the rest of the child runs from a state
    that has the stage's calls behind it. *)
Lemma run_step tol report (code : syscall -> positive -> Z) all s0
    (Q : outcome Z * pstate -> Prop)
    (f : proc Z) (failk : Z -> proc Z) (rest : proc Z) cs csr s tr0 :
  stage_runs tol code f cs ->
  trace s = trace s0 ++ tr0 -> lenient tol tr0 ->
  all = map fst tr0 ++ cs ++ csr ->
  (forall sc e st, In sc cs -> errno st = Z.pos e ->
     exists st', failk (code sc e) st = (Exited EXIT_FAILURE, st') /\
                 trace st' = trace st /\ report sc e st') ->
  (forall res, stopped tol report all s0 res -> Q res) ->
  (forall s1 tr1, trace s1 = trace s0 ++ tr1 -> lenient tol tr1 ->
                  all = map fst tr1 ++ csr -> Q (rest s1)) ->
  Q (bind f (fun r => if r <? 0 then failk r else rest) s).
Proof.
  intros Hf Hs Hl Hall Hfail Hstop Hrest.
  destruct (Hf s) as (r & s1 & tr & Hrun & Htr & Hcase).
  rewrite (bind_ret_run _ _ _ _ _ Hrun).
  destruct Hcase as [(Hr & Hcs & Hlen) |
    (pre & sc & e & rest' & Ht & Hlen & Hsc & Hcs & Hr & Hneg & He)].
  - replace (r <? 0) with false by (symmetry; lia).
    apply (Hrest s1 (tr0 ++ tr)).
    + rewrite Htr, Hs. now rewrite app_assoc.
    + now apply lenient_app.
    + exact (calls_app _ _ _ _ _ Hall Hcs).
  - replace (r <? 0) with true by (symmetry; lia). rewrite Hr.
    assert (Hin : In sc cs) by (rewrite Hcs; apply in_elt).
    destruct (Hfail sc e s1 Hin He) as (st' & Hk & Hst & Hrep).
    rewrite Hk. apply Hstop. split; [reflexivity|].
    exists (tr0 ++ pre), sc, e, (rest' ++ csr). cbn [snd].
    split; [rewrite Hst, Htr, Hs, Ht; now rewrite <- !app_assoc|].
    split; [now apply lenient_app|]. split; [exact Hsc|].
    split; [|exact Hrep].
    exact (calls_stop _ _ _ _ _ _ _ Hall Hcs).
Qed.

Lemma run_inline_step tol all s0 (Q : outcome Z * pstate -> Prop)
    (f : proc unit) (rest : proc Z) cs csr s tr0 :
  inline_runs tol f cs ->
  trace s = trace s0 ++ tr0 -> lenient tol tr0 ->
  all = map fst tr0 ++ cs ++ csr ->
  (forall res, stopped tol no_report all s0 res -> Q res) ->
  (forall s1 tr1, trace s1 = trace s0 ++ tr1 -> lenient tol tr1 ->
                  all = map fst tr1 ++ csr -> Q (rest s1)) ->
  Q (bind f (fun _ => rest) s).
Proof.
  intros Hf Hs Hl Hall Hstop Hrest.
  destruct (Hf s) as (o & s1 & tr & Hrun & Htr & Hcase).
  unfold bind. rewrite Hrun.
  destruct Hcase as [(-> & Hcs & Hlen) |
    (-> & pre & sc & e & rest' & Ht & Hlen & Hsc & Hcs)].
  - apply (Hrest s1 (tr0 ++ tr)).
    + rewrite Htr, Hs. now rewrite app_assoc.
    + now apply lenient_app.
    + exact (calls_app _ _ _ _ _ Hall Hcs).
  - apply Hstop. split; [reflexivity|].
    exists (tr0 ++ pre), sc, e, (rest' ++ csr). cbn [snd].
    split; [rewrite Htr, Hs, Ht; now rewrite <- !app_assoc|].
    split; [now apply lenient_app|]. split; [exact Hsc|].
    split; [|exact I].
    exact (calls_stop _ _ _ _ _ _ _ Hall Hcs).
Qed.

(** ** The child of secure_sandbox_fixed.c *)

Lemma fixed_line_mounts cfg sc e :
  In sc (mount_calls cfg) ->
  fixed_failure_line sc e = AuditSandboxFailure "mount setup" (errno_code sc e).
Proof.
  unfold mount_calls. intros [<-|[<-|Hin]]; try reflexivity.
  apply in_map_iff in Hin as (m & <- & _). reflexivity.
Qed.

Lemma fixed_line_seccomp sc e :
  In sc strict_seccomp_calls ->
  fixed_failure_line sc e
  = AuditSandboxFailure "seccomp setup" (errno_code sc e).
Proof. intros [<-|[<-|[]]]; reflexivity. Qed.

Lemma fixed_line_caps d sc e :
  In sc [SysCapget; SysCapset d] ->
  fixed_failure_line sc e
  = AuditSandboxFailure "capability drop" (failure_code sc e).
Proof. intros [<-|[<-|[]]]; reflexivity. Qed.

Lemma in_limit_call_pos sc res field :
  In sc (limit_call_pos res field) -> sc = SysSetrlimit res field field.
Proof.
  unfold limit_call_pos. destruct (field >? 0); [|intros []].
  intros [<-|[]]. reflexivity.
Qed.

Lemma fixed_line_limits l sc e :
  In sc (code_limit_calls l) ->
  fixed_failure_line sc e
  = AuditSandboxFailure "resource limits" (errno_code sc e).
Proof.
  unfold code_limit_calls. rewrite !in_app_iff.
  intros [H|[H|[H|[H|H]]]]; apply in_limit_call_pos in H; subst;
    reflexivity.
Qed.

Lemma none_tolerated_all cs : Forall (fun c => none_tolerated c = false) cs.
Proof. apply Forall_forall. reflexivity. Qed.

Lemma fixed_child_complete K cfg s :
  fixed_child_runs cfg s (SandboxFixed.sandbox_child K cfg s).
Proof.
  assert (Hs : trace s = trace s ++ []) by now rewrite app_nil_r.
  assert (Hl : lenient none_tolerated []) by constructor.
  assert (Hall : fixed_setup_calls cfg = map fst (@nil event) ++
            [SysUnshare SandboxFixed.unshare_flags] ++
            mount_calls cfg ++ strict_seccomp_calls ++
            [SysCapget; SysCapset (drop_caps_data (SandboxFixed.required_caps cfg))] ++
            code_limit_calls (SandboxFixed.limits cfg) ++
            [SysSetgid (SandboxFixed.gid cfg); SysSetuid (SandboxFixed.uid cfg)])
    by reflexivity.
  assert (Hstop : forall res,
             stopped none_tolerated fixed_reports (fixed_setup_calls cfg) s res ->
             fixed_child_runs cfg s res) by (intros res H; now left).
  unfold SandboxFixed.sandbox_child, SandboxFixed.audit_log_sandbox_failure.
  eapply (run_step none_tolerated fixed_reports minus_one);
    [ apply syscall_stage_runs; reflexivity
    | exact Hs | exact Hl | exact Hall
    | intros sc e st [<-|[]] He; eexists; split; [reflexivity|];
      split; [reflexivity|];
      unfold fixed_reports, fixed_failure_line, fixed_stage_name;
      rewrite <- He; apply last_line_add_audit
    | exact Hstop
    | clear Hs Hl Hall; intros s1 tr1 Hs Hl Hall ].
  eapply (run_step none_tolerated fixed_reports errno_code);
    [ eapply stage_runs_ext;
      [ apply setup_sandbox_mounts_calls
      | apply run_calls_stage_runs, none_tolerated_all ]
    | exact Hs | exact Hl | exact Hall
    | intros sc e st Hin He; eexists; split; [reflexivity|];
      split; [reflexivity|];
      unfold fixed_reports; rewrite (fixed_line_mounts _ _ e Hin);
      apply last_line_add_audit
    | exact Hstop
    | clear s1 tr1 Hs Hl Hall; intros s1 tr1 Hs Hl Hall ].
  eapply (run_step none_tolerated fixed_reports errno_code);
    [ eapply stage_runs_ext;
      [ apply apply_seccomp_filter_calls
      | apply run_calls_stage_runs, none_tolerated_all ]
    | exact Hs | exact Hl | exact Hall
    | intros sc e st Hin He; eexists; split; [reflexivity|];
      split; [reflexivity|];
      unfold fixed_reports; rewrite (fixed_line_seccomp _ e Hin);
      apply last_line_add_audit
    | exact Hstop
    | clear s1 tr1 Hs Hl Hall; intros s1 tr1 Hs Hl Hall ].
  eapply (run_step none_tolerated fixed_reports failure_code);
    [ apply fixed_cap_drop_stage_runs
    | exact Hs | exact Hl | exact Hall
    | intros sc e st Hin He; eexists; split; [reflexivity|];
      split; [reflexivity|];
      unfold fixed_reports; rewrite (fixed_line_caps _ _ e Hin);
      apply last_line_add_audit
    | exact Hstop
    | clear s1 tr1 Hs Hl Hall; intros s1 tr1 Hs Hl Hall ].
  eapply (run_step none_tolerated fixed_reports errno_code);
    [ eapply stage_runs_ext;
      [ apply apply_resource_limits_calls
      | apply run_calls_stage_runs, none_tolerated_all ]
    | exact Hs | exact Hl | exact Hall
    | intros sc e st Hin He; eexists; split; [reflexivity|];
      split; [reflexivity|];
      unfold fixed_reports; rewrite (fixed_line_limits _ _ e Hin);
      apply last_line_add_audit
    | exact Hstop
    | clear s1 tr1 Hs Hl Hall; intros s1 tr1 Hs Hl Hall ].
  destruct (change_to_sandbox_user_run K (SandboxFixed.uid cfg)
              (SandboxFixed.gid cfg) s1) as (r & s2 & Hrun & Haud & Hcases).
  rewrite (bind_ret_run _ _ _ _ _ Hrun).
  destruct Hcases as [(e & Htr & ->) | [(g & e & Htr & ->) |
                     [(g & u & Htr & ->) | (g & u & z & Htr & Hz & ->)]]].
  - rewrite neg_errno_neg, bind_log. apply Hstop. split; [reflexivity|].
    exists tr1, (SysSetgid (SandboxFixed.gid cfg)), e,
      [SysSetuid (SandboxFixed.uid cfg)].
    cbn [snd _exit]. rewrite trace_add_audit, Htr, Hs, <- app_assoc.
    split; [reflexivity|]. split; [exact Hl|]. split; [reflexivity|].
    split; [exact Hall|apply last_line_add_audit].
  - rewrite neg_errno_neg, bind_log. apply Hstop. split; [reflexivity|].
    exists (tr1 ++ [(SysSetgid (SandboxFixed.gid cfg), SysOk g)]),
      (SysSetuid (SandboxFixed.uid cfg)), e, [].
    cbn [snd _exit]. rewrite trace_add_audit, Htr, Hs, <- !app_assoc.
    split; [reflexivity|].
    split; [apply lenient_app; [exact Hl|apply lenient_cons_ok; constructor]|].
    split; [reflexivity|].
    split; [|apply last_line_add_audit].
    apply (calls_app tr1 [(SysSetgid (SandboxFixed.gid cfg), SysOk g)]
             [SysSetgid (SandboxFixed.gid cfg)]
             [SysSetuid (SandboxFixed.uid cfg)]); [exact Hall|reflexivity].
  - change (- EPERM <? 0) with true. cbv iota. rewrite bind_log.
    right. exists (tr1 ++ [(SysSetgid (SandboxFixed.gid cfg), SysOk g);
                           (SysSetuid (SandboxFixed.uid cfg), SysOk u)]).
    split; [rewrite Hall; apply List.map_app|].
    split.
    { apply Forall_app. split; [now apply lenient_none|].
      constructor; [now exists g|]. constructor; [now exists u|constructor]. }
    left. cbn [fst snd _exit]. split; [reflexivity|].
    rewrite trace_add_audit, Htr, Hs, <- !app_assoc.
    split; [reflexivity|apply last_line_add_audit].
  - change (0 <? 0) with false. cbv iota. rewrite bind_syscall.
    unfold SandboxFixed.audit_log_sandbox_success. rewrite bind_log.
    unfold execve. rewrite bind_exec.
    set (me := sys K (trace s2) SysGetpid).
    set (s3 := add_audit _ _).
    right. exists (tr1 ++ [(SysSetgid (SandboxFixed.gid cfg), SysOk g);
                           (SysSetuid (SandboxFixed.uid cfg), SysOk u)]).
    split; [rewrite Hall; apply List.map_app|].
    split.
    { apply Forall_app. split; [now apply lenient_none|].
      constructor; [now exists g|]. constructor; [now exists u|constructor]. }
    right. exists z, me.
    exists (sys K (trace s3) (SysExecve (SandboxFixed.program cfg)
                                (SandboxFixed.argv cfg)
                                (Some (SandboxFixed.envp cfg)))).
    split; [exact Hz|].
    destruct (sys K (trace s3) _) as [x|ex] eqn:Ex; cbn [fst snd _exit];
      (split; [ subst s3; rewrite trace_push, trace_add_audit, trace_push,
                  Htr, Hs, <- !app_assoc; reflexivity |]);
      (split; [|reflexivity]);
      unfold last_line; rewrite audit_push; subst s3;
      rewrite audit_add_audit; apply last_snoc.
Qed.

(** ** The child of app_sandbox.c *)

Lemma app_filesystem_stage_runs K p :
  stage_runs is_bind_mount errno_code (AppSandbox.setup_app_filesystem K p)
             (app_mount_calls p).
Proof.
  intros s. unfold AppSandbox.setup_app_filesystem.
  answer a1 e1 E1; [answer a2 e2 E2|].
  - match goal with
    | |- context [bind (AppSandbox.mount_allowed_files K ?fs) _ ?st] =>
        destruct (mount_allowed_files_calls K fs st)
          as (s' & tr & Hrun & Htr & Hm & Hl);
        rewrite (bind_ret_run _ _ _ _ _ Hrun)
    end.
    unfold ret. eexists _, _, ([_; _] ++ tr). split; [reflexivity|].
    split; [now rewrite Htr, !trace_push, <- !app_assoc|].
    left. split; [lia|]. split.
    + unfold app_mount_calls, app_base_mounts.
      etransitivity; [apply List.map_app|]. cbn [map fst]. now f_equal.
    + apply lenient_app; [|exact Hl].
      apply lenient_cons_ok, lenient_cons_ok. constructor.
  - rewrite bind_get_errno, errno_push_err. unfold ret.
    eexists _, _, [_; _]. split; [reflexivity|].
    split; [now rewrite !trace_push, <- !app_assoc|]. right.
    eexists [(_, SysOk a1)], _, e2, _.
    split; [reflexivity|]. split; [apply lenient_cons_ok; constructor|].
    split; [reflexivity|]. split; [reflexivity|].
    split; [reflexivity|]. split; [unfold errno_code; lia|].
    apply errno_push_err.
  - rewrite bind_get_errno, errno_push_err. unfold ret.
    eexists _, _, [_]. split; [reflexivity|]. split; [apply trace_push|].
    right. eexists [], _, e1, _.
    split; [reflexivity|]. split; [constructor|].
    split; [reflexivity|]. split; [reflexivity|].
    split; [reflexivity|]. split; [unfold errno_code; lia|].
    apply errno_push_err.
Qed.

Lemma app_line_mounts n p sc e :
  In sc (app_mount_calls p) ->
  app_failure_line n sc e = AuditApp "filesystem setup" n (errno_code sc e).
Proof.
  unfold app_mount_calls. rewrite in_app_iff.
  intros [[<-|[<-|[]]]|Hin]; try reflexivity.
  apply in_map_iff in Hin as (f & <- & _). reflexivity.
Qed.

Lemma app_line_seccomp n sc e :
  In sc strict_seccomp_calls ->
  app_failure_line n sc e = AuditApp "seccomp setup" n (errno_code sc e).
Proof. intros [<-|[<-|[]]]; reflexivity. Qed.

Lemma app_line_caps n d sc e :
  In sc [SysCapget; SysCapset d] ->
  app_failure_line n sc e = AuditApp "capability drop" n (failure_code sc e).
Proof. intros [<-|[<-|[]]]; reflexivity. Qed.

Lemma app_line_limits n p sc e :
  In sc (app_limit_calls p) ->
  app_failure_line n sc e = AuditApp "resource limits" n (errno_code sc e).
Proof. intros [<-|[<-|[<-|[<-|[]]]]]; reflexivity. Qed.

Lemma app_child_complete K policy app_path argv s :
  app_child_runs policy app_path argv s
                 (AppSandbox.sandbox_child K policy app_path argv s).
Proof.
  set (n := AppSandbox.app_name policy).
  assert (Hs : trace s = trace s ++ []) by now rewrite app_nil_r.
  assert (Hl : lenient is_bind_mount []) by constructor.
  assert (Hall : app_setup_calls policy = map fst (@nil event) ++
            [SysUnshare (app_ns_flags policy)] ++
            app_mount_calls policy ++ strict_seccomp_calls ++
            [SysCapget;
             SysCapset (drop_caps_data (AppSandbox.allowed_capabilities policy))] ++
            app_limit_calls policy ++
            [SysSetgid (AppSandbox.sandbox_gid policy);
             SysSetuid (AppSandbox.sandbox_uid policy)])
    by reflexivity.
  assert (Hstop : forall res,
             stopped is_bind_mount (app_reports n) (app_setup_calls policy) s res ->
             app_child_runs policy app_path argv s res)
    by (intros res H; now left).
  unfold AppSandbox.sandbox_child, AppSandbox.audit_log_app_sandbox_event.
  cbv zeta. fold n.
  eapply (run_step is_bind_mount (app_reports n) minus_one);
    [ apply (syscall_stage_runs _ K (SysUnshare (app_ns_flags policy)));
      reflexivity
    | exact Hs | exact Hl | exact Hall
    | intros sc e st [<-|[]] He; eexists; split; [reflexivity|];
      split; [reflexivity|];
      unfold app_reports, app_failure_line, app_stage_name, failure_code;
      rewrite <- He; apply last_line_add_audit
    | exact Hstop
    | clear Hs Hl Hall; intros s1 tr1 Hs Hl Hall ].
  eapply (run_step is_bind_mount (app_reports n) errno_code);
    [ apply app_filesystem_stage_runs
    | exact Hs | exact Hl | exact Hall
    | intros sc e st Hin He; eexists; split; [reflexivity|];
      split; [reflexivity|];
      unfold app_reports; rewrite (app_line_mounts n _ _ e Hin);
      apply last_line_add_audit
    | exact Hstop
    | clear s1 tr1 Hs Hl Hall; intros s1 tr1 Hs Hl Hall ].
  eapply (run_step is_bind_mount (app_reports n) errno_code);
    [ eapply stage_runs_ext;
      [ apply apply_app_seccomp_calls
      | apply run_calls_stage_runs; repeat constructor ]
    | exact Hs | exact Hl | exact Hall
    | intros sc e st Hin He; eexists; split; [reflexivity|];
      split; [reflexivity|];
      unfold app_reports; rewrite (app_line_seccomp n _ e Hin);
      apply last_line_add_audit
    | exact Hstop
    | clear s1 tr1 Hs Hl Hall; intros s1 tr1 Hs Hl Hall ].
  eapply (run_step is_bind_mount (app_reports n) failure_code);
    [ apply cap_drop_stage_runs; [reflexivity|intros; reflexivity]
    | exact Hs | exact Hl | exact Hall
    | intros sc e st Hin He; eexists; split; [reflexivity|];
      split; [reflexivity|];
      unfold app_reports; rewrite (app_line_caps n _ _ e Hin);
      apply last_line_add_audit
    | exact Hstop
    | clear s1 tr1 Hs Hl Hall; intros s1 tr1 Hs Hl Hall ].
  eapply (run_step is_bind_mount (app_reports n) errno_code);
    [ eapply stage_runs_ext;
      [ apply apply_app_resource_limits_calls
      | apply run_calls_stage_runs; repeat constructor ]
    | exact Hs | exact Hl | exact Hall
    | intros sc e st Hin He; eexists; split; [reflexivity|];
      split; [reflexivity|];
      unfold app_reports; rewrite (app_line_limits n _ _ e Hin);
      apply last_line_add_audit
    | exact Hstop
    | clear s1 tr1 Hs Hl Hall; intros s1 tr1 Hs Hl Hall ].
  unfold AppSandbox.change_user. rewrite bind_assoc.
  answer g e E1; [rewrite bind_assoc; answer u e E2|].
  - rewrite bind_ret. cbv iota. rewrite bind_syscall.
    set (s2 := push (push s1 _ _) _ _).
    assert (Hs2 : trace s2 = trace s ++
              (tr1 ++ [(SysSetgid (AppSandbox.sandbox_gid policy), SysOk g);
                       (SysSetuid (AppSandbox.sandbox_uid policy), SysOk u)]))
      by (subst s2; rewrite !trace_push, Hs, <- !app_assoc; reflexivity).
    right. exists (tr1 ++ [(SysSetgid (AppSandbox.sandbox_gid policy), SysOk g);
                           (SysSetuid (AppSandbox.sandbox_uid policy), SysOk u)]).
    split; [rewrite Hall; apply List.map_app|].
    split; [apply lenient_app; [exact Hl|];
            apply lenient_cons_ok, lenient_cons_ok; constructor|].
    destruct (sys K (trace s2) (SysSetuid 0)) as [z|ez] eqn:E3.
    + destruct (Z.eqb_spec (rv (SysOk z)) 0) as [Hz|Hz].
      * rewrite bind_log. apply rv_zero in Hz. inversion Hz; subst z.
        left. cbn [fst snd _exit]. split; [reflexivity|].
        rewrite trace_add_audit, trace_push, Hs2, <- !app_assoc.
        split; [reflexivity|apply last_line_add_audit].
      * rewrite bind_log. unfold execv. rewrite bind_exec.
        set (s3 := add_audit _ _).
        right. exists (SysOk z).
        exists (sys K (trace s3) (SysExecve app_path argv None)).
        split; [exact Hz|].
        destruct (sys K (trace s3) _) as [x|ex] eqn:Ex; cbn [fst snd _exit];
          (split; [ subst s3; rewrite trace_push, trace_add_audit, trace_push,
                      Hs2, <- !app_assoc; reflexivity |]);
          (split; [|reflexivity]);
          unfold last_line; rewrite audit_push; subst s3;
          rewrite audit_add_audit; apply last_snoc.
    + change (rv (SysErr ez) =? 0) with false. cbv iota.
      rewrite bind_log. unfold execv. rewrite bind_exec.
      set (s3 := add_audit _ _).
      right. exists (SysErr ez).
      exists (sys K (trace s3) (SysExecve app_path argv None)).
      split; [cbn; lia|].
      destruct (sys K (trace s3) _) as [x|ex] eqn:Ex; cbn [fst snd _exit];
        (split; [ subst s3; rewrite trace_push, trace_add_audit, trace_push,
                    Hs2, <- !app_assoc; reflexivity |]);
        (split; [|reflexivity]);
        unfold last_line; rewrite audit_push; subst s3;
        rewrite audit_add_audit; apply last_snoc.
  - rewrite bind_ret. cbv iota.
    rewrite bind_get_errno, errno_push_err, bind_log.
    apply Hstop. split; [reflexivity|].
    exists (tr1 ++ [(SysSetgid (AppSandbox.sandbox_gid policy), SysOk g)]),
      (SysSetuid (AppSandbox.sandbox_uid policy)), e, [].
    cbn [snd _exit]. rewrite trace_add_audit, !trace_push, Hs, <- !app_assoc.
    split; [reflexivity|].
    split; [apply lenient_app; [exact Hl|apply lenient_cons_ok; constructor]|].
    split; [reflexivity|].
    split; [|apply last_line_add_audit].
    apply (calls_app tr1 [(SysSetgid (AppSandbox.sandbox_gid policy), SysOk g)]
             [SysSetgid (AppSandbox.sandbox_gid policy)]
             [SysSetuid (AppSandbox.sandbox_uid policy)]);
      [exact Hall|reflexivity].
  - rewrite bind_ret. cbv iota.
    rewrite bind_get_errno, errno_push_err, bind_log.
    apply Hstop. split; [reflexivity|].
    exists tr1, (SysSetgid (AppSandbox.sandbox_gid policy)), e,
      [SysSetuid (AppSandbox.sandbox_uid policy)].
    cbn [snd _exit]. rewrite trace_add_audit, trace_push, Hs, <- app_assoc.
    split; [reflexivity|]. split; [exact Hl|]. split; [reflexivity|].
    split; [exact Hall|apply last_line_add_audit].
Qed.

(** ** The child of the phase 3 sandbox *)

(** A leaf of a symbolically executed stage in which every call went
    through, and one in which the call after [pre] failed with [e]. *)
Ltac runs_ok_leaf :=
  repeat run1; unfold ret; eexists _, _, _; (split; [reflexivity|]);
  (split; [ rewrite ?trace_add_audit, ?trace_push, <- ?app_assoc;
            reflexivity |]);
  left; (split; [lia|]); (split; [reflexivity|]);
  cbn [app]; repeat (apply lenient_cons_ok); constructor.

Ltac runs_err_leaf pre e :=
  repeat run1; unfold ret; eexists _, _, (pre ++ [(_, SysErr e)]);
  (split; [reflexivity|]);
  (split; [ rewrite ?trace_add_audit, ?trace_push, <- ?app_assoc;
            reflexivity |]);
  right; eexists pre, _, e, _; (split; [reflexivity|]);
  (split; [repeat (apply lenient_cons_ok); constructor|]);
  (split; [reflexivity|]); (split; [reflexivity|]);
  (split; [reflexivity|]); (split; [cbn; lia|]);
  rewrite ?errno_add_audit; apply errno_push_err.

Lemma phase3_namespaces_stage_runs K :
  stage_runs phase3_tolerated minus_one (SandboxPhase3.setup_namespaces K)
             [phase3_unshare; phase3_proc_mount].
Proof.
  intros s. unfold SandboxPhase3.setup_namespaces.
  answer v e E; [|runs_err_leaf (@nil event) e].
  rewrite bind_syscall.
  match goal with
  | |- context [if ?b then _ else _] => destruct b
  end; repeat run1; unfold ret; eexists _, _, [_; _];
    (split; [reflexivity|]);
    (split; [now rewrite ?trace_add_audit, !trace_push, <- app_assoc|]);
    left; (split; [lia|]); (split; [reflexivity|]);
    (constructor; [right; now exists v|]);
    (constructor; [now left|constructor]).
Qed.

Lemma phase3_limits_stage_runs K :
  stage_runs phase3_tolerated minus_one (SandboxPhase3.set_resource_limits K)
             phase3_limit_calls.
Proof.
  intros s. unfold SandboxPhase3.set_resource_limits. cbv zeta.
  answer v1 e1 E1; [answer v2 e2 E2; [answer v3 e3 E3|]|].
  - runs_ok_leaf.
  - runs_err_leaf [(SysSetrlimit RLIMIT_AS 536870912 536870912, SysOk v1);
                   (SysSetrlimit RLIMIT_NPROC 64 64, SysOk v2)] e3.
  - runs_err_leaf [(SysSetrlimit RLIMIT_AS 536870912 536870912, SysOk v1)] e2.
  - runs_err_leaf (@nil event) e1.
Qed.

Lemma phase3_seccomp_stage_runs K allowed n :
  stage_runs phase3_tolerated minus_one
             (SandboxPhase3.install_seccomp_filter K allowed n)
             phase3_filter_calls.
Proof.
  intros s. unfold SandboxPhase3.install_seccomp_filter. cbv zeta.
  answer v1 e1 E1; [answer v2 e2 E2|].
  - runs_ok_leaf.
  - runs_err_leaf [(nnp_call, SysOk v1)] e2.
  - runs_err_leaf (@nil event) e1.
Qed.

Lemma phase3_capabilities_stage_runs K :
  stage_runs phase3_tolerated minus_one
             (SandboxPhase3.drop_capabilities_manual K)
             (capbset_calls ++ [nnp_call]).
Proof.
  intros s. unfold SandboxPhase3.drop_capabilities_manual.
  destruct (capbset_drop_loop_calls K (map Z.of_nat (seq 0 38)) s)
    as (s1 & tr & Hrun & Htr & Hm & Hl).
  rewrite (bind_ret_run _ _ _ _ _ Hrun).
  answer v e E; repeat run1; unfold ret;
    eexists _, _, (tr ++ [_]); (split; [reflexivity|]);
    (split; [now rewrite ?trace_add_audit, trace_push, Htr, <- app_assoc|]).
  - left. split; [lia|]. split.
    + etransitivity; [apply List.map_app|]. unfold capbset_calls.
      now f_equal.
    + apply lenient_app; [exact Hl|]. apply lenient_cons_ok. constructor.
  - right. exists tr, nnp_call, e, []. split; [reflexivity|].
    split; [exact Hl|]. split; [reflexivity|].
    split; [apply (f_equal (fun l => l ++ [nnp_call])); symmetry; exact Hm|].
    split; [reflexivity|]. split; [cbn; lia|].
    rewrite errno_add_audit. apply errno_push_err.
Qed.

Ltac inline_ok_leaf :=
  repeat run1; unfold ret; eexists _, _, _; (split; [reflexivity|]);
  (split; [ rewrite ?trace_add_audit, ?trace_push, <- ?app_assoc;
            reflexivity |]);
  left; (split; [reflexivity|]); (split; [reflexivity|]);
  cbn [app]; repeat (apply lenient_cons_ok); constructor.

Ltac inline_err_leaf pre e :=
  repeat run1; unfold _exit; eexists _, _, (pre ++ [(_, SysErr e)]);
  (split; [reflexivity|]);
  (split; [ rewrite ?trace_add_audit, ?trace_push, <- ?app_assoc;
            reflexivity |]);
  right; (split; [reflexivity|]); eexists pre, _, e, _;
  (split; [reflexivity|]);
  (split; [repeat (apply lenient_cons_ok); constructor|]);
  (split; reflexivity).

Lemma phase3_change_root_runs K cfg :
  inline_runs phase3_tolerated (SandboxPhase3.change_root K cfg)
              (phase3_root_calls cfg).
Proof.
  intros s. unfold SandboxPhase3.change_root, phase3_root_calls.
  destruct (SandboxPhase3.chroot_dir cfg) as [dir|].
  - answer v1 e1 E1; [answer v2 e2 E2|].
    + inline_ok_leaf.
    + inline_err_leaf [(SysChroot dir, SysOk v1)] e2.
    + inline_err_leaf (@nil event) e1.
  - exists (Ret tt), s, []. rewrite app_nil_r.
    split; [reflexivity|]. split; [reflexivity|].
    left. repeat split. constructor.
Qed.

Lemma phase3_change_user_group_runs K cfg :
  inline_runs phase3_tolerated (SandboxPhase3.change_user_group K cfg)
              (phase3_id_calls cfg).
Proof.
  intros s. unfold SandboxPhase3.change_user_group, phase3_id_calls.
  assert (Hnil : forall st : pstate, trace st = trace st ++ [])
    by (intros; now rewrite app_nil_r).
  destruct (SandboxPhase3.gid cfg >? 0);
    destruct (SandboxPhase3.uid cfg >? 0).
  - rewrite bind_assoc. answer v1 e1 E1;
      [repeat run1; rewrite bind_assoc; answer v2 e2 E2|].
    + inline_ok_leaf.
    + inline_err_leaf [(SysSetgid (SandboxPhase3.gid cfg), SysOk v1)] e2.
    + inline_err_leaf (@nil event) e1.
  - rewrite bind_assoc. answer v1 e1 E1.
    + inline_ok_leaf.
    + inline_err_leaf (@nil event) e1.
  - repeat run1. rewrite bind_assoc. answer v2 e2 E2.
    + inline_ok_leaf.
    + inline_err_leaf (@nil event) e2.
  - repeat run1. exists (Ret tt), s, [].
    split; [reflexivity|]. split; [apply Hnil|].
    left. repeat split. constructor.
Qed.

Lemma phase3_child_complete K cfg prog s :
  phase3_child_runs cfg prog s (SandboxPhase3.sandbox_child K cfg prog s).
Proof.
  assert (Hs : trace s = trace s ++ []) by now rewrite app_nil_r.
  assert (Hl : lenient phase3_tolerated []) by constructor.
  assert (Hall : phase3_exec_calls cfg prog = map fst (@nil event) ++
            [phase3_unshare; phase3_proc_mount] ++
            phase3_root_calls cfg ++ phase3_limit_calls ++
            (capbset_calls ++ [nnp_call]) ++ phase3_id_calls cfg ++
            phase3_filter_calls ++
            [SysExecve prog (SandboxPhase3.argv cfg)
                       (Some (SandboxPhase3.envp cfg))])
    by reflexivity.
  assert (Hstop : forall res,
             stopped phase3_tolerated no_report (phase3_exec_calls cfg prog)
                     s res ->
             phase3_child_runs cfg prog s res) by (intros res H; now left).
  assert (Hfail : forall (m : audit_msg) (cs : list syscall)
                         (sc : syscall) (e : positive) (st : pstate),
             In sc cs -> errno st = Z.pos e ->
             exists st',
               bind (log m) (fun _ => _exit EXIT_FAILURE) st
               = (@Exited Z EXIT_FAILURE, st') /\
               trace st' = trace st /\ no_report sc e st').
  { intros. eexists. split; [reflexivity|]. split; [reflexivity|exact I]. }
  unfold SandboxPhase3.sandbox_child.
  eapply (run_step phase3_tolerated no_report minus_one);
    [ apply phase3_namespaces_stage_runs
    | exact Hs | exact Hl | exact Hall | apply Hfail | exact Hstop
    | clear Hs Hl Hall; intros s1 tr1 Hs Hl Hall ].
  eapply (run_inline_step phase3_tolerated);
    [ apply phase3_change_root_runs
    | exact Hs | exact Hl | exact Hall | exact Hstop
    | clear s1 tr1 Hs Hl Hall; intros s1 tr1 Hs Hl Hall ].
  eapply (run_step phase3_tolerated no_report minus_one);
    [ apply phase3_limits_stage_runs
    | exact Hs | exact Hl | exact Hall | apply Hfail | exact Hstop
    | clear s1 tr1 Hs Hl Hall; intros s1 tr1 Hs Hl Hall ].
  eapply (run_step phase3_tolerated no_report minus_one);
    [ apply phase3_capabilities_stage_runs
    | exact Hs | exact Hl | exact Hall | apply Hfail | exact Hstop
    | clear s1 tr1 Hs Hl Hall; intros s1 tr1 Hs Hl Hall ].
  eapply (run_inline_step phase3_tolerated);
    [ apply phase3_change_user_group_runs
    | exact Hs | exact Hl | exact Hall | exact Hstop
    | clear s1 tr1 Hs Hl Hall; intros s1 tr1 Hs Hl Hall ].
  eapply (run_step phase3_tolerated no_report minus_one);
    [ apply phase3_seccomp_stage_runs
    | exact Hs | exact Hl | exact Hall | apply Hfail | exact Hstop
    | clear s1 tr1 Hs Hl Hall; intros s1 tr1 Hs Hl Hall ].
  unfold execve. rewrite bind_exec.
  destruct (sys K (trace s1) _) as [x|ex] eqn:Ex.
  - right. eexists (tr1 ++ [(_, SysOk x)]). cbn [fst snd].
    split; [now rewrite trace_push, Hs, <- app_assoc|].
    split; [rewrite Hall; apply List.map_app|].
    split; [|reflexivity].
    apply lenient_app; [exact Hl|]. apply lenient_cons_ok. constructor.
  - rewrite bind_log. apply Hstop. split; [reflexivity|].
    exists tr1, (SysExecve prog (SandboxPhase3.argv cfg)
                           (Some (SandboxPhase3.envp cfg))), ex, [].
    cbn [snd _exit]. rewrite trace_add_audit, trace_push, Hs, <- app_assoc.
    split; [reflexivity|]. split; [exact Hl|]. split; [reflexivity|].
    split; [exact Hall|exact I].
Qed.

Lemma phase3_stage_sequence cfg prog :
  stages_of (phase3_exec_calls cfg prog) = phase3_stages cfg.
Proof.
  unfold stages_of, phase3_exec_calls, phase3_stages, phase3_root_calls,
    phase3_id_calls.
  destruct (SandboxPhase3.chroot_dir cfg);
    destruct (SandboxPhase3.gid cfg >? 0);
    destruct (SandboxPhase3.uid cfg >? 0); reflexivity.
Qed.

(** ** The builder pipeline: order of the stages *)

(** C1 (as amended). For a policy whose mount count is within its mount
    table, the child of secure_sandbox_fixed.c is the specification's
    builder: namespaces, mounts, seccomp, capability drop, resource
    limits, privilege drop, each stage entered only when the one before
    returned success, and then the exec; a failing stage is reported and
    the child exits at once with EXIT_FAILURE, which is not 0. It stops
    at the first call that fails, none being tolerated, and its system
    calls occur in that stage order. The child of the phase 3
    secure_sandbox.c goes through its calls in another order: namespaces
    with the /proc mount, root change, resource limits, capability
    bounding set, gid/uid (for ids above 0 only), seccomp, exec. It
    leaves with EXIT_FAILURE at the first failing call other than the
    /proc mount and the bounding-set drops, whose failure it passes over,
    and otherwise it issues every one of these calls and reaches the
    exec. *)
Theorem builder_stage_order (K : kernel) :
  (forall cfg s,
      mounts_in_table cfg ->
      SandboxFixed.sandbox_child K cfg s =
      builder (fixed_action K cfg) spec_order fixed_report
              (fixed_ready K cfg) s /\
      fixed_child_runs cfg s (SandboxFixed.sandbox_child K cfg s) /\
      exists tr,
        trace (snd (SandboxFixed.sandbox_child K cfg s)) = trace s ++ tr /\
        in_order rank_spec tr = true /\
        (fst (SandboxFixed.sandbox_child K cfg s) = Exited EXIT_FAILURE \/
         fst (SandboxFixed.sandbox_child K cfg s) =
         Execed (SandboxFixed.program cfg) (SandboxFixed.argv cfg)
                (Some (SandboxFixed.envp cfg)))) /\
  EXIT_FAILURE <> 0 /\
  (forall cfg prog s,
      phase3_child_runs cfg prog s
        (SandboxPhase3.sandbox_child K cfg prog s) /\
      stages_of (phase3_exec_calls cfg prog) = phase3_stages cfg /\
      exists tr,
        trace (snd (SandboxPhase3.sandbox_child K cfg prog s)) = trace s ++ tr /\
        in_order rank_phase3 tr = true).
Proof.
  split; [|split].
  - intros cfg s _. split; [apply fixed_child_is_builder|].
    split; [apply fixed_child_complete|].
    destruct (fixed_child_run K cfg s) as (tr & Htr & Hord & Hc).
    exists tr. split; [exact Htr|]. split; [exact Hord|].
    destruct Hc as [[Ho _] | [[Ho _] | [Ho _]]]; auto.
  - discriminate.
  - intros cfg prog s. split; [apply phase3_child_complete|].
    split; [apply phase3_stage_sequence|].
    destruct (phase3_child_run K cfg prog s) as (tr & Htr & Hord & _).
    exists tr. auto.
Qed.

(** The fixed sandbox at the root policy, which is the one
    [create_secure_sandbox] forks a child for when a caller with another
    uid asks for it. *)
Lemma builder_stage_order_witness :
  mounts_in_table root_config /\
  SandboxFixed.sandbox_child permissive_kernel root_config initial_pstate =
  builder (fixed_action permissive_kernel root_config) spec_order fixed_report
          (fixed_ready permissive_kernel root_config) initial_pstate /\
  fixed_child_runs root_config initial_pstate
    (SandboxFixed.sandbox_child permissive_kernel root_config initial_pstate).
Proof.
  assert (Hb : mounts_in_table root_config)
    by (unfold mounts_in_table; simpl; lia).
  split; [exact Hb|].
  destruct (proj1 (builder_stage_order permissive_kernel) root_config
              initial_pstate Hb) as (Heq & Hruns & _).
  split; [exact Heq|exact Hruns].
Defined.

(** C1, as stated, fails on the phase 3 sandbox (the exec is refused in
    both runs). With every call before the exec succeeding, its calls are
    not in the order namespaces,
    mounts, seccomp, capabilities, limits, privilege drop: the resource
    limits come before the capability drop and the seccomp filter is
    installed last, after the uid change. And a failure does not always
    end the child: when the /proc mount fails, the next call is the first
    setrlimit. *)
Lemma phase3_order_differs :
  let res := SandboxPhase3.sandbox_child no_exec_kernel demo_config3
               "/bin/true" initial_pstate in
  let res' := SandboxPhase3.sandbox_child
                (failing_kernel (fun sc => is_mount sc || is_execve sc))
                demo_config3 "/bin/true" initial_pstate in
  in_order rank_spec (trace (snd res)) = false /\
  stages_of (map fst (trace (snd res))) =
  [StNamespaces; StMounts; StLimits; StCapabilities; StPrivilege; StSeccomp;
   StExec] /\
  nth_error (trace (snd res')) 1 = Some (phase3_proc_mount, SysErr 1) /\
  nth_error (trace (snd res')) 2 =
  Some (SysSetrlimit RLIMIT_AS 536870912 536870912, SysOk 0).
Proof. vm_compute. repeat split. Qed.

(** ** The regain check after the privilege drop *)

(** C4. [change_to_sandbox_user] sets the gid, then the uid, then tries
    setuid(0): it returns 0 only when that last call did not return 0,
    and -EPERM when it did. The child of secure_sandbox_fixed.c (for a
    policy whose mount count is within its mount table) and the child of
    app_sandbox.c, unless a call of the setup before has failed and
    ended them, call setuid(0) right after the successful setgid and
    setuid of the policy's ids: when it returns 0 that is the child's
    last call, and the child reports -EPERM and leaves with
    EXIT_FAILURE; only when it does not return 0 does the child go on to
    the exec. *)
Theorem regain_check (K : kernel) :
  (forall uid gid s, exists r s',
      SandboxFixed.change_to_sandbox_user K uid gid s = (Ret r, s') /\
      ((exists e, trace s' = trace s ++ [(SysSetgid gid, SysErr e)] /\
                  r = - Z.pos e) \/
       (exists g e, trace s' = trace s ++ [(SysSetgid gid, SysOk g);
                                           (SysSetuid uid, SysErr e)] /\
                    r = - Z.pos e) \/
       (exists g u, trace s' = trace s ++ [(SysSetgid gid, SysOk g);
                                           (SysSetuid uid, SysOk u);
                                           (SysSetuid 0, SysOk 0)] /\
                    r = - EPERM) \/
       (exists g u z, trace s' = trace s ++ [(SysSetgid gid, SysOk g);
                                             (SysSetuid uid, SysOk u);
                                             (SysSetuid 0, z)] /\
                      rv z <> 0 /\ r = 0))) /\
  (forall cfg s,
      mounts_in_table cfg ->
      fixed_child_runs cfg s (SandboxFixed.sandbox_child K cfg s)) /\
  (forall policy app_path argv s,
      app_child_runs policy app_path argv s
        (AppSandbox.sandbox_child K policy app_path argv s)).
Proof.
  split; [|split].
  - intros uid gid s.
    destruct (change_to_sandbox_user_run K uid gid s)
      as (r & s' & Hrun & _ & Hc).
    exists r, s'. split; assumption.
  - intros cfg s _. apply fixed_child_complete.
  - intros policy app_path argv s. apply app_child_complete.
Qed.

(** The regain check at work. The child of the fixed sandbox for the root
    policy, under a kernel that grants everything: its last call is the
    successful setuid(0) and it leaves with EXIT_FAILURE. The child of
    the application sandbox for a valid policy, under a kernel that
    refuses uid 0: the refused setuid(0) is followed by the exec. *)
Lemma regain_check_witness :
  let fixed := SandboxFixed.sandbox_child permissive_kernel root_config
                 initial_pstate in
  let app := AppSandbox.sandbox_child child_kernel demo_policy "/bin/true"
               ["/bin/true"] initial_pstate in
  mounts_in_table root_config /\
  fixed_child_runs root_config initial_pstate fixed /\
  app_child_runs demo_policy "/bin/true" ["/bin/true"] initial_pstate app /\
  fst fixed = Exited EXIT_FAILURE /\
  last (trace (snd fixed)) = Some (SysSetuid 0, SysOk 0) /\
  last (audit (snd fixed)) = Some (AuditSandboxFailure "user change" (- EPERM)) /\
  fst app = Execed "/bin/true" ["/bin/true"] None /\
  lookup 13%nat (trace (snd app)) = Some (SysSetuid 0, SysErr 1) /\
  lookup 14%nat (trace (snd app))
  = Some (SysExecve "/bin/true" ["/bin/true"] None, SysOk 0).
Proof.
  cbv zeta.
  assert (Hb : mounts_in_table root_config)
    by (unfold mounts_in_table; simpl; lia).
  split; [exact Hb|].
  split; [exact (proj1 (proj2 (regain_check permissive_kernel)) root_config
                   initial_pstate Hb)|].
  split; [exact (proj2 (proj2 (regain_check child_kernel)) demo_policy
                   "/bin/true" ["/bin/true"] initial_pstate)|].
  vm_compute. repeat split.
Defined.

(** ** Exit codes of the child *)



